(** * AI service of the blogging backend: a shallow embedding

    This development embeds [backend/services/aiService.js] and states its
    behaviour as theorems.  The module talks to a remote text-generation
    provider, classifies the returned text as a moderation refusal or not,
    and extracts a tag list, a title list, a JSON object or a category name
    from it.

    Modelling decisions.
    - A JavaScript string is a list of UTF-16 code units ([N]).  Source
      literals are written with [str]; a double quote or a line feed inside a
      literal is spliced in as a code unit ([dq], [nl]).
    - [toLowerCase] is modelled on the ASCII range: code units outside it are
      left as they are (the Unicode case tables are not part of the model).
      On a text of ASCII characters ([ascii_text]) it is
      [String.prototype.toLowerCase]; a statement that spells out a
      lower-cased text, or concludes from two lower-cased texts being
      different, says that the text is ASCII.
    - A number is an integer; [number_toString] prints it in decimal, which
      is what a template literal prints for a safe integer
      ([Number_isSafeInteger]).
    - The regular expressions of the source are values of a small regular
      expression type, run by a backtracking matcher in continuation-passing
      style, the way ECMAScript defines matching.
    - [JSON.parse] is a built-in of the platform; it is modelled by a
      recursive-descent parser for the JSON grammar.
    - The provider is an oracle that answers each request, given the requests
      made so far; the world records every request that was issued.  An
      [async] function is a computation in a state-and-exception monad.
      Console output is not modelled.
    - The handlers of [routes/ai.js] and the AI part of the handler that
      creates a blog post ([routes/blogs.js]) are embedded after the
      service; the database and the authentication middleware are not. *)

From Stdlib Require Import String Ascii Bool Arith NArith ZArith QArith Lia List.
From Stdlib Require DecimalString.
Import ListNotations.

Set Warnings "-register-all".
Local Open Scope N_scope.

(* ================================================================== *)
(** * Part I. Definitions *)
(* ================================================================== *)

(** ** JavaScript strings *)

Definition char := N.
Definition jsstring := list char.

(** A source literal made of ASCII characters. *)
Definition str (s : string) : jsstring :=
  List.map N_of_ascii (list_ascii_of_string s).

Definition dq : char := 34.   (* the double quote *)
Definition nl : char := 10.   (* line feed, written \n in the source *)

(** A literal between double quotes. *)
Definition quoted (s : string) : jsstring := dq :: str s ++ [dq].

Fixpoint streqb (a b : jsstring) : bool :=
  match a, b with
  | [], [] => true
  | x :: a', y :: b' => (x =? y) && streqb a' b'
  | _, _ => false
  end.

(** [s.substring(0, n)] *)
Definition substring0 (n : nat) (s : jsstring) : jsstring := firstn n s.

Definition lower_char (c : char) : char :=
  if (65 <=? c) && (c <=? 90) then c + 32 else c.

Definition upper_char (c : char) : char :=
  if (97 <=? c) && (c <=? 122) then c - 32 else c.

(** [s.toLowerCase()] and [s.toUpperCase()], on the ASCII range. *)
Definition toLowerCase (s : jsstring) : jsstring := List.map lower_char s.
Definition toUpperCase (s : jsstring) : jsstring := List.map upper_char s.

(** The texts on which [toLowerCase] above is the built-in: every code unit
    is below 128.  Outside them the built-in follows the Unicode case
    tables (U+00C9 becomes U+00E9, U+212A becomes k, U+0130 becomes i
    followed by U+0307), which [lower_char] does not. *)
Definition is_ascii (c : char) : bool := c <? 128.
Definition ascii_text (s : jsstring) : bool := forallb is_ascii s.
Definition ascii_texts (l : list jsstring) : bool := forallb ascii_text l.

(** White space and line terminators of ECMAScript, as [trim] strips them. *)
Definition is_line_terminator (c : char) : bool :=
  (c =? 10) || (c =? 13) || (c =? 8232) || (c =? 8233).

Definition is_white_space (c : char) : bool :=
  (c =? 9) || (c =? 11) || (c =? 12) || (c =? 32) || (c =? 160)
  || (c =? 5760) || ((8192 <=? c) && (c <=? 8202)) || (c =? 8239)
  || (c =? 8287) || (c =? 12288) || (c =? 65279).

Definition is_trimmed_char (c : char) : bool :=
  is_white_space c || is_line_terminator c.

Fixpoint trimStart (s : jsstring) : jsstring :=
  match s with
  | c :: s' => if is_trimmed_char c then trimStart s' else s
  | [] => []
  end.

Definition trimEnd (s : jsstring) : jsstring := rev (trimStart (rev s)).

(** [s.trim()] *)
Definition trim (s : jsstring) : jsstring := trimEnd (trimStart s).

(** [p] is a prefix of [s]. *)
Fixpoint startsWith (p s : jsstring) : bool :=
  match p, s with
  | [], _ => true
  | x :: p', y :: s' => (x =? y) && startsWith p' s'
  | _ :: _, [] => false
  end.

(** [s.includes(p)] *)
Fixpoint includes (s p : jsstring) : bool :=
  startsWith p s ||
  match s with
  | [] => false
  | _ :: s' => includes s' p
  end.

(** Template-literal rendering of an integer, [`${n}`]: its decimal digits.
    That is what the platform prints for a safe integer; a larger magnitude
    is printed from the shortest digits of the double, and in exponent form
    from 1e21 on. *)
Definition number_toString (n : Z) : jsstring :=
  str (DecimalString.NilZero.string_of_int (Z.to_int n)).

(** [Number.isSafeInteger(n)], for an integer [n]: its magnitude is at most
    2^53 - 1. *)
Definition Number_isSafeInteger (n : Z) : bool :=
  (Z.abs n <=? 9007199254740991)%Z.

(** ** Regular expressions

    The fragment the source uses: literals, a greedy star over a character
    class, sequence and alternation, under the flags [i] and [s]. *)

Inductive cclass :=
| CDot      (* .        *)
| CAll.     (* [\s\S]   *)

Inductive regex :=
| RLit (p : jsstring)
| RStar (cls : cclass)
| RSeq (r1 r2 : regex)
| RAlt (r1 r2 : regex).

Record flags := { ignoreCase : bool; dotAll : bool }.

(** Canonicalize of ECMAScript for the [i] flag.  A code unit outside ASCII
    never canonicalizes into ASCII, so against ASCII patterns it is enough to
    fold the ASCII letters. *)
Definition canonicalize (fl : flags) (c : char) : char :=
  if ignoreCase fl then upper_char c else c.

Definition char_matches (fl : flags) (p c : char) : bool :=
  canonicalize fl p =? canonicalize fl c.

Definition class_accepts (fl : flags) (cls : cclass) (c : char) : bool :=
  match cls with
  | CDot => dotAll fl || negb (is_line_terminator c)
  | CAll => true
  end.

(** The text that remains once the literal [p] has matched at the head. *)
Fixpoint match_lit (fl : flags) (p s : jsstring) : option jsstring :=
  match p, s with
  | [], _ => Some s
  | x :: p', c :: s' => if char_matches fl x c then match_lit fl p' s' else None
  | _ :: _, [] => None
  end.

(** Greedy star: take as many characters as the class accepts, then give
    them back one at a time until the continuation succeeds. *)
Fixpoint match_star (fl : flags) (cls : cclass) (s : jsstring)
    (k : jsstring -> option jsstring) : option jsstring :=
  match s with
  | [] => k []
  | c :: s' =>
      if class_accepts fl cls c then
        match match_star fl cls s' k with
        | Some r => Some r
        | None => k s
        end
      else k s
  end.

Fixpoint matcher (fl : flags) (r : regex) (s : jsstring)
    (k : jsstring -> option jsstring) : option jsstring :=
  match r with
  | RLit p =>
      match match_lit fl p s with
      | Some rest => k rest
      | None => None
      end
  | RStar cls => match_star fl cls s k
  | RSeq r1 r2 => matcher fl r1 s (fun s' => matcher fl r2 s' k)
  | RAlt r1 r2 =>
      match matcher fl r1 s k with
      | Some rest => Some rest
      | None => matcher fl r2 s k
      end
  end.

(** The match that starts at the head of [s], if there is one. *)
Definition match_here (fl : flags) (r : regex) (s : jsstring) : option jsstring :=
  match matcher fl r s Some with
  | Some rest => Some (firstn (length s - length rest) s)
  | None => None
  end.

(** [RegExp.prototype.exec] without the [g] flag: the leftmost match, as the
    pair of its index and its text. *)
Fixpoint regex_exec_from (fl : flags) (r : regex) (index : nat) (s : jsstring)
    : option (nat * jsstring) :=
  match match_here fl r s with
  | Some m => Some (index, m)
  | None =>
      match s with
      | [] => None
      | _ :: s' => regex_exec_from fl r (S index) s'
      end
  end.

Definition regex_exec (fl : flags) (r : regex) (s : jsstring) :=
  regex_exec_from fl r 0 s.

(** [pattern.test(s)] *)
Definition regex_test (fl : flags) (r : regex) (s : jsstring) : bool :=
  match regex_exec fl r s with Some _ => true | None => false end.

(** [s.match(pattern)], element 0 of the result ([None] for [null]). *)
Definition string_match (fl : flags) (r : regex) (s : jsstring) : option jsstring :=
  option_map snd (regex_exec fl r s).

(** Regular expressions with their flags. *)
Record RegExp := { re_source : regex; re_flags : flags }.

Definition RegExp_test (p : RegExp) (s : jsstring) : bool :=
  regex_test (re_flags p) (re_source p) s.

Definition String_match (s : jsstring) (p : RegExp) : option jsstring :=
  string_match (re_flags p) (re_source p) s.

Fixpoint alternatives (ps : list jsstring) : regex :=
  match ps with
  | [] => RLit []
  | [p] => RLit p
  | p :: ps' => RAlt (RLit p) (alternatives ps')
  end.

(** [a.slice(0, e)] on an array: a negative [e] counts from the end. *)
Definition slice0 {A : Type} (a : list A) (e : Z) : list A :=
  if (e <? 0)%Z then firstn (length a - Z.to_nat (- e)) a
  else firstn (Z.to_nat e) a.

(** ** JSON.parse

    Values keep numbers as their lexeme and objects as their members in
    source order (a later member shadows an earlier one of the same key). *)

Inductive json :=
| JNull
| JBool (b : bool)
| JNumber (lexeme : jsstring)
| JString (s : jsstring)
| JArray (elements : list json)
| JObject (members : list (jsstring * json)).

Inductive presult :=
| Parsed (v : json) (rest : jsstring)
| SyntaxErr
| OutOfFuel.

Definition is_json_ws (c : char) : bool :=
  (c =? 9) || (c =? 10) || (c =? 13) || (c =? 32).

Fixpoint skip_ws (s : jsstring) : jsstring :=
  match s with
  | c :: s' => if is_json_ws c then skip_ws s' else s
  | [] => []
  end.

Fixpoint strip_prefix (p s : jsstring) : option jsstring :=
  match p, s with
  | [], _ => Some s
  | x :: p', c :: s' => if x =? c then strip_prefix p' s' else None
  | _ :: _, [] => None
  end.

Definition is_digit (c : char) : bool := (48 <=? c) && (c <=? 57).

Fixpoint take_digits (s : jsstring) : jsstring * jsstring :=
  match s with
  | c :: s' =>
      if is_digit c then let (d, r) := take_digits s' in (c :: d, r)
      else ([], s)
  | [] => ([], [])
  end.

Definition parse_int_part (s : jsstring) : option (jsstring * jsstring) :=
  match s with
  | c :: s' =>
      if c =? 48 then Some ([c], s')
      else if is_digit c then let (d, r) := take_digits s' in Some (c :: d, r)
      else None
  | [] => None
  end.

Definition parse_frac (s : jsstring) : option (jsstring * jsstring) :=
  match s with
  | c :: s' =>
      if c =? 46 then
        match take_digits s' with
        | ([], _) => None
        | (d, r) => Some (c :: d, r)
        end
      else Some ([], s)
  | [] => Some ([], [])
  end.

Definition parse_exp (s : jsstring) : option (jsstring * jsstring) :=
  match s with
  | c :: s' =>
      if (c =? 101) || (c =? 69) then
        let (sign, s'') :=
          match s' with
          | x :: t => if (x =? 43) || (x =? 45) then ([x], t) else ([], s')
          | [] => ([], s')
          end in
        match take_digits s'' with
        | ([], _) => None
        | (d, r) => Some (c :: sign ++ d, r)
        end
      else Some ([], s)
  | [] => Some ([], [])
  end.

(** A JSON number: [-? int frac? exp?]. *)
Definition parse_number (s : jsstring) : option (jsstring * jsstring) :=
  let (minus, s0) :=
    match s with
    | c :: s' => if c =? 45 then ([c], s') else ([], s)
    | [] => ([], s)
    end in
  match parse_int_part s0 with
  | None => None
  | Some (i, s1) =>
      match parse_frac s1 with
      | None => None
      | Some (f, s2) =>
          match parse_exp s2 with
          | None => None
          | Some (e, s3) => Some (minus ++ i ++ f ++ e, s3)
          end
      end
  end.

Definition hex_value (c : char) : option N :=
  if is_digit c then Some (c - 48)
  else if (97 <=? c) && (c <=? 102) then Some (c - 87)
  else if (65 <=? c) && (c <=? 70) then Some (c - 55)
  else None.

Definition hex4 (a b c d : char) : option char :=
  match hex_value a, hex_value b, hex_value c, hex_value d with
  | Some x, Some y, Some z, Some w => Some (((x * 16 + y) * 16 + z) * 16 + w)
  | _, _, _, _ => None
  end.

(** The character a one-letter escape stands for. *)
Definition unescape (e : char) : option char :=
  if e =? 34 then Some 34          (* quote *)
  else if e =? 92 then Some 92     (* backslash *)
  else if e =? 47 then Some 47     (* slash *)
  else if e =? 98 then Some 8      (* b: backspace *)
  else if e =? 102 then Some 12    (* f: form feed *)
  else if e =? 110 then Some 10    (* n: line feed *)
  else if e =? 114 then Some 13    (* r: carriage return *)
  else if e =? 116 then Some 9     (* t: tab *)
  else None.

(** A string, after its opening quote: its characters and what follows the
    closing quote. *)
Fixpoint parse_string_body (s : jsstring) : option (jsstring * jsstring) :=
  match s with
  | [] => None
  | c :: s1 =>
      if c =? 34 then Some ([], s1)
      else if c =? 92 then
        match s1 with
        | [] => None
        | e :: s2 =>
            if e =? 117 then
              match s2 with
              | h1 :: h2 :: h3 :: h4 :: s3 =>
                  match hex4 h1 h2 h3 h4, parse_string_body s3 with
                  | Some u, Some (body, rest) => Some (u :: body, rest)
                  | _, _ => None
                  end
              | _ => None
              end
            else
              match unescape e, parse_string_body s2 with
              | Some u, Some (body, rest) => Some (u :: body, rest)
              | _, _ => None
              end
        end
      else if c <? 32 then None
      else
        match parse_string_body s1 with
        | Some (body, rest) => Some (c :: body, rest)
        | None => None
        end
  end.

(** true, false, null or a number, at the head of [s]. *)
Definition parse_atom (s : jsstring) : presult :=
  match strip_prefix (str "true") s with
  | Some rest => Parsed (JBool true) rest
  | None =>
  match strip_prefix (str "false") s with
  | Some rest => Parsed (JBool false) rest
  | None =>
  match strip_prefix (str "null") s with
  | Some rest => Parsed JNull rest
  | None =>
  match parse_number s with
  | Some (lexeme, rest) => Parsed (JNumber lexeme) rest
  | None => SyntaxErr
  end end end end.

Fixpoint parse_value (fuel : nat) (s : jsstring) : presult :=
  match fuel with
  | O => OutOfFuel
  | S fuel' =>
      match skip_ws s with
      | [] => SyntaxErr
      | c :: s1 =>
          if c =? 91 then                                   (* [ *)
            match skip_ws s1 with
            | [] => SyntaxErr
            | c2 :: s2 =>
                if c2 =? 93 then Parsed (JArray []) s2
                else parse_elements fuel' (c2 :: s2) []
            end
          else if c =? 123 then                             (* { *)
            match skip_ws s1 with
            | [] => SyntaxErr
            | c2 :: s2 =>
                if c2 =? 125 then Parsed (JObject []) s2
                else parse_members fuel' (c2 :: s2) []
            end
          else if c =? 34 then
            match parse_string_body s1 with
            | Some (body, rest) => Parsed (JString body) rest
            | None => SyntaxErr
            end
          else parse_atom (c :: s1)
      end
  end
with parse_elements (fuel : nat) (s : jsstring) (acc : list json) : presult :=
  match fuel with
  | O => OutOfFuel
  | S fuel' =>
      match parse_value fuel' s with
      | Parsed v rest =>
          match skip_ws rest with
          | [] => SyntaxErr
          | c :: rest' =>
              if c =? 44 then parse_elements fuel' rest' (v :: acc)
              else if c =? 93 then Parsed (JArray (rev (v :: acc))) rest'
              else SyntaxErr
          end
      | SyntaxErr => SyntaxErr
      | OutOfFuel => OutOfFuel
      end
  end
with parse_members (fuel : nat) (s : jsstring) (acc : list (jsstring * json))
    : presult :=
  match fuel with
  | O => OutOfFuel
  | S fuel' =>
      match skip_ws s with
      | [] => SyntaxErr
      | c :: s1 =>
          if c =? 34 then
            match parse_string_body s1 with
            | None => SyntaxErr
            | Some (key, rest) =>
                match skip_ws rest with
                | [] => SyntaxErr
                | c2 :: s2 =>
                    if c2 =? 58 then
                      match parse_value fuel' s2 with
                      | Parsed v rest2 =>
                          match skip_ws rest2 with
                          | [] => SyntaxErr
                          | c3 :: s3 =>
                              if c3 =? 44 then
                                parse_members fuel' s3 ((key, v) :: acc)
                              else if c3 =? 125 then
                                Parsed (JObject (rev ((key, v) :: acc))) s3
                              else SyntaxErr
                          end
                      | SyntaxErr => SyntaxErr
                      | OutOfFuel => OutOfFuel
                      end
                    else SyntaxErr
                end
            end
          else SyntaxErr
      end
  end.

Definition parse_fuel (s : jsstring) : nat := 2 * length s + 2.

(** [JSON.parse(s)]; [None] stands for the SyntaxError it throws. *)
Definition JSON_parse (s : jsstring) : option json :=
  match parse_value (parse_fuel s) s with
  | Parsed v rest =>
      match skip_ws rest with
      | [] => Some v
      | _ :: _ => None
      end
  | SyntaxErr => None
  | OutOfFuel => None
  end.

(** Property lookup on a parsed value. *)
Fixpoint assoc_last (key : jsstring) (ms : list (jsstring * json)) : option json :=
  match ms with
  | [] => None
  | (k, v) :: ms' =>
      match assoc_last key ms' with
      | Some v' => Some v'
      | None => if streqb k key then Some v else None
      end
  end.

Definition get_field (v : json) (key : jsstring) : option json :=
  match v with
  | JObject ms => assoc_last key ms
  | _ => None
  end.

(** ** The provider and the monad of asynchronous computations *)

Record Message := { role : jsstring; content : jsstring }.

Record Request := {
  messages : list Message;
  model : jsstring;
  temperature : Q;
  max_tokens : Z
}.

(** What [groq.chat.completions.create] does with a request: it resolves to
    a completion, of which the code reads [choices[0]?.message?.content]
    ([None] when the first choice, its message or its content is missing),
    or it rejects with an error that carries a message and a code.  A
    completion without a [choices] array makes the read itself throw inside
    the [try] block, which is a rejection as far as the code can tell. *)
Inductive Outcome :=
| Resolved (text : option jsstring)
| Rejected (message : option jsstring) (code : option jsstring).

Inductive exn :=
| ContentModerationError (message : jsstring)   (* code: CONTENT_MODERATED *)
| Error (message : jsstring)
| SyntaxError (message : jsstring)
| TypeError (message : jsstring)
| ProviderError (message : option jsstring) (code : option jsstring).

Record World := {
  groq : list Request -> Request -> Outcome;
  calls : list Request
}.

Inductive result (A : Type) :=
| Return (a : A)
| Throw (e : exn).
Arguments Return {A} a.
Arguments Throw {A} e.

Definition M (A : Type) := World -> result A * World.

Definition ret {A : Type} (a : A) : M A := fun w => (Return a, w).

Definition throw {A : Type} (e : exn) : M A := fun w => (Throw e, w).

Definition bind {A B : Type} (c : M A) (k : A -> M B) : M B :=
  fun w =>
    match c w with
    | (Return a, w') => k a w'
    | (Throw e, w') => (Throw e, w')
    end.

Definition try_catch {A : Type} (body : M A) (handler : exn -> M A) : M A :=
  fun w =>
    match body w with
    | (Return a, w') => (Return a, w')
    | (Throw e, w') => handler e w'
    end.

Declare Scope async_scope.
Delimit Scope async_scope with async.
Notation "x <- c ;; k" := (bind c (fun x => k))
  (at level 61, c at next level, right associativity) : async_scope.
Notation "'try' body 'catch' handler" := (try_catch body handler)
  (at level 62, body at level 61, handler at level 61) : async_scope.
Local Open Scope async_scope.

(** [await groq.chat.completions.create(request)] *)
Definition chat_completions_create (request : Request) : M (option jsstring) :=
  fun w =>
    let w' := {| groq := groq w; calls := calls w ++ [request] |} in
    match groq w (calls w) request with
    | Resolved text => (Return text, w')
    | Rejected message code => (Throw (ProviderError message code), w')
    end.

Definition error_message (e : exn) : option jsstring :=
  match e with
  | ContentModerationError m => Some m
  | Error m => Some m
  | SyntaxError m => Some m
  | TypeError m => Some m
  | ProviderError m _ => m
  end.

Definition error_code (e : exn) : option jsstring :=
  match e with
  | ContentModerationError _ => Some (str "CONTENT_MODERATED")
  | ProviderError _ c => c
  | _ => None
  end.

(** [error instanceof ContentModerationError] *)
Definition instanceof_ContentModerationError (e : exn) : bool :=
  match e with
  | ContentModerationError _ => true
  | _ => false
  end.

(** [x?.includes(p)], read as a condition. *)
Definition opt_includes (x : option jsstring) (p : jsstring) : bool :=
  match x with
  | Some s => includes s p
  | None => false
  end.

(** [x === lit] for an optional string. *)
Definition opt_equals (x : option jsstring) (lit : jsstring) : bool :=
  match x with
  | Some s => streqb s lit
  | None => false
  end.

(** [x || ''] *)
Definition or_empty (x : option jsstring) : jsstring :=
  match x with
  | Some s => s
  | None => []
  end.

(** ** aiService.js *)

Module MODELS.
Definition FAST : jsstring := str "llama-3.1-8b-instant".
Definition BALANCED : jsstring := str "llama-3.3-70b-versatile".
Definition MIXTRAL : jsstring := str "mixtral-8x7b-32768".
End MODELS.

Definition FALLBACK_MODEL : jsstring := str "llama-3.1-8b-instant".

Definition flags_i : flags := {| ignoreCase := true; dotAll := false |}.
Definition flags_s : flags := {| ignoreCase := false; dotAll := true |}.
Definition flags_none : flags := {| ignoreCase := false; dotAll := false |}.

Definition REFUSAL_PATTERNS : list RegExp :=
  List.map (fun r => {| re_source := r; re_flags := flags_i |})
  [ alternatives [str "i cannot"; str "i can't"; str "i'm unable"; str "i am unable"];
    alternatives [str "i will not"; str "i won't"];
    alternatives [str "inappropriate"; str "offensive"; str "harmful"];
    RAlt (RLit (str "against my guidelines"))
         (RSeq (RLit (str "violates")) (RSeq (RStar CDot) (RLit (str "policy"))));
    alternatives [str "as an ai"; str "as a language model"];
    alternatives [str "i'm not able to"; str "i am not able to"];
    alternatives [str "cannot assist with"; str "can't help with"];
    alternatives [str "explicit"; str "adult content"; str "nsfw"] ].

(** The literal alternatives of the patterns (all but [violates.*policy]). *)
Definition refusal_phrases : list jsstring :=
  [ str "i cannot"; str "i can't"; str "i'm unable"; str "i am unable";
    str "i will not"; str "i won't";
    str "inappropriate"; str "offensive"; str "harmful";
    str "against my guidelines";
    str "as an ai"; str "as a language model";
    str "i'm not able to"; str "i am not able to";
    str "cannot assist with"; str "can't help with";
    str "explicit"; str "adult content"; str "nsfw" ].

Definition isContentRefusal (response : jsstring) : bool :=
  match response with
  | [] => false
  | _ :: _ =>
      if (length response <? 10)%nat then false
      else
        let checkText := toLowerCase (substring0 200 response) in
        existsb (fun pattern => RegExp_test pattern checkText) REFUSAL_PATTERNS
  end.

Definition refusal_message : jsstring :=
  str "The AI could not process this content due to safety guidelines. Please ensure your content is appropriate and try again.".

Definition filtered_message : jsstring :=
  str "Your content was flagged by safety filters. Please modify your content and try again.".

Definition unavailable_message : jsstring :=
  str "AI service temporarily unavailable".

(** The provider's own content filtering, as the [catch] block recognises
    it: [message?.includes('content_filter') || message?.includes('moderation')
    || code === 'content_policy_violation']. *)
Definition is_api_content_filter (message code : option jsstring) : bool :=
  opt_includes message (str "content_filter")
  || opt_includes message (str "moderation")
  || opt_equals code (str "content_policy_violation").

Definition completion_request (systemPrompt userPrompt model : jsstring) : Request :=
  {| messages := [ {| role := str "system"; content := systemPrompt |};
                   {| role := str "user"; content := userPrompt |} ];
     model := model;
     temperature := 7 # 10;
     max_tokens := 1024 |}.

Definition makeCompletion (systemPrompt userPrompt model : jsstring) : M jsstring :=
  try
    (completion <- chat_completions_create
                     (completion_request systemPrompt userPrompt model) ;;
     let response := or_empty completion in
     if isContentRefusal response
     then throw (ContentModerationError refusal_message)
     else ret response)
  catch (fun error =>
    if instanceof_ContentModerationError error then throw error
    else if is_api_content_filter (error_message error) (error_code error)
    then throw (ContentModerationError filtered_message)
    else if negb (streqb model FALLBACK_MODEL) then
      try
        (fallbackCompletion <- chat_completions_create
                                 (completion_request systemPrompt userPrompt FALLBACK_MODEL) ;;
         let fallbackResponse := or_empty fallbackCompletion in
         if isContentRefusal fallbackResponse
         then throw (ContentModerationError refusal_message)
         else ret fallbackResponse)
      catch (fun fallbackError =>
        if instanceof_ContentModerationError fallbackError then throw fallbackError
        else throw (Error unavailable_message))
    else throw (Error unavailable_message)).

(** *** Prompts

    A template literal is the concatenation of its pieces; its lines are
    joined by line feeds. *)

Fixpoint join (sep : jsstring) (parts : list jsstring) : jsstring :=
  match parts with
  | [] => []
  | [p] => p
  | p :: ps => p ++ sep ++ join sep ps
  end.

Definition lines (ls : list jsstring) : jsstring := join [nl] ls.

Definition generateTags_systemPrompt (maxTags : Z) : jsstring :=
  lines
  [ str "You are a content tagging expert. Extract the most relevant tags from the given blog content.";
    [];
    str "Rules:";
    str "- Return ONLY a JSON array of strings, no explanation";
    str "- Tags should be lowercase, single words or short phrases";
    str "- Maximum " ++ number_toString maxTags ++ str " tags";
    str "- Focus on main topics, technologies, concepts";
    str "- Make tags SEO-friendly and searchable";
    [];
    str "Example output: [" ++ quoted "javascript" ++ str ", "
      ++ quoted "web development" ++ str ", " ++ quoted "react" ++ str ", "
      ++ quoted "frontend" ++ str ", " ++ quoted "tutorial" ++ str "]" ].

Definition generateTags_userPrompt (content : jsstring) : jsstring :=
  str "Extract tags from this blog content:" ++ [nl; nl] ++ substring0 3000 content.

(** The object [lengthInstructions], read at the key [length]; the
    properties an object inherits from its prototype are not modelled, so
    the reading is that of the source for the three keys the callers pass
    (and for every key that is not a property of [Object.prototype]). *)
Definition lengthInstructions (length : jsstring) : option jsstring :=
  if streqb length (str "short") then Some (str "1-2 sentences, under 50 words")
  else if streqb length (str "medium") then Some (str "A paragraph, around 100 words")
  else if streqb length (str "long") then Some (str "Detailed summary, around 200 words")
  else None.

Definition generateSummary_systemPrompt (length : jsstring) : jsstring :=
  lines
  [ str "You are a content summarizer. Create a " ++ length ++ str " summary.";
    [];
    str "Rules:";
    str "- Length: " ++
      match lengthInstructions length with
      | Some instruction => instruction
      | None => str "1-2 sentences, under 50 words"
      end;
    str "- Capture the main points and key takeaways";
    str "- Write in third person";
    str "- Be concise and informative";
    str "- Return ONLY the summary text, no labels or prefixes" ].

Definition generateSummary_userPrompt (content : jsstring) : jsstring :=
  str "Summarize this blog content:" ++ [nl; nl] ++ substring0 4000 content.

Definition generateTitles_systemPrompt (count : Z) : jsstring :=
  lines
  [ str "You are a headline expert. Generate catchy, SEO-optimized blog titles.";
    [];
    str "Rules:";
    str "- Return ONLY a JSON array of strings";
    str "- Generate exactly " ++ number_toString count ++ str " different title options";
    str "- Titles should be engaging and click-worthy";
    str "- Keep titles under 70 characters";
    str "- Use power words and numbers when appropriate";
    str "- Vary the style (question, how-to, listicle, etc.)";
    [];
    str "Example output: [" ++ quoted "10 Ways to Master JavaScript" ++ str ", "
      ++ quoted "The Ultimate Guide to Web Development" ++ str ", "
      ++ quoted "Why React is Taking Over in 2024" ++ str "]" ].

Definition generateTitles_userPrompt (content : jsstring) (count : Z) : jsstring :=
  str "Generate " ++ number_toString count ++ str " title options for this blog:"
    ++ [nl; nl] ++ substring0 2000 content.

Definition expandText_systemPrompt (tone : jsstring) : jsstring :=
  lines
  [ str "You are a writing assistant. Expand the given text into a fuller, more detailed version.";
    [];
    str "Rules:";
    str "- Maintain the original meaning and intent";
    str "- Use a " ++ tone ++ str " tone";
    str "- Add relevant details, examples, or explanations";
    str "- Double or triple the length naturally";
    str "- Return ONLY the expanded text, no labels" ].

Definition improveText_systemPrompt : jsstring :=
  lines
  [ str "You are a professional editor. Improve the given text for clarity, grammar, and style.";
    [];
    str "Return a JSON object with:";
    str "- " ++ quoted "improved" ++ str ": the improved version of the text";
    str "- " ++ quoted "changes" ++ str ": array of changes made (max 5)";
    [];
    str "Example output:";
    str "{";
    str "  " ++ quoted "improved" ++ str ": " ++ quoted "The improved text here..." ++ str ",";
    str "  " ++ quoted "changes" ++ str ": [" ++ quoted "Fixed grammar in sentence 2"
      ++ str ", " ++ quoted "Improved clarity" ++ str ", "
      ++ quoted "Added transition words" ++ str "]";
    str "}" ].

Definition changeTone_systemPrompt (targetTone : jsstring) : jsstring :=
  lines
  [ str "You are a writing assistant. Rewrite the given text in a " ++ targetTone ++ str " tone.";
    [];
    str "Rules:";
    str "- Keep the same meaning and information";
    str "- Adjust vocabulary and sentence structure for the " ++ targetTone ++ str " tone";
    str "- Return ONLY the rewritten text" ].

Definition continueWriting_systemPrompt (sentences : Z) : jsstring :=
  lines
  [ str "You are a writing assistant. Continue the given text naturally.";
    [];
    str "Rules:";
    str "- Add approximately " ++ number_toString sentences ++ str " more sentences";
    str "- Match the existing writing style and tone";
    str "- Continue the thought or topic logically";
    str "- Return ONLY the continuation (not the original text)" ].

Definition grammarCheck_systemPrompt : jsstring :=
  lines
  [ str "You are a grammar and spelling checker. Analyze the text for errors.";
    [];
    str "Return a JSON object with:";
    str "- " ++ quoted "corrected" ++ str ": the corrected text";
    str "- " ++ quoted "errors" ++ str ": array of errors found, each with:";
    str "  - " ++ quoted "original" ++ str ": the incorrect text";
    str "  - " ++ quoted "correction" ++ str ": the fix";
    str "  - " ++ quoted "type" ++ str ": " ++ quoted "grammar" ++ str " | "
      ++ quoted "spelling" ++ str " | " ++ quoted "punctuation" ++ str " | "
      ++ quoted "style";
    [];
    str "If no errors found, return empty errors array.";
    [];
    str "Example:";
    str "{";
    str "  " ++ quoted "corrected" ++ str ": " ++ quoted "The cat sat on the mat." ++ str ",";
    str "  " ++ quoted "errors" ++ str ": [{" ++ quoted "original" ++ str ": "
      ++ quoted "sitted" ++ str ", " ++ quoted "correction" ++ str ": " ++ quoted "sat"
      ++ str ", " ++ quoted "type" ++ str ": " ++ quoted "grammar" ++ str "}]";
    str "}" ].

Definition categories : list jsstring :=
  [ str "Technology"; str "Programming"; str "Web Development";
    str "Mobile Development"; str "Data Science"; str "AI/Machine Learning";
    str "DevOps"; str "Cybersecurity"; str "Business"; str "Marketing";
    str "Design"; str "Lifestyle"; str "Travel"; str "Food"; str "Health";
    str "Education"; str "Finance"; str "Entertainment"; str "Sports";
    str "Other" ].

Definition getCategory_systemPrompt : jsstring :=
  lines
  [ str "You are a content classifier. Classify the given content into ONE of these categories:";
    join (str ", ") categories;
    [];
    str "Rules:";
    str "- Return ONLY the category name, nothing else";
    str "- Choose the most relevant category";
    str "- If unsure, use " ++ quoted "Other" ].

Definition getCategory_userPrompt (content : jsstring) : jsstring :=
  str "Classify this content:" ++ [nl; nl] ++ substring0 2000 content.

(** *** Operations *)

(** [/\[.*\]/s] and [/\{[\s\S]*\}/] *)
Definition re_json_array : RegExp :=
  {| re_source := RSeq (RLit (str "[")) (RSeq (RStar CDot) (RLit (str "]")));
     re_flags := flags_s |}.

Definition re_json_object : RegExp :=
  {| re_source := RSeq (RLit (str "{")) (RSeq (RStar CAll) (RLit (str "}")));
     re_flags := flags_none |}.

(** [JSON.parse] as a computation that may throw. *)
Definition JSON_parse_M (s : jsstring) : M json :=
  match JSON_parse s with
  | Some v => ret v
  | None => throw (SyntaxError (str "Unexpected token in JSON"))
  end.

(** [Array.prototype.map] with a callback that may throw. *)
Fixpoint Array_map {A B : Type} (f : A -> M B) (a : list A) : M (list B) :=
  match a with
  | [] => ret []
  | x :: a' => y <- f x ;; ys <- Array_map f a' ;; ret (y :: ys)
  end.

(** [v.slice(0, e)]: a method of arrays (and of strings, which a value
    parsed from a bracketed span never is). *)
Definition Array_slice0 (v : json) (e : Z) : M (list json) :=
  match v with
  | JArray a => ret (slice0 a e)
  | _ => throw (TypeError (str "slice is not a function"))
  end.

(** [tag.toLowerCase().trim()]: only a string has [toLowerCase]. *)
Definition normalize_tag (tag : json) : M jsstring :=
  match tag with
  | JString s => ret (trim (toLowerCase s))
  | _ => throw (TypeError (str "tag.toLowerCase is not a function"))
  end.

Definition generateTags (content : jsstring) (maxTags : Z) : M (list jsstring) :=
  let systemPrompt := generateTags_systemPrompt maxTags in
  let userPrompt := generateTags_userPrompt content in
  try
    (response <- makeCompletion systemPrompt userPrompt MODELS.FAST ;;
     match String_match response re_json_array with
     | Some jsonMatch =>
         tags <- JSON_parse_M jsonMatch ;;
         sliced <- Array_slice0 tags maxTags ;;
         Array_map normalize_tag sliced
     | None => ret []
     end)
  catch (fun error => ret []).

Definition generateSummary (content length : jsstring) : M jsstring :=
  makeCompletion (generateSummary_systemPrompt length)
                 (generateSummary_userPrompt content) MODELS.FAST.

Definition generateTitles (content : jsstring) (count : Z) : M (list json) :=
  let systemPrompt := generateTitles_systemPrompt count in
  let userPrompt := generateTitles_userPrompt content count in
  try
    (response <- makeCompletion systemPrompt userPrompt MODELS.FAST ;;
     match String_match response re_json_array with
     | Some jsonMatch =>
         titles <- JSON_parse_M jsonMatch ;;
         Array_slice0 titles count
     | None => ret []
     end)
  catch (fun error => ret []).

Definition expandText (text tone : jsstring) : M jsstring :=
  makeCompletion (expandText_systemPrompt tone) text MODELS.BALANCED.

Definition improveText_default (text : jsstring) : json :=
  JObject [ (str "improved", JString text); (str "changes", JArray []) ].

Definition improveText (text : jsstring) : M json :=
  try
    (response <- makeCompletion improveText_systemPrompt text MODELS.BALANCED ;;
     match String_match response re_json_object with
     | Some jsonMatch => JSON_parse_M jsonMatch
     | None => ret (improveText_default text)
     end)
  catch (fun error => ret (improveText_default text)).

Definition changeTone (text targetTone : jsstring) : M jsstring :=
  makeCompletion (changeTone_systemPrompt targetTone) text MODELS.FAST.

Definition continueWriting (text : jsstring) (sentences : Z) : M jsstring :=
  makeCompletion (continueWriting_systemPrompt sentences) text MODELS.BALANCED.

Definition grammarCheck_default (text : jsstring) : json :=
  JObject [ (str "corrected", JString text); (str "errors", JArray []) ].

Definition grammarCheck (text : jsstring) : M json :=
  try
    (response <- makeCompletion grammarCheck_systemPrompt text MODELS.FAST ;;
     match String_match response re_json_object with
     | Some jsonMatch => JSON_parse_M jsonMatch
     | None => ret (grammarCheck_default text)
     end)
  catch (fun error => ret (grammarCheck_default text)).

(** [categories.find(c => c.toLowerCase() === category.toLowerCase())] *)
Definition find_category (category : jsstring) : option jsstring :=
  find (fun c => streqb (toLowerCase c) (toLowerCase category)) categories.

Definition getCategory (content : jsstring) : M jsstring :=
  let systemPrompt := getCategory_systemPrompt in
  let userPrompt := getCategory_userPrompt content in
  try
    (response <- makeCompletion systemPrompt userPrompt MODELS.FAST ;;
     let category := trim response in
     let match_ := find_category category in
     ret (match match_ with Some c => c | None => str "Other" end))
  catch (fun error => ret (str "Other")).

(** ** Worlds for concrete runs *)

(** A provider that answers its n-th request with the n-th outcome of a
    script, and rejects once the script is used up. *)
Definition scripted (script : list Outcome) : World :=
  {| groq := fun history _ => nth (length history) script (Rejected None None);
     calls := [] |}.

(** A provider that resolves every request to the same completion text. *)
Definition answering (text : jsstring) : World :=
  {| groq := fun _ _ => Resolved (Some text); calls := [] |}.

(** The world after the requests [reqs] have been issued. *)
Definition issue (w : World) (reqs : list Request) : World :=
  {| groq := groq w; calls := calls w ++ reqs |}.

(** ** Notions used to state the properties *)

(** The language of a regular expression: the texts it matches exactly. *)
Inductive lang (fl : flags) : regex -> jsstring -> Prop :=
| lang_lit p s :
    Forall2 (fun x c => char_matches fl x c = true) p s ->
    lang fl (RLit p) s
| lang_star cls s :
    Forall (fun c => class_accepts fl cls c = true) s ->
    lang fl (RStar cls) s
| lang_seq r1 r2 s1 s2 :
    lang fl r1 s1 -> lang fl r2 s2 -> lang fl (RSeq r1 r2) (s1 ++ s2)
| lang_alt_l r1 r2 s : lang fl r1 s -> lang fl (RAlt r1 r2) s
| lang_alt_r r1 r2 s : lang fl r2 s -> lang fl (RAlt r1 r2) s.

(** The pattern matches somewhere in the text. *)
Definition occurs (p : RegExp) (s : jsstring) : Prop :=
  exists pre mid post,
    s = pre ++ mid ++ post /\ lang (re_flags p) (re_source p) mid.

(** [s] holds an [o] and, somewhere after it, a [c]. *)
Definition has_span (o c : char) (s : jsstring) : Prop :=
  exists pre mid post, s = pre ++ [o] ++ mid ++ [c] ++ post.

(** [span] runs from the first [o] of [s] through the last [c] of [s]. *)
Definition greedy_span (o c : char) (s span : jsstring) : Prop :=
  exists pre mid post,
    s = pre ++ [o] ++ mid ++ [c] ++ post /\
    ~ In o pre /\ ~ In c post /\ span = [o] ++ mid ++ [c].

Definition lbracket : char := 91.
Definition rbracket : char := 93.
Definition lbrace : char := 123.
Definition rbrace : char := 125.

Definition is_JString (v : json) : bool :=
  match v with JString _ => true | _ => false end.

Definition is_JObject (v : json) : bool :=
  match v with JObject _ => true | _ => false end.

(** The result shapes the documentation of the two object operations
    declares: [{ improved: string, changes: string[] }] and
    [{ corrected: string, errors: Array<{original, correction, type}> }]. *)
Definition has_string_field (v : json) (key : jsstring) : bool :=
  match get_field v key with
  | Some (JString _) => true
  | _ => false
  end.

Definition has_array_field (v : json) (key : jsstring) (elem : json -> bool) : bool :=
  match get_field v key with
  | Some (JArray a) => forallb elem a
  | _ => false
  end.

Definition conforms_improved (v : json) : bool :=
  has_string_field v (str "improved")
  && has_array_field v (str "changes") is_JString.

Definition is_error_entry (v : json) : bool :=
  match get_field v (str "original"), get_field v (str "correction"),
        get_field v (str "type") with
  | Some _, Some _, Some _ => true
  | _, _, _ => false
  end.

Definition conforms_corrected (v : json) : bool :=
  has_string_field v (str "corrected")
  && has_array_field v (str "errors") is_error_entry.

(** The first request issued between the worlds [w] and [w']. *)
Definition first_request (w w' : World) : option Request :=
  nth_error (calls w') (length (calls w)).

(** The span of [response] from its first '{' through its last '}' is
    missing, or is not JSON. *)
Definition no_parseable_object (response : jsstring) : Prop :=
  ~ has_span lbrace rbrace response \/
  exists span, greedy_span lbrace rbrace response span /\ JSON_parse span = None.

(** A parse that has not run out of fuel and, when it succeeds, has
    consumed some text. *)
Definition progresses (r : presult) (s : jsstring) : Prop :=
  r <> OutOfFuel /\
  forall v rest, r = Parsed v rest -> (length rest < length s)%nat.

(** ** Completions used in the examples *)

Definition example_tags_completion : jsstring :=
  str "Here are tags: [" ++ quoted "react" ++ str ", " ++ quoted "Node.js"
    ++ str ", " ++ quoted "Web-Dev" ++ str "]".



Definition malformed_object_completion : jsstring :=
  str "Sure: {" ++ quoted "improved" ++ str ": " ++ quoted "Better text"
    ++ str ", " ++ quoted "changes" ++ str ": [}".

Definition unshaped_improve_completion : jsstring :=
  str "{" ++ quoted "improved" ++ str ": 42}".

Definition unshaped_grammar_completion : jsstring :=
  str "{" ++ quoted "corrected" ++ str ": " ++ quoted "Fine." ++ str ", "
    ++ quoted "errors" ++ str ": [" ++ quoted "typo" ++ str "]}".


(** ** routes/ai.js

    The handlers of the AI routes, after the authentication middleware.  A
    body field has the type the route documents (a string, or a number,
    which is an integer here) and may be missing ([None]).  A handler is a
    computation that yields the response it sends; [Throw] stands for a
    handler whose promise is rejected before any response is sent. *)

(** [isAvailable]: [!!process.env.GROQ_API_KEY] *)
Definition isAvailable (GROQ_API_KEY : option jsstring) : bool :=
  match GROQ_API_KEY with
  | Some (_ :: _) => true
  | _ => false
  end.

(** The names aiService.js exports.  The statement
    [module.exports.ContentModerationError = ContentModerationError] adds a
    name to the exports object of that moment; the final
    [module.exports = { ... }] replaces that object by a new one. *)
Definition exports_set (exports : list string) (name : string) : list string :=
  name :: exports.

Definition aiService_exports : list string :=
  let module_exports := [] in
  let module_exports := exports_set module_exports "ContentModerationError"%string in
  let module_exports :=
    [ "generateTags"; "generateSummary"; "generateTitles"; "expandText";
      "improveText"; "changeTone"; "continueWriting"; "grammarCheck";
      "getCategory"; "isAvailable"; "MODELS" ]%string in
  module_exports.

(** [const { ContentModerationError } = aiService]: is the binding defined? *)
Definition routes_ContentModerationError : bool :=
  existsb (String.eqb "ContentModerationError") aiService_exports.

Record Response := { status : Z; body : json }.

(** [res.json(b)] and [res.status(s).json(b)] *)
Definition res_json (b : json) : Response := {| status := 200; body := b |}.

Definition res_status_json (s : Z) (b : json) : Response :=
  {| status := s; body := b |}.

(** A length or a count, as a JSON number. *)
Definition jnumber (n : nat) : json := JNumber (number_toString (Z.of_nat n)).

Definition jinteger (n : Z) : json := JNumber (number_toString n).

Definition checkAIAvailable (GROQ_API_KEY : option jsstring) (next : M Response)
    : M Response :=
  if negb (isAvailable GROQ_API_KEY) then
    ret (res_status_json 503
           (JObject
              [ (str "success", JBool false);
                (str "message",
                 JString (str "AI service is not configured. Please add GROQ_API_KEY to environment variables.")) ]))
  else next.

(** [error instanceof ContentModerationError] throws a TypeError when the
    right-hand side is undefined; it is the first thing evaluated after
    the log line. *)
Definition handleAIError (error : exn) (defaultMessage : jsstring) : M Response :=
  if negb routes_ContentModerationError then
    throw (TypeError (str "Right-hand side of 'instanceof' is not an object"))
  else if instanceof_ContentModerationError error
          || opt_equals (error_code error) (str "CONTENT_MODERATED") then
    ret (res_status_json 422
           (JObject
              ([ (str "success", JBool false) ]
               ++ match error_message error with
                  | Some m => [ (str "message", JString m) ]
                  | None => []
                  end
               ++ [ (str "code", JString (str "CONTENT_MODERATED"));
                    (str "hint",
                     JString (str "The AI has safety filters that prevent generating certain types of content. Please ensure your content is appropriate for all audiences.")) ])))
  else if opt_equals (error_message error) (str "AI service temporarily unavailable") then
    ret (res_status_json 503
           (JObject
              [ (str "success", JBool false);
                (str "message",
                 JString (str "AI service is temporarily unavailable. Please try again later."));
                (str "code", JString (str "SERVICE_UNAVAILABLE")) ]))
  else
    ret (res_status_json 500
           (JObject
              ([ (str "success", JBool false);
                 (str "message",
                  JString match defaultMessage with
                          | [] => str "An error occurred while processing your request"
                          | _ :: _ => defaultMessage
                          end) ]
               ++ match error_message error with
                  | Some m => [ (str "error", JString m) ]
                  | None => []
                  end))).

(** [!x || x.trim().length === 0] *)
Definition missing_or_blank (x : option jsstring) : bool :=
  match x with
  | None => true
  | Some [] => true
  | Some s => (length (trim s) =? 0)%nat
  end.

(** A destructuring default, [{ x = d } = req.body]. *)
Definition default_to {A : Type} (d : A) (x : option A) : A :=
  match x with
  | Some a => a
  | None => d
  end.

Definition bad_request (message : jsstring) : Response :=
  res_status_json 400
    (JObject [ (str "success", JBool false); (str "message", JString message) ]).

(** [list.includes(x)] on an array of strings. *)
Definition Array_includes (list : list jsstring) (x : jsstring) : bool :=
  existsb (streqb x) list.

Definition post_tags (content : option jsstring) (maxTags : option Z) : M Response :=
  try
    (let maxTags := default_to 5%Z maxTags in
     if missing_or_blank content then
       ret (bad_request (str "Content is required for tag generation"))
     else
       let content := or_empty content in
       if (length content <? 50)%nat then
         ret (bad_request (str "Content must be at least 50 characters for accurate tagging"))
       else
         tags <- generateTags content (Z.min maxTags 10) ;;
         ret (res_json
                (JObject
                   [ (str "success", JBool true);
                     (str "tags", JArray (List.map JString tags));
                     (str "count", jnumber (length tags)) ])))
  catch (fun error => handleAIError error (str "Failed to generate tags")).

Definition post_summary (content length : option jsstring) : M Response :=
  try
    (let length := default_to (str "short") length in
     if missing_or_blank content then
       ret (bad_request (str "Content is required for summarization"))
     else
       let content := or_empty content in
       if negb (Array_includes [str "short"; str "medium"; str "long"] length) then
         ret (bad_request
                (str "Length must be " ++ quoted "short" ++ str ", "
                   ++ quoted "medium" ++ str ", or " ++ quoted "long"))
       else
         summary <- generateSummary content length ;;
         ret (res_json
                (JObject
                   [ (str "success", JBool true);
                     (str "summary", JString summary);
                     (str "length", JString length) ])))
  catch (fun error => handleAIError error (str "Failed to generate summary")).

Definition post_titles (content : option jsstring) (count : option Z) : M Response :=
  try
    (let count := default_to 5%Z count in
     if missing_or_blank content then
       ret (bad_request (str "Content is required for title generation"))
     else
       let content := or_empty content in
       titles <- generateTitles content (Z.min count 10) ;;
       ret (res_json
              (JObject
                 [ (str "success", JBool true);
                   (str "titles", JArray titles);
                   (str "count", jnumber (length titles)) ])))
  catch (fun error => handleAIError error (str "Failed to generate titles")).

Definition post_expand (text tone : option jsstring) : M Response :=
  try
    (let tone := default_to (str "professional") tone in
     if missing_or_blank text then
       ret (bad_request (str "Text is required for expansion"))
     else
       let text := or_empty text in
       if (2000 <? length text)%nat then
         ret (bad_request (str "Text must be under 2000 characters for expansion"))
       else
         expanded <- expandText text tone ;;
         ret (res_json
                (JObject
                   [ (str "success", JBool true);
                     (str "expanded", JString expanded);
                     (str "originalLength", jnumber (length text));
                     (str "expandedLength", jnumber (length expanded)) ])))
  catch (fun error => handleAIError error (str "Failed to expand text")).

(** [...v] inside an object literal: the own enumerable properties of [v]. *)
Definition spread (v : json) : list (jsstring * json) :=
  match v with
  | JObject ms => ms
  | JArray a =>
      List.map (fun iv => (number_toString (Z.of_nat (fst iv)), snd iv))
               (combine (seq 0 (length a)) a)
  | JString s =>
      List.map (fun ic => (number_toString (Z.of_nat (fst ic)), JString [snd ic]))
               (combine (seq 0 (length s)) s)
  | _ => []
  end.

Definition post_improve (text : option jsstring) : M Response :=
  try
    (if missing_or_blank text then
       ret (bad_request (str "Text is required for improvement"))
     else
       let text := or_empty text in
       if (5000 <? length text)%nat then
         ret (bad_request (str "Text must be under 5000 characters"))
       else
         result <- improveText text ;;
         ret (res_json (JObject ((str "success", JBool true) :: spread result))))
  catch (fun error => handleAIError error (str "Failed to improve text")).

Definition validTones : list jsstring :=
  [ str "professional"; str "casual"; str "academic"; str "friendly"; str "formal" ].

Definition post_tone (text targetTone : option jsstring) : M Response :=
  try
    (if missing_or_blank text then ret (bad_request (str "Text is required"))
     else
       let text := or_empty text in
       if match targetTone with
          | None => true
          | Some [] => true
          | Some tone => negb (Array_includes validTones tone)
          end
       then
         ret (bad_request (str "Target tone must be one of: " ++ join (str ", ") validTones))
       else
         let targetTone := or_empty targetTone in
         if (3000 <? length text)%nat then
           ret (bad_request (str "Text must be under 3000 characters"))
         else
           rewritten <- changeTone text targetTone ;;
           ret (res_json
                  (JObject
                     [ (str "success", JBool true);
                       (str "rewritten", JString rewritten);
                       (str "targetTone", JString targetTone) ])))
  catch (fun error => handleAIError error (str "Failed to change tone")).

Definition post_continue (text : option jsstring) (sentences : option Z) : M Response :=
  try
    (let sentences := default_to 3%Z sentences in
     if missing_or_blank text then
       ret (bad_request (str "Text is required for continuation"))
     else
       let text := or_empty text in
       if (length text <? 20)%nat then
         ret (bad_request (str "Please provide at least 20 characters for context"))
       else
         continuation <- continueWriting text (Z.min sentences 10) ;;
         ret (res_json
                (JObject
                   [ (str "success", JBool true);
                     (str "continuation", JString continuation);
                     (str "sentences", jinteger (Z.min sentences 10)) ])))
  catch (fun error => handleAIError error (str "Failed to continue writing")).

(** [result.errors?.length || 0]: an array or a string has a length, an
    object has one when it has a member of that name, and a missing or
    falsy length gives 0 (a number is passed on as it is: when it is falsy
    it is 0). *)
Definition errorCount (result : json) : json :=
  match get_field result (str "errors") with
  | Some (JArray a) => jnumber (length a)
  | Some (JString s) => jnumber (length s)
  | Some (JObject ms) =>
      match assoc_last (str "length") ms with
      | None => jnumber 0
      | Some JNull => jnumber 0
      | Some (JBool false) => jnumber 0
      | Some (JString []) => jnumber 0
      | Some v => v
      end
  | _ => jnumber 0
  end.

Definition post_grammar (text : option jsstring) : M Response :=
  try
    (if missing_or_blank text then
       ret (bad_request (str "Text is required for grammar check"))
     else
       let text := or_empty text in
       if (5000 <? length text)%nat then
         ret (bad_request (str "Text must be under 5000 characters"))
       else
         result <- grammarCheck text ;;
         ret (res_json
                (JObject
                   ((str "success", JBool true) :: spread result
                    ++ [ (str "errorCount", errorCount result) ]))))
  catch (fun error => handleAIError error (str "Failed to check grammar")).

Definition post_category (content : option jsstring) : M Response :=
  try
    (if missing_or_blank content then
       ret (bad_request (str "Content is required for classification"))
     else
       let content := or_empty content in
       category <- getCategory content ;;
       ret (res_json
              (JObject
                 [ (str "success", JBool true);
                   (str "category", JString category) ])))
  catch (fun error => handleAIError error (str "Failed to classify content")).

(** [Promise.all] over two promises.  Every operation awaited this way in
    the routes runs on the fast model: it issues its one provider call when
    it is started and none later, so the calls go out in the order in which
    the promises are created, whatever the order of the answers.  The result
    is rejected when one of the promises is. *)
Definition Promise_both {A B : Type} (a : M A) (b : M B) : M (A * B) :=
  fun w =>
    match a w with
    | (ra, w1) =>
        match b w1 with
        | (rb, w2) =>
            (match ra, rb with
             | Return x, Return y => Return (x, y)
             | Throw e, _ => Throw e
             | Return _, Throw e => Throw e
             end, w2)
        end
    end.

Definition post_analyze (content : option jsstring) : M Response :=
  try
    (if missing_or_blank content then
       ret (bad_request (str "Content is required for analysis"))
     else
       let content := or_empty content in
       if (length content <? 100)%nat then
         ret (bad_request (str "Content must be at least 100 characters for full analysis"))
       else
         results <- Promise_both (generateTags content 5)
                      (Promise_both (generateSummary content (str "short"))
                         (Promise_both (getCategory content)
                            (generateTitles content 3))) ;;
         let '(tags, (summary, (category, titles))) := results in
         ret (res_json
                (JObject
                   [ (str "success", JBool true);
                     (str "analysis",
                      JObject
                        [ (str "tags", JArray (List.map JString tags));
                          (str "summary", JString summary);
                          (str "category", JString category);
                          (str "titles", JArray titles) ]) ])))
  catch (fun error => handleAIError error (str "Failed to analyze content")).

(** ** routes/blogs.js: the AI fields of a new blog post

    The part of the handler of [POST /api/blogs] between the validation of
    the body and [Blog.create]: the values of [generatedTags],
    [generatedSummary], [generatedCategory] and [aiGenerated] that go into
    the new record.  [aiService_loaded] says whether
    [require('../services/aiService')] succeeded. *)

Record AiFields := {
  generatedTags : list jsstring;
  generatedSummary : option jsstring;
  generatedCategory : jsstring;
  aiGenerated : bool
}.

Definition blog_ai_fields (aiService_loaded : bool) (GROQ_API_KEY : option jsstring)
    (content : jsstring) (tags : option (list jsstring)) (autoTag : option bool)
    : M AiFields :=
  let autoTag := default_to true autoTag in
  let fields :=
    {| generatedTags := default_to [] tags;
       generatedSummary := None;
       generatedCategory := str "Other";
       aiGenerated := false |} in
  if autoTag && aiService_loaded && isAvailable GROQ_API_KEY
     && (100 <=? length content)%nat then
    try
      (results <- Promise_both
                    (match tags with
                     | Some (t :: ts) => ret (t :: ts)
                     | _ => generateTags content 5
                     end)
                    (Promise_both (generateSummary content (str "short"))
                                  (getCategory content)) ;;
       let '(aiTags, (aiSummary, aiCategory)) := results in
       ret {| generatedTags := aiTags;
              generatedSummary := Some aiSummary;
              generatedCategory := aiCategory;
              aiGenerated := true |})
    catch (fun aiError => ret fields)
  else ret fields.

(** The user prompt of a request: the content of its second message. *)
Definition userPrompt_of (request : Request) : jsstring :=
  content (nth 1 (messages request) {| role := []; content := [] |}).


Definition sample_content : jsstring :=
  str "React and Node.js make a fine pair for building web applications today.".

Definition analysis_content : jsstring :=
  sample_content ++ str " This sentence brings the content past one hundred characters.".

(* ================================================================== *)
(** * Part II. Properties *)
(* ================================================================== *)

(** ** Strings *)

Lemma streqb_eq (a b : jsstring) : streqb a b = true <-> a = b.
Proof.
  revert b; induction a as [|x a IH]; intros [|y b]; simpl; split;
    try congruence; try reflexivity.
  - intros H. apply andb_true_iff in H as [Hx Hab].
    apply N.eqb_eq in Hx. apply IH in Hab. congruence.
  - intros H. injection H as -> ->.
    rewrite N.eqb_refl. simpl. now apply IH.
Qed.

Lemma streqb_neq (a b : jsstring) : streqb a b = false <-> a <> b.
Proof.
  split.
  - intros H E. apply streqb_eq in E. congruence.
  - intros H. destruct (streqb a b) eqn:E; [|reflexivity].
    apply streqb_eq in E. contradiction.
Qed.




(** ** The Completion Invoker *)

Section Invoker.

Variables systemPrompt userPrompt model : jsstring.
Variable w : World.

Let primary := completion_request systemPrompt userPrompt model.
Let fallback := completion_request systemPrompt userPrompt FALLBACK_MODEL.

(** The primary call resolved to a text that is not a refusal: it is the
    result, after one call. *)
Lemma makeCompletion_primary_ok (text : option jsstring) :
  groq w (calls w) primary = Resolved text ->
  isContentRefusal (or_empty text) = false ->
  makeCompletion systemPrompt userPrompt model w
  = (Return (or_empty text), issue w [primary]).
Proof.
  intros Hg Hr.
  unfold makeCompletion, try_catch, bind, chat_completions_create.
  fold primary. rewrite Hg, Hr. reflexivity.
Qed.

(** The primary call resolved to a refusal: one call, ContentModerationError. *)
Lemma makeCompletion_primary_refusal (text : option jsstring) :
  groq w (calls w) primary = Resolved text ->
  isContentRefusal (or_empty text) = true ->
  makeCompletion systemPrompt userPrompt model w
  = (Throw (ContentModerationError refusal_message), issue w [primary]).
Proof.
  intros Hg Hr.
  unfold makeCompletion, try_catch, bind, chat_completions_create.
  fold primary. rewrite Hg, Hr. reflexivity.
Qed.

(** The provider rejected the primary call on content grounds. *)
Lemma makeCompletion_primary_filtered (message code : option jsstring) :
  groq w (calls w) primary = Rejected message code ->
  is_api_content_filter message code = true ->
  makeCompletion systemPrompt userPrompt model w
  = (Throw (ContentModerationError filtered_message), issue w [primary]).
Proof.
  intros Hg Hf.
  unfold makeCompletion, try_catch, bind, chat_completions_create.
  fold primary. rewrite Hg. simpl. rewrite Hf. reflexivity.
Qed.

(** The primary call failed and the primary model is the fallback model. *)
Lemma makeCompletion_no_retry (message code : option jsstring) :
  groq w (calls w) primary = Rejected message code ->
  is_api_content_filter message code = false ->
  model = FALLBACK_MODEL ->
  makeCompletion systemPrompt userPrompt model w
  = (Throw (Error unavailable_message), issue w [primary]).
Proof.
  intros Hg Hf Hm. apply streqb_eq in Hm.
  unfold makeCompletion, try_catch, bind, chat_completions_create.
  fold primary. rewrite Hg. simpl. rewrite Hf, Hm. reflexivity.
Qed.

(** The primary call failed and the retry goes to the fallback model. *)
Lemma makeCompletion_retry (message code : option jsstring) :
  groq w (calls w) primary = Rejected message code ->
  is_api_content_filter message code = false ->
  model <> FALLBACK_MODEL ->
  makeCompletion systemPrompt userPrompt model w
  = match groq w (calls w ++ [primary]) fallback with
    | Resolved text =>
        if isContentRefusal (or_empty text)
        then (Throw (ContentModerationError refusal_message),
              issue w [primary; fallback])
        else (Return (or_empty text), issue w [primary; fallback])
    | Rejected _ _ =>
        (Throw (Error unavailable_message), issue w [primary; fallback])
    end.
Proof.
  intros Hg Hf Hm. apply streqb_neq in Hm.
  unfold makeCompletion, try_catch, bind, chat_completions_create.
  fold primary. rewrite Hg. simpl. rewrite Hf, Hm. simpl.
  fold fallback. unfold issue.
  destruct (groq w (calls w ++ [primary]) fallback) as [text|m c]; simpl.
  - destruct (isContentRefusal (or_empty text)); simpl;
      rewrite <- app_assoc; reflexivity.
  - rewrite <- app_assoc; reflexivity.
Qed.

(** Every run issues the primary call and at most the fallback call. *)
Lemma makeCompletion_calls :
  snd (makeCompletion systemPrompt userPrompt model w) = issue w [primary] \/
  snd (makeCompletion systemPrompt userPrompt model w) = issue w [primary; fallback].
Proof.
  destruct (groq w (calls w) primary) as [text|message code] eqn:Hg.
  - destruct (isContentRefusal (or_empty text)) eqn:Hr.
    + rewrite (makeCompletion_primary_refusal _ Hg Hr). now left.
    + rewrite (makeCompletion_primary_ok _ Hg Hr). now left.
  - destruct (is_api_content_filter message code) eqn:Hf.
    + rewrite (makeCompletion_primary_filtered _ _ Hg Hf). now left.
    + destruct (streqb model FALLBACK_MODEL) eqn:Hm.
      * apply streqb_eq in Hm.
        rewrite (makeCompletion_no_retry _ _ Hg Hf Hm). now left.
      * apply streqb_neq in Hm.
        rewrite (makeCompletion_retry _ _ Hg Hf Hm). right.
        destruct (groq w (calls w ++ [primary]) fallback) as [text|m c];
          [destruct (isContentRefusal (or_empty text))|]; reflexivity.
Qed.

(** What [makeCompletion] raises is a ContentModerationError or the plain
    error "AI service temporarily unavailable". *)
Lemma makeCompletion_throws (e : exn) :
  fst (makeCompletion systemPrompt userPrompt model w) = Throw e ->
  e = ContentModerationError refusal_message \/
  e = ContentModerationError filtered_message \/
  e = Error unavailable_message.
Proof.
  destruct (groq w (calls w) primary) as [text|message code] eqn:Hg.
  - destruct (isContentRefusal (or_empty text)) eqn:Hr.
    + rewrite (makeCompletion_primary_refusal _ Hg Hr). simpl. intuition congruence.
    + rewrite (makeCompletion_primary_ok _ Hg Hr). simpl. discriminate.
  - destruct (is_api_content_filter message code) eqn:Hf.
    + rewrite (makeCompletion_primary_filtered _ _ Hg Hf). simpl. intuition congruence.
    + destruct (streqb model FALLBACK_MODEL) eqn:Hm.
      * apply streqb_eq in Hm.
        rewrite (makeCompletion_no_retry _ _ Hg Hf Hm). simpl. intuition congruence.
      * apply streqb_neq in Hm.
        rewrite (makeCompletion_retry _ _ Hg Hf Hm).
        destruct (groq w (calls w ++ [primary]) fallback) as [text|m c];
          [destruct (isContentRefusal (or_empty text))|]; simpl;
          intuition congruence.
Qed.


End Invoker.

Lemma isContentRefusal_short (response : jsstring) :
  (length response < 10)%nat -> isContentRefusal response = false.
Proof.
  intros H. unfold isContentRefusal. destruct response as [|c r]; [reflexivity|].
  apply Nat.ltb_lt in H. now rewrite H.
Qed.

(** C2. An invocation of [makeCompletion] issues the primary call and at
    most one fallback call, hence at most two provider calls; when the text
    of the primary completion is classified as a refusal, the primary call
    is the only one and the invocation raises ContentModerationError. *)
Theorem makeCompletion_call_bound
    (systemPrompt userPrompt model : jsstring) (w : World) :
  let run := makeCompletion systemPrompt userPrompt model w in
  let primary := completion_request systemPrompt userPrompt model in
  let fallback := completion_request systemPrompt userPrompt FALLBACK_MODEL in
  (calls (snd run) = calls w ++ [primary] \/
   calls (snd run) = calls w ++ [primary; fallback])
  /\ (length (calls w) + 1 <= length (calls (snd run)) <= length (calls w) + 2)%nat
  /\ (forall text,
        groq w (calls w) primary = Resolved text ->
        isContentRefusal (or_empty text) = true ->
        fst run = Throw (ContentModerationError refusal_message)
        /\ calls (snd run) = calls w ++ [primary]).
Proof.
  intros run primary fallback.
  assert (Hc : calls (snd run) = calls w ++ [primary] \/
               calls (snd run) = calls w ++ [primary; fallback]).
  { destruct (makeCompletion_calls systemPrompt userPrompt model w) as [H|H];
      unfold run; rewrite H; [left|right]; reflexivity. }
  split; [exact Hc|]. split.
  - destruct Hc as [H|H]; rewrite H, length_app; simpl; lia.
  - intros text Hg Hr. unfold run.
    rewrite (makeCompletion_primary_refusal _ _ _ _ _ Hg Hr). now split.
Qed.

Lemma makeCompletion_call_bound_witness :
  let w := answering (str "I cannot help with that request.") in
  fst (makeCompletion (str "system") (str "user") MODELS.BALANCED w)
  = Throw (ContentModerationError refusal_message)
  /\ calls (snd (makeCompletion (str "system") (str "user") MODELS.BALANCED w))
     = [completion_request (str "system") (str "user") MODELS.BALANCED].
Proof.
  intros w.
  destruct (makeCompletion_call_bound (str "system") (str "user") MODELS.BALANCED w)
    as (_ & _ & H).
  apply (H (Some (str "I cannot help with that request."))); reflexivity.
Defined.

(** C3. When the primary call fails for a reason that is not content
    filtering and the primary model is not the fallback model, exactly one
    more call is issued: to 'llama-3.1-8b-instant', with the messages of the
    primary call, temperature 0.7 and max_tokens 1024; if that call fails
    too, the error 'AI service temporarily unavailable' is raised.  When the
    primary model is the fallback model, no retry is issued and the same
    error is raised. *)
Theorem makeCompletion_fallback
    (systemPrompt userPrompt model : jsstring) (w : World)
    (message code : option jsstring) :
  let run := makeCompletion systemPrompt userPrompt model w in
  let primary := completion_request systemPrompt userPrompt model in
  let retry := {| messages := messages primary;
                  model := str "llama-3.1-8b-instant";
                  temperature := 7 # 10;
                  max_tokens := 1024 |} in
  groq w (calls w) primary = Rejected message code ->
  is_api_content_filter message code = false ->
  temperature primary = 7 # 10 /\ max_tokens primary = 1024%Z
  /\ (model <> FALLBACK_MODEL ->
        calls (snd run) = calls w ++ [primary; retry]
        /\ (forall message' code',
              groq w (calls w ++ [primary]) retry = Rejected message' code' ->
              fst run = Throw (Error (str "AI service temporarily unavailable"))))
  /\ (model = FALLBACK_MODEL ->
        calls (snd run) = calls w ++ [primary]
        /\ fst run = Throw (Error (str "AI service temporarily unavailable"))).
Proof.
  intros run primary retry Hg Hf.
  split; [reflexivity|]. split; [reflexivity|]. split.
  - intros Hm. unfold run.
    rewrite (makeCompletion_retry _ _ _ _ _ _ Hg Hf Hm).
    change (completion_request systemPrompt userPrompt FALLBACK_MODEL) with retry.
    fold primary. split.
    + destruct (groq w (calls w ++ [primary]) retry) as [text|m c];
        [destruct (isContentRefusal (or_empty text))|]; reflexivity.
    + intros m' c' Hg'. rewrite Hg'. reflexivity.
  - intros Hm. unfold run.
    rewrite (makeCompletion_no_retry _ _ _ _ _ _ Hg Hf Hm). now split.
Qed.

Lemma makeCompletion_fallback_witness :
  let w := scripted [Rejected (Some (str "rate limit")) None;
                     Rejected (Some (str "timeout")) None] in
  let run := makeCompletion (str "system") (str "user") MODELS.BALANCED w in
  calls (snd run)
  = [completion_request (str "system") (str "user") MODELS.BALANCED;
     completion_request (str "system") (str "user") (str "llama-3.1-8b-instant")]
  /\ fst run = Throw (Error (str "AI service temporarily unavailable")).
Proof.
  intros w run.
  destruct (makeCompletion_fallback (str "system") (str "user") MODELS.BALANCED w
              (Some (str "rate limit")) None eq_refl eq_refl)
    as (_ & _ & H & _).
  destruct H as [Hc Ht]; [discriminate|].
  split; [exact Hc|].
  apply (Ht (Some (str "timeout")) None). reflexivity.
Defined.

(** C10. When the provider resolves with a missing or empty completion
    text, [makeCompletion] returns the empty string after that one call, and
    so does summarization; a completion shorter than 10 characters is never
    classified as a refusal, 'nsfw' included. *)
Theorem empty_and_short_completions :
  (forall systemPrompt userPrompt model w text,
     groq w (calls w) (completion_request systemPrompt userPrompt model)
       = Resolved text ->
     text = None \/ text = Some [] ->
     makeCompletion systemPrompt userPrompt model w
     = (Return [], issue w [completion_request systemPrompt userPrompt model]))
  /\ (forall content length w text,
        groq w (calls w)
          (completion_request (generateSummary_systemPrompt length)
             (generateSummary_userPrompt content) MODELS.FAST) = Resolved text ->
        text = None \/ text = Some [] ->
        fst (generateSummary content length w) = Return [])
  /\ (forall response,
        (length response < 10)%nat -> isContentRefusal response = false)
  /\ isContentRefusal (str "nsfw") = false.
Proof.
  assert (H1 : forall systemPrompt userPrompt model w text,
     groq w (calls w) (completion_request systemPrompt userPrompt model)
       = Resolved text ->
     text = None \/ text = Some [] ->
     makeCompletion systemPrompt userPrompt model w
     = (Return [], issue w [completion_request systemPrompt userPrompt model])).
  { intros sp up m w text Hg Ht.
    assert (He : or_empty text = []) by (destruct Ht; subst; reflexivity).
    rewrite <- He. apply makeCompletion_primary_ok; [exact Hg|].
    rewrite He. reflexivity. }
  split; [exact H1|]. split; [|split].
  - intros content len w text Hg Ht. unfold generateSummary.
    rewrite (H1 _ _ _ _ _ Hg Ht). reflexivity.
  - exact isContentRefusal_short.
  - reflexivity.
Qed.

Lemma empty_and_short_completions_witness :
  makeCompletion (str "system") (str "user") MODELS.FAST (scripted [Resolved None])
  = (Return [],
     issue (scripted [Resolved None])
       [completion_request (str "system") (str "user") MODELS.FAST])
  /\ isContentRefusal (str "explicit") = false.
Proof.
  destruct empty_and_short_completions as (H1 & _ & H3 & _).
  split.
  - apply (H1 (str "system") (str "user") MODELS.FAST (scripted [Resolved None]) None).
    + reflexivity.
    + left; reflexivity.
  - apply H3. simpl. lia.
Defined.

(** ** The matcher against the language of a regular expression *)

Section Matcher.

Variable fl : flags.

Lemma match_lit_sound (p s rest : jsstring) :
  match_lit fl p s = Some rest ->
  exists mid, s = mid ++ rest /\ Forall2 (fun x c => char_matches fl x c = true) p mid.
Proof.
  revert s; induction p as [|x p IH]; intros s H; simpl in H.
  - injection H as <-. exists []. split; [reflexivity|constructor].
  - destruct s as [|c s]; [discriminate|].
    destruct (char_matches fl x c) eqn:Hc; [|discriminate].
    destruct (IH _ H) as (mid & -> & HF).
    exists (c :: mid). split; [reflexivity|]. now constructor.
Qed.

Lemma match_lit_complete (p mid rest : jsstring) :
  Forall2 (fun x c => char_matches fl x c = true) p mid ->
  match_lit fl p (mid ++ rest) = Some rest.
Proof.
  induction 1 as [|x c p mid Hc _ IH]; simpl.
  - now destruct rest.
  - now rewrite Hc.
Qed.

Lemma match_star_sound (cls : cclass) (s : jsstring)
    (k : jsstring -> option jsstring) (x : jsstring) :
  match_star fl cls s k = Some x ->
  exists mid rest,
    s = mid ++ rest /\ Forall (fun c => class_accepts fl cls c = true) mid
    /\ k rest = Some x.
Proof.
  induction s as [|c s IH]; simpl; intros H.
  - exists [], []. auto.
  - destruct (class_accepts fl cls c) eqn:Hc.
    + destruct (match_star fl cls s k) as [r|] eqn:Hs.
      * injection H as ->. destruct (IH eq_refl) as (mid & rest & -> & HF & Hk).
        exists (c :: mid), rest. auto.
      * exists [], (c :: s). auto.
    + exists [], (c :: s). auto.
Qed.

Lemma match_star_complete (cls : cclass) (mid rest : jsstring)
    (k : jsstring -> option jsstring) (x : jsstring) :
  Forall (fun c => class_accepts fl cls c = true) mid ->
  k rest = Some x ->
  exists y, match_star fl cls (mid ++ rest) k = Some y.
Proof.
  intros HF Hk. induction HF as [|c mid Hc _ IH]; simpl.
  - destruct rest as [|c rest]; simpl; [eauto|].
    destruct (class_accepts fl cls c); [|eauto].
    destruct (match_star fl cls rest k); eauto.
  - rewrite Hc. destruct IH as (y & ->). eauto.
Qed.

Lemma matcher_sound (r : regex) :
  forall (s : jsstring) (k : jsstring -> option jsstring) (x : jsstring),
    matcher fl r s k = Some x ->
    exists mid rest, s = mid ++ rest /\ lang fl r mid /\ k rest = Some x.
Proof.
  induction r as [p|cls|r1 IH1 r2 IH2|r1 IH1 r2 IH2]; intros s k x H; simpl in H.
  - destruct (match_lit fl p s) as [rest|] eqn:Hl; [|discriminate].
    destruct (match_lit_sound _ _ _ Hl) as (mid & -> & HF).
    exists mid, rest. split; [reflexivity|]. split; [now constructor|exact H].
  - destruct (match_star_sound _ _ _ _ H) as (mid & rest & -> & HF & Hk).
    exists mid, rest. split; [reflexivity|]. split; [now constructor|exact Hk].
  - destruct (IH1 _ _ _ H) as (m1 & rest1 & -> & L1 & H2).
    destruct (IH2 _ _ _ H2) as (m2 & rest & -> & L2 & Hk).
    exists (m1 ++ m2), rest. rewrite <- app_assoc.
    split; [reflexivity|]. split; [now constructor|exact Hk].
  - destruct (matcher fl r1 s k) as [y|] eqn:H1.
    + injection H as ->. destruct (IH1 _ _ _ H1) as (mid & rest & -> & L & Hk).
      exists mid, rest. split; [reflexivity|]. split; [now apply lang_alt_l|exact Hk].
    + destruct (IH2 _ _ _ H) as (mid & rest & -> & L & Hk).
      exists mid, rest. split; [reflexivity|]. split; [now apply lang_alt_r|exact Hk].
Qed.

Lemma matcher_complete (r : regex) (mid : jsstring) :
  lang fl r mid ->
  forall (rest : jsstring) (k : jsstring -> option jsstring) (x : jsstring),
    k rest = Some x -> exists y, matcher fl r (mid ++ rest) k = Some y.
Proof.
  induction 1 as [p s HF|cls s HF|r1 r2 s1 s2 _ IH1 _ IH2|r1 r2 s _ IH|r1 r2 s _ IH];
    intros rest k x Hk; simpl.
  - rewrite (match_lit_complete _ _ rest HF). eauto.
  - eapply match_star_complete; eauto.
  - rewrite <- app_assoc.
    destruct (IH2 rest k x Hk) as (y & Hy).
    apply (IH1 (s2 ++ rest) (fun s' => matcher fl r2 s' k) y Hy).
  - destruct (IH rest k x Hk) as (y & ->). eauto.
  - destruct (matcher fl r1 (s ++ rest) k); eauto.
Qed.

Lemma match_here_sound (r : regex) (s m : jsstring) :
  match_here fl r s = Some m ->
  exists post, s = m ++ post /\ lang fl r m.
Proof.
  unfold match_here. destruct (matcher fl r s Some) as [rest|] eqn:H; [|discriminate].
  intros E; injection E as <-.
  destruct (matcher_sound _ _ _ _ H) as (mid & rest' & -> & L & Hk).
  injection Hk as ->. exists rest.
  rewrite length_app, Nat.add_sub, firstn_app, firstn_all, Nat.sub_diag.
  simpl. rewrite app_nil_r. auto.
Qed.

Lemma match_here_complete (r : regex) (mid post : jsstring) :
  lang fl r mid -> exists m, match_here fl r (mid ++ post) = Some m.
Proof.
  intros L. unfold match_here.
  destruct (matcher_complete _ _ L post Some _ eq_refl) as (y & ->). eauto.
Qed.

Lemma regex_exec_from_sound (r : regex) (s : jsstring) :
  forall (i j : nat) (m : jsstring),
    regex_exec_from fl r i s = Some (j, m) ->
    exists pre post, s = pre ++ m ++ post /\ lang fl r m.
Proof.
  induction s as [|c s IH]; intros i j m H; simpl in H.
  - destruct (match_here fl r []) as [m'|] eqn:Hm; [|discriminate].
    injection H as _ ->. destruct (match_here_sound _ _ _ Hm) as (post & E & L).
    exists [], post. auto.
  - destruct (match_here fl r (c :: s)) as [m'|] eqn:Hm.
    + injection H as _ ->. destruct (match_here_sound _ _ _ Hm) as (post & E & L).
      exists [], post. auto.
    + destruct (IH _ _ _ H) as (pre & post & -> & L).
      exists (c :: pre), post. auto.
Qed.

Lemma regex_exec_from_complete (r : regex) (pre mid post : jsstring) :
  lang fl r mid ->
  forall i, exists found, regex_exec_from fl r i (pre ++ mid ++ post) = Some found.
Proof.
  intros L. induction pre as [|c pre IH]; intros i.
  - simpl app. destruct (match_here_complete _ _ post L) as (m & Hm).
    destruct (mid ++ post); simpl; rewrite Hm; eauto.
  - simpl. destruct (match_here fl r (c :: pre ++ mid ++ post)); eauto.
Qed.

Lemma regex_test_occurs (r : regex) (s : jsstring) :
  regex_test fl r s = true <->
  exists pre mid post, s = pre ++ mid ++ post /\ lang fl r mid.
Proof.
  unfold regex_test, regex_exec. split.
  - destruct (regex_exec_from fl r 0 s) as [[j m]|] eqn:H; [|discriminate].
    intros _. destruct (regex_exec_from_sound _ _ _ _ _ H) as (pre & post & E & L).
    exists pre, m, post. auto.
  - intros (pre & mid & post & -> & L).
    destruct (regex_exec_from_complete _ pre _ post L 0) as (found & ->). reflexivity.
Qed.

End Matcher.

Lemma RegExp_test_occurs (p : RegExp) (s : jsstring) :
  RegExp_test p s = true <-> occurs p s.
Proof. apply regex_test_occurs. Qed.


(** ** The refusal classifier *)

Lemma isContentRefusal_unfold (response : jsstring) :
  isContentRefusal response
  = (10 <=? length response)%nat
    && existsb (fun pattern =>
                  RegExp_test pattern (toLowerCase (firstn 200 response)))
               REFUSAL_PATTERNS.
Proof.
  unfold isContentRefusal, substring0.
  destruct response as [|c r]; [reflexivity|].
  rewrite Nat.ltb_antisym.
  destruct (10 <=? length (c :: r))%nat; reflexivity.
Qed.

Lemma isContentRefusal_iff (response : jsstring) :
  isContentRefusal response = true <->
  (10 <= length response)%nat /\
  exists pattern, In pattern REFUSAL_PATTERNS
                  /\ occurs pattern (toLowerCase (firstn 200 response)).
Proof.
  rewrite isContentRefusal_unfold, andb_true_iff, Nat.leb_le, existsb_exists.
  split; intros [Hl (p & Hin & Hp)]; (split; [exact Hl|]); exists p;
    (split; [exact Hin|]); now apply RegExp_test_occurs.
Qed.


Lemma startsWith_prefix (p s : jsstring) :
  startsWith p s = true -> exists post, s = p ++ post.
Proof.
  revert s; induction p as [|x p IH]; intros s H; simpl in H.
  - exists s. reflexivity.
  - destruct s as [|c s]; [discriminate|].
    apply andb_true_iff in H as [Hx Hp]. apply N.eqb_eq in Hx. subst c.
    destruct (IH _ Hp) as (post & ->). exists post. reflexivity.
Qed.

Lemma includes_infix (s p : jsstring) :
  includes s p = true -> exists pre post, s = pre ++ p ++ post.
Proof.
  induction s as [|c s IH]; simpl; intros H.
  - rewrite orb_false_r in H. apply startsWith_prefix in H as (post & E).
    exists [], post. exact E.
  - apply orb_true_iff in H as [H|H].
    + apply startsWith_prefix in H as (post & E). exists [], post. exact E.
    + destruct (IH H) as (pre & post & ->). exists (c :: pre), post. reflexivity.
Qed.

Lemma lang_lit_same (fl : flags) (p : jsstring) : lang fl (RLit p) p.
Proof.
  constructor. induction p as [|x p IH]; constructor; [|exact IH].
  apply N.eqb_refl.
Qed.

Ltac solve_lang :=
  first [ apply lang_lit_same
        | apply lang_alt_l; solve_lang
        | apply lang_alt_r; solve_lang ].

Ltac pick_pattern k :=
  exists (nth k REFUSAL_PATTERNS {| re_source := RLit []; re_flags := flags_i |});
  split; [simpl; tauto|solve_lang].

(** Each literal phrase of the pattern set, found in the lower-cased first
    200 characters of a text of 10 characters or more, makes it a refusal. *)
Lemma refusal_phrase_detected (response phrase : jsstring) :
  In phrase refusal_phrases ->
  (10 <= length response)%nat ->
  includes (toLowerCase (firstn 200 response)) phrase = true ->
  isContentRefusal response = true.
Proof.
  intros Hin Hlen Hinc. apply isContentRefusal_iff. split; [exact Hlen|].
  apply includes_infix in Hinc as (pre & post & E).
  assert (exists pattern, In pattern REFUSAL_PATTERNS
                          /\ lang (re_flags pattern) (re_source pattern) phrase)
    as (pattern & Hp & Hl).
  { unfold refusal_phrases in Hin. simpl in Hin.
    repeat (destruct Hin as [<-|Hin];
            [first [ pick_pattern 0%nat | pick_pattern 1%nat | pick_pattern 2%nat
                   | pick_pattern 3%nat | pick_pattern 4%nat | pick_pattern 5%nat
                   | pick_pattern 6%nat | pick_pattern 7%nat ]|]).
    contradiction. }
  exists pattern. split; [exact Hp|]. exists pre, phrase, post. auto.
Qed.



(** ** The greedy span of [\[.*\]] and [\{[\s\S]*\}] *)

Lemma last_split_unique (c : char) (a b post post' : jsstring) :
  a ++ c :: post = b ++ c :: post' ->
  ~ In c post -> ~ In c post' -> a = b /\ post = post'.
Proof.
  revert b; induction a as [|x a IH]; intros [|y b] E Hp Hp'; simpl in E.
  - injection E as ->. auto.
  - injection E as <- ->. exfalso. apply Hp, in_elt.
  - injection E as -> <-. exfalso. apply Hp', in_elt.
  - injection E as -> E. destruct (IH _ E Hp Hp') as [-> ->]. auto.
Qed.

Section Span.

Variable fl : flags.
Variables o c : char.
Variable cls : cclass.
Hypothesis case_sensitive : ignoreCase fl = false.
Hypothesis accepts_all : forall x, class_accepts fl cls x = true.

Let close : jsstring -> option jsstring := fun t => matcher fl (RLit [c]) t Some.
Let span_regex : regex := RSeq (RLit [o]) (RSeq (RStar cls) (RLit [c])).

Lemma char_matches_exact (x y : char) : char_matches fl x y = (x =? y).
Proof. unfold char_matches, canonicalize. now rewrite case_sensitive. Qed.

Lemma close_spec (t : jsstring) :
  close t = match t with
            | x :: t' => if c =? x then Some t' else None
            | [] => None
            end.
Proof.
  unfold close. simpl. destruct t as [|x t']; [reflexivity|].
  rewrite char_matches_exact. now destruct (c =? x).
Qed.

Lemma match_star_finds (s : jsstring) :
  In c s -> exists post, match_star fl cls s close = Some post.
Proof.
  intros Hin. apply in_split in Hin as (a & b & ->).
  apply (match_star_complete fl cls a (c :: b) close b).
  - apply Forall_forall. intros x _. apply accepts_all.
  - rewrite close_spec, N.eqb_refl. reflexivity.
Qed.

Lemma match_star_last_sound (s post : jsstring) :
  match_star fl cls s close = Some post ->
  exists mid, s = mid ++ c :: post /\ ~ In c post.
Proof.
  revert post; induction s as [|x s IH]; intros post H; simpl in H.
  - rewrite close_spec in H. discriminate.
  - rewrite accepts_all in H.
    destruct (match_star fl cls s close) as [r|] eqn:Hs.
    + injection H as ->. destruct (IH _ eq_refl) as (mid & -> & Hn).
      exists (x :: mid). auto.
    + rewrite close_spec in H. destruct (c =? x) eqn:Hx; [|discriminate].
      apply N.eqb_eq in Hx. injection H as ->. subst x.
      exists []. split; [reflexivity|].
      intros Hin. destruct (match_star_finds _ Hin) as (p & Hp). congruence.
Qed.

Lemma match_star_last (s post : jsstring) :
  match_star fl cls s close = Some post <->
  exists mid, s = mid ++ c :: post /\ ~ In c post.
Proof.
  split; [apply match_star_last_sound|].
  intros (mid & -> & Hn).
  destruct (match_star_finds (mid ++ c :: post)) as (p & Hp); [apply in_elt|].
  rewrite Hp. f_equal.
  destruct (match_star_last_sound _ _ Hp) as (mid' & E & Hn').
  symmetry. eapply last_split_unique; eauto.
Qed.

Lemma matcher_span_head (s : jsstring) :
  matcher fl span_regex s Some
  = match s with
    | x :: s' => if o =? x then match_star fl cls s' close else None
    | [] => None
    end.
Proof.
  unfold span_regex, close. simpl. destruct s as [|x s]; [reflexivity|].
  rewrite char_matches_exact. destruct (o =? x); reflexivity.
Qed.

Lemma firstn_span (mid post : jsstring) :
  firstn (length (o :: mid ++ c :: post) - length post) (o :: mid ++ c :: post)
  = o :: mid ++ [c].
Proof.
  change (o :: mid ++ c :: post) with ((o :: mid) ++ [c] ++ post).
  rewrite app_assoc, length_app, Nat.add_sub, firstn_app, firstn_all, Nat.sub_diag.
  simpl. now rewrite app_nil_r.
Qed.

(** A match at the head: the text opens with [o] and the match runs
    through the last [c]. *)
Lemma match_here_span (s m : jsstring) :
  match_here fl span_regex s = Some m <->
  exists mid post, s = o :: mid ++ c :: post /\ ~ In c post /\ m = o :: mid ++ [c].
Proof.
  unfold match_here. rewrite matcher_span_head.
  destruct s as [|x s].
  - split; [discriminate|]. intros (mid & post & E & _). discriminate.
  - destruct (o =? x) eqn:Hx.
    + apply N.eqb_eq in Hx. subst x.
      destruct (match_star fl cls s close) as [post|] eqn:Hs.
      * apply match_star_last in Hs as (mid & -> & Hn).
        rewrite firstn_span. split.
        -- intros E. injection E as <-. exists mid, post. auto.
        -- intros (mid' & post' & E & Hn' & ->). injection E as E.
           destruct (last_split_unique _ _ _ _ _ E Hn Hn') as [-> ->].
           reflexivity.
      * split; [discriminate|]. intros (mid & post & E & Hn & _).
        injection E as ->.
        destruct (match_star_finds (mid ++ c :: post)) as (p & Hp); [apply in_elt|].
        congruence.
    + split; [discriminate|]. intros (mid & post & E & _).
      injection E as -> _. rewrite N.eqb_refl in Hx. discriminate.
Qed.

Lemma regex_exec_from_span (s : jsstring) :
  forall (i : nat) (span : jsstring),
    option_map snd (regex_exec_from fl span_regex i s) = Some span <->
    greedy_span o c s span.
Proof.
  induction s as [|x s IH]; intros i span.
  - simpl. destruct (match_here fl span_regex []) as [m|] eqn:Hm.
    + apply match_here_span in Hm as (mid & post & E & _). discriminate.
    + simpl. split; [discriminate|].
      intros (pre & mid & post & E & _). destruct pre; discriminate.
  - simpl. destruct (match_here fl span_regex (x :: s)) as [m|] eqn:Hm.
    + simpl. apply match_here_span in Hm as (mid & post & E & Hn & ->). split.
      * intros H. injection H as <-. exists [], mid, post. simpl.
        rewrite E. auto.
      * intros (pre & mid' & post' & E' & Ho & Hc & ->).
        destruct pre as [|y pre].
        -- simpl in E'. rewrite E in E'. injection E' as E'.
           destruct (last_split_unique _ _ _ _ _ E' Hn Hc) as [-> _]. reflexivity.
        -- exfalso. apply Ho. left. simpl in E'. congruence.
    + rewrite IH. split.
      * intros (pre & mid & post & -> & Ho & Hc & ->).
        exists (x :: pre), mid, post. split; [reflexivity|].
        split; [|auto]. intros [->|Hin]; [|auto].
        assert (match_here fl span_regex (o :: (pre ++ [o] ++ mid) ++ c :: post)
                = Some (o :: (pre ++ [o] ++ mid) ++ [c])) as Hm'
          by (apply match_here_span; eauto).
        rewrite <- !app_assoc in Hm'. simpl in Hm, Hm'. congruence.
      * intros (pre & mid & post & E & Ho & Hc & ->).
        destruct pre as [|y pre]; simpl in E; injection E as -> ->.
        -- assert (match_here fl span_regex (o :: mid ++ c :: post)
                   = Some (o :: mid ++ [c])) as Hm'
             by (apply match_here_span; eauto).
           simpl in Hm. congruence.
        -- exists pre, mid, post. split; [reflexivity|].
           split; [|auto]. intros Hin. apply Ho. now right.
Qed.

Lemma string_match_span (s span : jsstring) :
  string_match fl span_regex s = Some span <-> greedy_span o c s span.
Proof. apply regex_exec_from_span. Qed.

Lemma string_match_no_span (s : jsstring) :
  string_match fl span_regex s = None <-> ~ has_span o c s.
Proof.
  unfold string_match, regex_exec. generalize 0%nat.
  induction s as [|x s IH]; intros i; simpl.
  - destruct (match_here fl span_regex []) as [m|] eqn:Hm.
    + apply match_here_span in Hm as (mid & post & E & _). discriminate.
    + simpl. split; [|reflexivity]. intros _ (pre & mid & post & E).
      destruct pre; discriminate.
  - destruct (match_here fl span_regex (x :: s)) as [m|] eqn:Hm.
    + simpl. split; [discriminate|]. intros Hn. exfalso. apply Hn.
      apply match_here_span in Hm as (mid & post & -> & _).
      exists [], mid, post. reflexivity.
    + rewrite IH. split.
      * intros Hn (pre & mid & post & E).
        destruct pre as [|y pre]; simpl in E; injection E as -> ->.
        -- assert (In c (mid ++ c :: post)) as Hin by apply in_elt.
           unfold match_here in Hm. rewrite matcher_span_head, N.eqb_refl in Hm.
           destruct (match_star_finds _ Hin) as (p & Hp).
           rewrite Hp in Hm. discriminate.
        -- apply Hn. exists pre, mid, post. reflexivity.
      * intros Hn (pre & mid & post & ->). apply Hn.
        exists (x :: pre), mid, post. reflexivity.
Qed.

End Span.

Lemma match_json_array (s span : jsstring) :
  String_match s re_json_array = Some span <->
  greedy_span lbracket rbracket s span.
Proof.
  apply (string_match_span flags_s lbracket rbracket CDot eq_refl (fun _ => eq_refl)).
Qed.

Lemma match_json_array_none (s : jsstring) :
  String_match s re_json_array = None <-> ~ has_span lbracket rbracket s.
Proof.
  apply (string_match_no_span flags_s lbracket rbracket CDot eq_refl (fun _ => eq_refl)).
Qed.

Lemma match_json_object (s span : jsstring) :
  String_match s re_json_object = Some span <->
  greedy_span lbrace rbrace s span.
Proof.
  apply (string_match_span flags_none lbrace rbrace CAll eq_refl (fun _ => eq_refl)).
Qed.

Lemma match_json_object_none (s : jsstring) :
  String_match s re_json_object = None <-> ~ has_span lbrace rbrace s.
Proof.
  apply (string_match_no_span flags_none lbrace rbrace CAll eq_refl (fun _ => eq_refl)).
Qed.

(** ** What JSON.parse makes of a bracketed or braced span *)


Lemma parse_members_object (fuel : nat) :
  forall s acc v rest,
    parse_members fuel s acc = Parsed v rest -> exists ms, v = JObject ms.
Proof.
  induction fuel as [|fuel IH]; intros s acc v rest H; simpl in H; [discriminate|].
  destruct (skip_ws s) as [|c s1]; [discriminate|].
  destruct (c =? 34); [|discriminate].
  destruct (parse_string_body s1) as [[key rest1]|]; [|discriminate].
  destruct (skip_ws rest1) as [|c2 s2]; [discriminate|].
  destruct (c2 =? 58); [|discriminate].
  destruct (parse_value fuel s2) as [v2 rest2| |]; try discriminate.
  destruct (skip_ws rest2) as [|c3 s3]; [discriminate|].
  destruct (c3 =? 44).
  - eapply IH; eauto.
  - destruct (c3 =? 125); [|discriminate]. injection H as <- _. eauto.
Qed.


Lemma parse_value_braced (fuel : nat) (x : jsstring) (v : json) (rest : jsstring) :
  parse_value fuel (lbrace :: x) = Parsed v rest -> exists ms, v = JObject ms.
Proof.
  destruct fuel as [|fuel]; simpl; [discriminate|].
  destruct (skip_ws x) as [|c2 s2]; [discriminate|].
  destruct (c2 =? 125).
  - intros H; injection H as <- _. eauto.
  - apply parse_members_object.
Qed.


Lemma JSON_parse_braced (x : jsstring) (v : json) :
  JSON_parse (lbrace :: x) = Some v -> exists ms, v = JObject ms.
Proof.
  unfold JSON_parse. generalize (parse_fuel (lbrace :: x)). intros fuel.
  destruct (parse_value fuel (lbrace :: x)) as [v' rest| |] eqn:Hp; try discriminate.
  destruct (skip_ws rest); [|discriminate]. intros H; injection H as <-.
  eapply parse_value_braced; eauto.
Qed.

Lemma greedy_span_head (o c : char) (s span : jsstring) :
  greedy_span o c s span -> exists x, span = o :: x.
Proof. intros (pre & mid & post & _ & _ & _ & ->). simpl. eauto. Qed.

(** ** Tag generation *)

Lemma Array_map_normalize_strings (tags : list jsstring) (w : World) :
  Array_map normalize_tag (List.map JString tags) w
  = (Return (List.map (fun tag => trim (toLowerCase tag)) tags), w).
Proof.
  induction tags as [|t tags IH]; simpl; [reflexivity|].
  unfold bind at 1. simpl. unfold bind at 1. rewrite IH. reflexivity.
Qed.

Lemma Array_map_normalize_fails (a : list json) (w : World) :
  forallb is_JString a = false ->
  exists e, Array_map normalize_tag a w = (Throw e, w).
Proof.
  induction a as [|v a IH]; simpl; [discriminate|].
  destruct v; simpl; unfold bind at 1; simpl; eauto.
  intros H. destruct (IH H) as (e & He).
  unfold bind at 1. rewrite He. eauto.
Qed.

Lemma slice0_nonneg {A : Type} (a : list A) (e : Z) :
  (0 <= e)%Z -> slice0 a e = firstn (Z.to_nat e) a.
Proof.
  intros H. unfold slice0.
  destruct (e <? 0)%Z eqn:E; [apply Z.ltb_lt in E; lia|reflexivity].
Qed.

Section TagExtraction.

Variables (content : jsstring) (maxTags : Z) (w w' : World) (response : jsstring).

Hypothesis completed :
  makeCompletion (generateTags_systemPrompt maxTags)
                 (generateTags_userPrompt content) MODELS.FAST w
  = (Return response, w').

Lemma generateTags_completed :
  generateTags content maxTags w
  = match String_match response re_json_array with
    | Some jsonMatch =>
        match JSON_parse jsonMatch with
        | Some (JArray a) =>
            match Array_map normalize_tag (slice0 a maxTags) w' with
            | (Return tags, _) => (Return tags, w')
            | (Throw _, _) => (Return [], w')
            end
        | _ => (Return [], w')
        end
    | None => (Return [], w')
    end.
Proof.
  unfold generateTags, try_catch. unfold bind at 1. rewrite completed.
  destruct (String_match response re_json_array) as [jsonMatch|]; [|reflexivity].
  unfold bind at 1, JSON_parse_M.
  destruct (JSON_parse jsonMatch) as [v|]; [|reflexivity].
  unfold ret at 1. unfold bind at 1.
  destruct v; try reflexivity.
  unfold Array_slice0, ret at 1.
  destruct (forallb is_JString (slice0 elements maxTags)) eqn:Hs.
  - assert (exists tags, slice0 elements maxTags = List.map JString tags) as (tags & E).
    { clear -Hs. induction (slice0 elements maxTags) as [|v l IH].
      - exists []. reflexivity.
      - simpl in Hs. apply andb_true_iff in Hs as [Hv Hl].
        destruct (IH Hl) as (tags & ->). destruct v; try discriminate.
        exists (s :: tags). reflexivity. }
    rewrite E, Array_map_normalize_strings. reflexivity.
  - destruct (Array_map_normalize_fails _ w' Hs) as (e & ->). reflexivity.
Qed.





End TagExtraction.




(** ** The object operations: improve and grammar check *)

Section ObjectExtraction.

Variables (text : jsstring) (w w' : World) (response : jsstring).

Lemma improveText_completed :
  makeCompletion improveText_systemPrompt text MODELS.BALANCED w
  = (Return response, w') ->
  improveText text w
  = match String_match response re_json_object with
    | Some jsonMatch =>
        match JSON_parse jsonMatch with
        | Some v => (Return v, w')
        | None => (Return (improveText_default text), w')
        end
    | None => (Return (improveText_default text), w')
    end.
Proof.
  intros H. unfold improveText, try_catch. unfold bind at 1. rewrite H.
  destruct (String_match response re_json_object) as [jsonMatch|]; [|reflexivity].
  unfold JSON_parse_M. destruct (JSON_parse jsonMatch); reflexivity.
Qed.

Lemma grammarCheck_completed :
  makeCompletion grammarCheck_systemPrompt text MODELS.FAST w
  = (Return response, w') ->
  grammarCheck text w
  = match String_match response re_json_object with
    | Some jsonMatch =>
        match JSON_parse jsonMatch with
        | Some v => (Return v, w')
        | None => (Return (grammarCheck_default text), w')
        end
    | None => (Return (grammarCheck_default text), w')
    end.
Proof.
  intros H. unfold grammarCheck, try_catch. unfold bind at 1. rewrite H.
  destruct (String_match response re_json_object) as [jsonMatch|]; [|reflexivity].
  unfold JSON_parse_M. destruct (JSON_parse jsonMatch); reflexivity.
Qed.

End ObjectExtraction.

Lemma no_parseable_object_match (response : jsstring) :
  no_parseable_object response ->
  match String_match response re_json_object with
  | Some jsonMatch => JSON_parse jsonMatch = None
  | None => True
  end.
Proof.
  intros [H|(span & Hspan & Hparse)].
  - apply match_json_object_none in H. now rewrite H.
  - apply match_json_object in Hspan. now rewrite Hspan.
Qed.

Lemma improveText_falls_back (text : jsstring) (w w' : World) (response : jsstring) :
  makeCompletion improveText_systemPrompt text MODELS.BALANCED w
  = (Return response, w') ->
  no_parseable_object response ->
  improveText text w = (Return (improveText_default text), w').
Proof.
  intros H Hno. apply no_parseable_object_match in Hno.
  rewrite (improveText_completed _ _ _ _ H).
  destruct (String_match response re_json_object); [now rewrite Hno|reflexivity].
Qed.

Lemma grammarCheck_falls_back (text : jsstring) (w w' : World) (response : jsstring) :
  makeCompletion grammarCheck_systemPrompt text MODELS.FAST w
  = (Return response, w') ->
  no_parseable_object response ->
  grammarCheck text w = (Return (grammarCheck_default text), w').
Proof.
  intros H Hno. apply no_parseable_object_match in Hno.
  rewrite (grammarCheck_completed _ _ _ _ H).
  destruct (String_match response re_json_object); [now rewrite Hno|reflexivity].
Qed.

(** C6. Once [makeCompletion] has returned a completion (not a refusal)
    that holds no '{' followed by a '}', or whose span from the first '{'
    through the last '}' is not JSON, [improveText] returns exactly
    [{improved: text, changes: []}] and [grammarCheck] returns exactly
    [{corrected: text, errors: []}], with the input text unchanged, and
    neither raises. *)
Theorem object_operations_fall_back :
  (forall text w w' response,
     makeCompletion improveText_systemPrompt text MODELS.BALANCED w
     = (Return response, w') ->
     no_parseable_object response ->
     improveText text w
     = (Return (JObject [ (str "improved", JString text);
                          (str "changes", JArray []) ]), w'))
  /\ (forall text w w' response,
        makeCompletion grammarCheck_systemPrompt text MODELS.FAST w
        = (Return response, w') ->
        no_parseable_object response ->
        grammarCheck text w
        = (Return (JObject [ (str "corrected", JString text);
                             (str "errors", JArray []) ]), w')).
Proof.
  split; intros text w w' response H Hno.
  - now apply (improveText_falls_back _ _ _ _ H).
  - now apply (grammarCheck_falls_back _ _ _ _ H).
Qed.

Lemma object_operations_fall_back_witness :
  fst (improveText (str "Original text") (answering malformed_object_completion))
  = Return (JObject [ (str "improved", JString (str "Original text"));
                      (str "changes", JArray []) ])
  /\ fst (grammarCheck (str "Original text") (answering (str "No errors found.")))
     = Return (JObject [ (str "corrected", JString (str "Original text"));
                         (str "errors", JArray []) ]).
Proof.
  destruct object_operations_fall_back as [Himprove Hgrammar]. split.
  - rewrite (Himprove (str "Original text") (answering malformed_object_completion)
               (issue (answering malformed_object_completion)
                  [completion_request improveText_systemPrompt (str "Original text")
                     MODELS.BALANCED])
               malformed_object_completion).
    + reflexivity.
    + vm_compute. reflexivity.
    + right. exists (skipn 6 malformed_object_completion). split.
      * exists (str "Sure: "),
          (removelast (skipn 7 malformed_object_completion)), [].
        split; [vm_compute; reflexivity|].
        split; [vm_compute; intuition discriminate|].
        split; [intros []|vm_compute; reflexivity].
      * vm_compute. reflexivity.
  - rewrite (Hgrammar (str "Original text") (answering (str "No errors found."))
               (issue (answering (str "No errors found."))
                  [completion_request grammarCheck_systemPrompt (str "Original text")
                     MODELS.FAST])
               (str "No errors found.")).
    + reflexivity.
    + vm_compute. reflexivity.
    + left. apply match_json_object_none. vm_compute. reflexivity.
Defined.

(** C7. The code breaks the result shapes its own documentation declares
    ([improveText] returns [{ improved: string, changes: string[] }],
    [grammarCheck] returns
    [{ corrected: string, errors: Array<{original, correction, type}> }]):
    a parsed object is returned as it was parsed.  On the completion
    [{"improved": 42}] the improve operation returns an object whose
    "improved" is a number and that has no "changes"; on
    [{"corrected": "Fine.", "errors": ["typo"]}] the grammar check returns
    an "errors" array of strings, not of {original, correction, type}. *)
Lemma object_results_unvalidated :
  fst (improveText (str "Some text") (answering unshaped_improve_completion))
  = Return (JObject [ (str "improved", JNumber (str "42")) ])
  /\ conforms_improved (JObject [ (str "improved", JNumber (str "42")) ]) = false
  /\ fst (grammarCheck (str "Some text") (answering unshaped_grammar_completion))
     = Return (JObject [ (str "corrected", JString (str "Fine."));
                         (str "errors", JArray [JString (str "typo")]) ])
  /\ conforms_corrected
       (JObject [ (str "corrected", JString (str "Fine."));
                  (str "errors", JArray [JString (str "typo")]) ]) = false.
Proof. repeat split; vm_compute; reflexivity. Qed.

(** What the two operations do return: every value returned by the improve
    operation is either the value parsed from the span of the completion
    from its first '{' through its last '}', returned as parsed, which is a
    JSON object but is not checked against [{improved, changes}], or the
    default [{improved: text, changes: []}], which has that shape; likewise
    for the grammar check with [{corrected, errors}] and its default. *)
Theorem object_results_as_parsed :
  (forall text w w' response,
     makeCompletion improveText_systemPrompt text MODELS.BALANCED w
     = (Return response, w') ->
     (forall span v,
        greedy_span lbrace rbrace response span -> JSON_parse span = Some v ->
        improveText text w = (Return v, w') /\ is_JObject v = true)
     /\ (no_parseable_object response ->
         improveText text w = (Return (improveText_default text), w')))
  /\ (forall text w w' response,
        makeCompletion grammarCheck_systemPrompt text MODELS.FAST w
        = (Return response, w') ->
        (forall span v,
           greedy_span lbrace rbrace response span -> JSON_parse span = Some v ->
           grammarCheck text w = (Return v, w') /\ is_JObject v = true)
        /\ (no_parseable_object response ->
            grammarCheck text w = (Return (grammarCheck_default text), w')))
  /\ (forall text,
        conforms_improved (improveText_default text) = true
        /\ conforms_corrected (grammarCheck_default text) = true).
Proof.
  split; [|split].
  - intros text w w' response H.
    split; [|now apply (improveText_falls_back _ _ _ _ H)].
    intros span v Hspan Hparse. split.
    + rewrite (improveText_completed _ _ _ _ H).
      apply match_json_object in Hspan. now rewrite Hspan, Hparse.
    + destruct (greedy_span_head _ _ _ _ Hspan) as (x & ->).
      destruct (JSON_parse_braced _ _ Hparse) as (ms & ->). reflexivity.
  - intros text w w' response H.
    split; [|now apply (grammarCheck_falls_back _ _ _ _ H)].
    intros span v Hspan Hparse. split.
    + rewrite (grammarCheck_completed _ _ _ _ H).
      apply match_json_object in Hspan. now rewrite Hspan, Hparse.
    + destruct (greedy_span_head _ _ _ _ Hspan) as (x & ->).
      destruct (JSON_parse_braced _ _ Hparse) as (ms & ->). reflexivity.
  - intros text. split; reflexivity.
Qed.

Lemma object_results_as_parsed_witness :
  improveText (str "Some text") (answering unshaped_improve_completion)
  = (Return (JObject [ (str "improved", JNumber (str "42")) ]),
     issue (answering unshaped_improve_completion)
       [completion_request improveText_systemPrompt (str "Some text")
          MODELS.BALANCED])
  /\ is_JObject (JObject [ (str "improved", JNumber (str "42")) ]) = true.
Proof.
  destruct object_results_as_parsed as (Himprove & _ & _).
  destruct (Himprove (str "Some text") (answering unshaped_improve_completion)
              (issue (answering unshaped_improve_completion)
                 [completion_request improveText_systemPrompt (str "Some text")
                    MODELS.BALANCED])
              unshaped_improve_completion) as [Hparsed _].
  - vm_compute. reflexivity.
  - apply (Hparsed unshaped_improve_completion).
    + exists [], (removelast (skipn 1 unshaped_improve_completion)), [].
      split; [vm_compute; reflexivity|].
      split; [intros []|]. split; [intros []|vm_compute; reflexivity].
    + vm_compute. reflexivity.
Defined.

(** ** Categorization *)


Lemma find_category_some (category c : jsstring) :
  find_category category = Some c ->
  In c categories /\ toLowerCase c = toLowerCase category.
Proof.
  unfold find_category. intros H. apply find_some in H as [Hin Heq].
  split; [exact Hin|]. now apply streqb_eq.
Qed.


Lemma getCategory_completed (content : jsstring) (w w' : World) (response : jsstring) :
  makeCompletion getCategory_systemPrompt (getCategory_userPrompt content)
                 MODELS.FAST w = (Return response, w') ->
  getCategory content w
  = (Return match find_category (trim response) with
            | Some c => c
            | None => str "Other"
            end, w').
Proof.
  intros H. unfold getCategory, try_catch. unfold bind at 1. now rewrite H.
Qed.



(** ** Errors raised by the invoker inside the operations *)

Lemma try_catch_default_throw {A : Type} (body : M A) (d : A) (w w' : World) (e : exn) :
  body w = (Throw e, w') ->
  try_catch body (fun _ => ret d) w = (Return d, w').
Proof. intros H. unfold try_catch. now rewrite H. Qed.

Lemma try_catch_default_total {A : Type} (body : M A) (d : A) (w : World) :
  exists v, fst (try_catch body (fun _ => ret d) w) = Return v.
Proof.
  unfold try_catch. destruct (body w) as [[a|e] w']; simpl; eauto.
Qed.

Lemma try_catch_default_world {A : Type} (body : M A) (d : A) (w : World) :
  snd (try_catch body (fun _ => ret d) w) = snd (body w).
Proof.
  unfold try_catch. destruct (body w) as [[a|e] w']; reflexivity.
Qed.

Lemma bind_throw {A B : Type} (c : M A) (k : A -> M B) (w w' : World) (e : exn) :
  c w = (Throw e, w') -> bind c k w = (Throw e, w').
Proof. intros H. unfold bind. now rewrite H. Qed.

Lemma generateTitles_completed
    (content : jsstring) (count : Z) (w w' : World) (response : jsstring) :
  makeCompletion (generateTitles_systemPrompt count)
                 (generateTitles_userPrompt content count) MODELS.FAST w
  = (Return response, w') ->
  generateTitles content count w
  = match String_match response re_json_array with
    | Some jsonMatch =>
        match JSON_parse jsonMatch with
        | Some (JArray a) => (Return (slice0 a count), w')
        | _ => (Return [], w')
        end
    | None => (Return [], w')
    end.
Proof.
  intros H. unfold generateTitles, try_catch. unfold bind at 1. rewrite H.
  destruct (String_match response re_json_array) as [jsonMatch|]; [|reflexivity].
  unfold bind, JSON_parse_M.
  destruct (JSON_parse jsonMatch) as [v|]; [|reflexivity].
  destruct v; reflexivity.
Qed.

(** The world an operation leaves is the one its [makeCompletion] left. *)
Lemma generateTags_world (content : jsstring) (maxTags : Z) (w : World) :
  snd (generateTags content maxTags w)
  = snd (makeCompletion (generateTags_systemPrompt maxTags)
           (generateTags_userPrompt content) MODELS.FAST w).
Proof.
  destruct (makeCompletion (generateTags_systemPrompt maxTags)
              (generateTags_userPrompt content) MODELS.FAST w)
    as [[response|e] w'] eqn:H.
  - rewrite (generateTags_completed _ _ _ _ _ H).
    destruct (String_match response re_json_array) as [m|]; [|reflexivity].
    destruct (JSON_parse m) as [[]|]; try reflexivity.
    destruct (Array_map normalize_tag _ w') as [[tags|e] w'']; reflexivity.
  - unfold generateTags.
    rewrite (try_catch_default_throw _ _ _ _ _ (bind_throw _ _ _ _ _ H)). reflexivity.
Qed.

Lemma generateTitles_world (content : jsstring) (count : Z) (w : World) :
  snd (generateTitles content count w)
  = snd (makeCompletion (generateTitles_systemPrompt count)
           (generateTitles_userPrompt content count) MODELS.FAST w).
Proof.
  destruct (makeCompletion (generateTitles_systemPrompt count)
              (generateTitles_userPrompt content count) MODELS.FAST w)
    as [[response|e] w'] eqn:H.
  - rewrite (generateTitles_completed _ _ _ _ _ H).
    destruct (String_match response re_json_array) as [m|]; [|reflexivity].
    destruct (JSON_parse m) as [[]|]; reflexivity.
  - unfold generateTitles.
    rewrite (try_catch_default_throw _ _ _ _ _ (bind_throw _ _ _ _ _ H)). reflexivity.
Qed.

Lemma improveText_world (text : jsstring) (w : World) :
  snd (improveText text w)
  = snd (makeCompletion improveText_systemPrompt text MODELS.BALANCED w).
Proof.
  destruct (makeCompletion improveText_systemPrompt text MODELS.BALANCED w)
    as [[response|e] w'] eqn:H.
  - rewrite (improveText_completed _ _ _ _ H).
    destruct (String_match response re_json_object) as [m|]; [|reflexivity].
    destruct (JSON_parse m); reflexivity.
  - unfold improveText.
    rewrite (try_catch_default_throw _ _ _ _ _ (bind_throw _ _ _ _ _ H)). reflexivity.
Qed.

Lemma grammarCheck_world (text : jsstring) (w : World) :
  snd (grammarCheck text w)
  = snd (makeCompletion grammarCheck_systemPrompt text MODELS.FAST w).
Proof.
  destruct (makeCompletion grammarCheck_systemPrompt text MODELS.FAST w)
    as [[response|e] w'] eqn:H.
  - rewrite (grammarCheck_completed _ _ _ _ H).
    destruct (String_match response re_json_object) as [m|]; [|reflexivity].
    destruct (JSON_parse m); reflexivity.
  - unfold grammarCheck.
    rewrite (try_catch_default_throw _ _ _ _ _ (bind_throw _ _ _ _ _ H)). reflexivity.
Qed.

Lemma getCategory_world (content : jsstring) (w : World) :
  snd (getCategory content w)
  = snd (makeCompletion getCategory_systemPrompt
           (getCategory_userPrompt content) MODELS.FAST w).
Proof.
  destruct (makeCompletion getCategory_systemPrompt
              (getCategory_userPrompt content) MODELS.FAST w)
    as [[response|e] w'] eqn:H.
  - rewrite (getCategory_completed _ _ _ _ H). reflexivity.
  - unfold getCategory.
    rewrite (try_catch_default_throw _ _ _ _ _ (bind_throw _ _ _ _ _ H)). reflexivity.
Qed.

(** C1, as stated, fails: the array and object operations catch what the
    invoker raises.  When the completion is the refusal
    "I cannot help with that request.", [makeCompletion] raises
    ContentModerationError and [generateTags] returns the empty array;
    when the provider rejects the call, [makeCompletion] raises
    "AI service temporarily unavailable" and [getCategory] returns "Other". *)
Lemma operations_swallow_invoker_errors :
  let content := str "Some blog content to tag." in
  let refusing := answering (str "I cannot help with that request.") in
  let failing := scripted [Rejected (Some (str "connection reset")) None] in
  isContentRefusal (str "I cannot help with that request.") = true
  /\ fst (makeCompletion (generateTags_systemPrompt 5)
            (generateTags_userPrompt content) MODELS.FAST refusing)
     = Throw (ContentModerationError refusal_message)
  /\ fst (generateTags content 5 refusing) = Return []
  /\ fst (makeCompletion getCategory_systemPrompt
            (getCategory_userPrompt content) MODELS.FAST failing)
     = Throw (Error unavailable_message)
  /\ fst (getCategory content failing) = Return (str "Other").
Proof. repeat split; vm_compute; reflexivity. Qed.

(** C1, amended. In the five operations whose extraction is array- or
    object-shaped, whatever [makeCompletion] raises, a moderation refusal as
    much as a transport failure, is caught and becomes the default value of
    the operation (empty array, echo object, "Other"), the same as a parse
    failure: these operations never raise.  The typed errors reach the
    caller from the plain-text operations (summary, expansion, tone change,
    continuation), which hand on what [makeCompletion] raises. *)
Theorem invoker_errors_degrade :
  (forall content maxTags w w' e,
     makeCompletion (generateTags_systemPrompt maxTags)
       (generateTags_userPrompt content) MODELS.FAST w = (Throw e, w') ->
     generateTags content maxTags w = (Return [], w'))
  /\ (forall content count w w' e,
        makeCompletion (generateTitles_systemPrompt count)
          (generateTitles_userPrompt content count) MODELS.FAST w = (Throw e, w') ->
        generateTitles content count w = (Return [], w'))
  /\ (forall text w w' e,
        makeCompletion improveText_systemPrompt text MODELS.BALANCED w
        = (Throw e, w') ->
        improveText text w = (Return (improveText_default text), w'))
  /\ (forall text w w' e,
        makeCompletion grammarCheck_systemPrompt text MODELS.FAST w
        = (Throw e, w') ->
        grammarCheck text w = (Return (grammarCheck_default text), w'))
  /\ (forall content w w' e,
        makeCompletion getCategory_systemPrompt
          (getCategory_userPrompt content) MODELS.FAST w = (Throw e, w') ->
        getCategory content w = (Return (str "Other"), w'))
  /\ (forall content maxTags count text w,
        (exists v, fst (generateTags content maxTags w) = Return v)
        /\ (exists v, fst (generateTitles content count w) = Return v)
        /\ (exists v, fst (improveText text w) = Return v)
        /\ (exists v, fst (grammarCheck text w) = Return v)
        /\ (exists v, fst (getCategory content w) = Return v))
  /\ (forall content length text tone sentences w,
        generateSummary content length w
        = makeCompletion (generateSummary_systemPrompt length)
            (generateSummary_userPrompt content) MODELS.FAST w
        /\ expandText text tone w
           = makeCompletion (expandText_systemPrompt tone) text MODELS.BALANCED w
        /\ changeTone text tone w
           = makeCompletion (changeTone_systemPrompt tone) text MODELS.FAST w
        /\ continueWriting text sentences w
           = makeCompletion (continueWriting_systemPrompt sentences) text
               MODELS.BALANCED w)
  /\ (forall content length w e,
        fst (makeCompletion (generateSummary_systemPrompt length)
               (generateSummary_userPrompt content) MODELS.FAST w) = Throw e ->
        fst (generateSummary content length w) = Throw e
        /\ (e = ContentModerationError refusal_message
            \/ e = ContentModerationError filtered_message
            \/ e = Error unavailable_message)).
Proof.
  repeat match goal with |- _ /\ _ => split end.
  - intros content maxTags w w' e H. unfold generateTags.
    apply (try_catch_default_throw _ _ _ _ e). now apply bind_throw.
  - intros content count w w' e H. unfold generateTitles.
    apply (try_catch_default_throw _ _ _ _ e). now apply bind_throw.
  - intros text w w' e H. unfold improveText.
    apply (try_catch_default_throw _ _ _ _ e). now apply bind_throw.
  - intros text w w' e H. unfold grammarCheck.
    apply (try_catch_default_throw _ _ _ _ e). now apply bind_throw.
  - intros content w w' e H. unfold getCategory.
    apply (try_catch_default_throw _ _ _ _ e). now apply bind_throw.
  - intros content maxTags count text w.
    repeat split; apply try_catch_default_total.
  - intros. repeat split; reflexivity.
  - intros content length w e H. split; [exact H|].
    eapply makeCompletion_throws; eauto.
Qed.

Lemma invoker_errors_degrade_witness :
  generateTags (str "Some blog content to tag.") 5
    (answering (str "I cannot help with that request."))
  = (Return [],
     issue (answering (str "I cannot help with that request."))
       [completion_request (generateTags_systemPrompt 5)
          (generateTags_userPrompt (str "Some blog content to tag.")) MODELS.FAST]).
Proof.
  destruct invoker_errors_degrade as (Htags & _).
  apply (Htags _ _ _ _ (ContentModerationError refusal_message)).
  vm_compute. reflexivity.
Defined.

(** ** Prompts *)

Lemma makeCompletion_first_request (systemPrompt userPrompt model : jsstring) (w : World) :
  first_request w (snd (makeCompletion systemPrompt userPrompt model w))
  = Some (completion_request systemPrompt userPrompt model).
Proof.
  unfold first_request.
  destruct (makeCompletion_calls systemPrompt userPrompt model w) as [H|H];
    rewrite H; simpl; rewrite nth_error_app2, Nat.sub_diag by lia; reflexivity.
Qed.

Lemma firstn_short (n : nat) (s : jsstring) :
  (length s <= n)%nat -> firstn n s = s.
Proof. apply firstn_all2. Qed.

(** C9, as stated, fails for the operations that send the text as the user
    prompt: [expandText] embeds a text of 4001 characters whole. *)
Lemma expandText_not_truncated :
  let text := repeat 97 4001 in
  first_request (answering (str "Expanded."))
    (snd (expandText text (str "professional") (answering (str "Expanded."))))
  = Some (completion_request (expandText_systemPrompt (str "professional"))
            text MODELS.BALANCED)
  /\ length (content (nth 1 (messages
               (completion_request (expandText_systemPrompt (str "professional"))
                  text MODELS.BALANCED)) {| role := []; content := [] |}))
     = 4001%nat.
Proof. split; vm_compute; reflexivity. Qed.

(** C9, amended. The prompts are total functions of their inputs.  Tag
    generation, summarization, title generation and categorization embed, after
    a fixed heading, the first 3000, 4000, 2000 and 2000 characters of the
    content, which is the whole content when it is no longer than that.
    Expansion, improvement, tone change, continuation and grammar check send
    the text itself as the user prompt, whatever its length.  A count that
    a prompt prints is a safe integer, and the length of a summary is one of
    "short", "medium" and "long". *)
Theorem prompt_embedding :
  (forall content maxTags w,
     Number_isSafeInteger maxTags = true ->
     first_request w (snd (generateTags content maxTags w))
     = Some (completion_request (generateTags_systemPrompt maxTags)
               (str "Extract tags from this blog content:" ++ [nl; nl]
                  ++ firstn 3000 content) MODELS.FAST)
     /\ ((length content <= 3000)%nat -> firstn 3000 content = content))
  /\ (forall content length w,
        In length [str "short"; str "medium"; str "long"] ->
        first_request w (snd (generateSummary content length w))
        = Some (completion_request (generateSummary_systemPrompt length)
                  (str "Summarize this blog content:" ++ [nl; nl]
                     ++ firstn 4000 content) MODELS.FAST)
        /\ ((List.length content <= 4000)%nat -> firstn 4000 content = content))
  /\ (forall content count w,
        Number_isSafeInteger count = true ->
        first_request w (snd (generateTitles content count w))
        = Some (completion_request (generateTitles_systemPrompt count)
                  (str "Generate " ++ number_toString count
                     ++ str " title options for this blog:" ++ [nl; nl]
                     ++ firstn 2000 content) MODELS.FAST)
        /\ ((length content <= 2000)%nat -> firstn 2000 content = content))
  /\ (forall content w,
        first_request w (snd (getCategory content w))
        = Some (completion_request getCategory_systemPrompt
                  (str "Classify this content:" ++ [nl; nl]
                     ++ firstn 2000 content) MODELS.FAST)
        /\ ((length content <= 2000)%nat -> firstn 2000 content = content))
  /\ (forall n (content : jsstring),
        (length (firstn n content) <= n)%nat
        /\ exists rest, content = firstn n content ++ rest)
  /\ (forall text tone w,
        first_request w (snd (expandText text tone w))
        = Some (completion_request (expandText_systemPrompt tone) text MODELS.BALANCED)
        /\ first_request w (snd (improveText text w))
           = Some (completion_request improveText_systemPrompt text MODELS.BALANCED)
        /\ first_request w (snd (changeTone text tone w))
           = Some (completion_request (changeTone_systemPrompt tone) text MODELS.FAST)
        /\ first_request w (snd (grammarCheck text w))
           = Some (completion_request grammarCheck_systemPrompt text MODELS.FAST))
  /\ (forall text sentences w,
        Number_isSafeInteger sentences = true ->
        first_request w (snd (continueWriting text sentences w))
        = Some (completion_request (continueWriting_systemPrompt sentences) text
                  MODELS.BALANCED)).
Proof.
  repeat match goal with |- _ /\ _ => split end.
  - intros content maxTags w _. split; [|apply firstn_short].
    rewrite generateTags_world. apply makeCompletion_first_request.
  - intros content len w _. split; [|apply firstn_short].
    apply makeCompletion_first_request.
  - intros content count w _. split; [|apply firstn_short].
    rewrite generateTitles_world. apply makeCompletion_first_request.
  - intros content w. split; [|apply firstn_short].
    rewrite getCategory_world. apply makeCompletion_first_request.
  - intros n content. split; [apply firstn_le_length|].
    exists (skipn n content). symmetry. apply firstn_skipn.
  - intros text tone w.
    rewrite improveText_world, grammarCheck_world.
    repeat split; apply makeCompletion_first_request.
  - intros text sentences w _. apply makeCompletion_first_request.
Qed.

Lemma prompt_embedding_witness :
  first_request (answering (str "Technology"))
    (snd (getCategory (str "A short post.") (answering (str "Technology"))))
  = Some (completion_request getCategory_systemPrompt
            (str "Classify this content:" ++ [nl; nl] ++ str "A short post.")
            MODELS.FAST)
  /\ first_request (answering (str "[]"))
       (snd (generateTitles (str "A short post.") 3 (answering (str "[]"))))
     = Some (completion_request (generateTitles_systemPrompt 3)
               (str "Generate 3 title options for this blog:" ++ [nl; nl]
                  ++ str "A short post.")
               MODELS.FAST)
  /\ first_request (answering (str "A summary."))
       (snd (generateSummary (str "A short post.") (str "medium")
               (answering (str "A summary."))))
     = Some (completion_request (generateSummary_systemPrompt (str "medium"))
               (str "Summarize this blog content:" ++ [nl; nl]
                  ++ str "A short post.")
               MODELS.FAST)
  /\ first_request (answering (str "And so on."))
       (snd (continueWriting (str "Once upon a time") 2
               (answering (str "And so on."))))
     = Some (completion_request (continueWriting_systemPrompt 2)
               (str "Once upon a time") MODELS.BALANCED).
Proof.
  destruct prompt_embedding
    as (_ & Hsummary & Htitles & Hcategory & _ & _ & Hcontinue).
  split; [|split; [|split]].
  - destruct (Hcategory (str "A short post.") (answering (str "Technology")))
      as [Hreq Hshort].
    rewrite Hreq, Hshort; [reflexivity|].
    vm_compute. lia.
  - destruct (Htitles (str "A short post.") 3%Z (answering (str "[]")))
      as [Hreq Hshort]; [reflexivity|].
    rewrite Hreq, Hshort; [reflexivity|].
    vm_compute. lia.
  - destruct (Hsummary (str "A short post.") (str "medium")
                (answering (str "A summary.")))
      as [Hreq Hshort]; [simpl; tauto|].
    rewrite Hreq, Hshort; [reflexivity|].
    vm_compute. lia.
  - apply Hcontinue. reflexivity.
Defined.

(** ** The parser never runs out of fuel

    [JSON_parse] gives [parse_value] twice the length of the text, plus two,
    as fuel; every recursive call has consumed a character for each two
    units it spends, so [OutOfFuel] is never the outcome and [None] always
    stands for a syntax error. *)

Lemma skip_ws_length (s : jsstring) : (length (skip_ws s) <= length s)%nat.
Proof.
  induction s as [|c s IH]; simpl; [lia|].
  destruct (is_json_ws c); simpl; lia.
Qed.

Lemma skip_ws_cons (s : jsstring) (c : char) (s1 : jsstring) :
  skip_ws s = c :: s1 -> (S (length s1) <= length s)%nat.
Proof.
  intros H. assert (Hl := skip_ws_length s). rewrite H in Hl. exact Hl.
Qed.

Lemma strip_prefix_length (p s rest : jsstring) :
  strip_prefix p s = Some rest -> (length rest + length p = length s)%nat.
Proof.
  revert s; induction p as [|x p IH]; intros s H; simpl in H.
  - injection H as ->. simpl. lia.
  - destruct s as [|c s]; [discriminate|].
    destruct (x =? c); [|discriminate]. apply IH in H. simpl. lia.
Qed.

Lemma take_digits_length (s d r : jsstring) :
  take_digits s = (d, r) -> (length r <= length s)%nat.
Proof.
  revert d r; induction s as [|c s IH]; intros d r H; simpl in H.
  - injection H as _ <-. simpl. lia.
  - destruct (is_digit c).
    + destruct (take_digits s) as [d' r'] eqn:E. injection H as _ <-.
      specialize (IH _ _ eq_refl). simpl. lia.
    + injection H as _ <-. lia.
Qed.

Lemma parse_int_part_length (s i r : jsstring) :
  parse_int_part s = Some (i, r) -> (length r < length s)%nat.
Proof.
  unfold parse_int_part. destruct s as [|c s]; [discriminate|].
  destruct (c =? 48).
  - intros H; injection H as _ <-. simpl. lia.
  - destruct (is_digit c); [|discriminate].
    destruct (take_digits s) as [d r'] eqn:E. intros H; injection H as _ <-.
    apply take_digits_length in E. simpl. lia.
Qed.

Lemma parse_frac_length (s f r : jsstring) :
  parse_frac s = Some (f, r) -> (length r <= length s)%nat.
Proof.
  unfold parse_frac. destruct s as [|c s].
  - intros H; injection H as _ <-. lia.
  - destruct (c =? 46).
    + destruct (take_digits s) as [d r'] eqn:E. apply take_digits_length in E.
      destruct d; [discriminate|]. intros H; injection H as _ <-. simpl. lia.
    + intros H; injection H as _ <-. lia.
Qed.

Lemma parse_exp_length (s e r : jsstring) :
  parse_exp s = Some (e, r) -> (length r <= length s)%nat.
Proof.
  unfold parse_exp. destruct s as [|c s].
  - intros H; injection H as _ <-. lia.
  - destruct ((c =? 101) || (c =? 69)).
    + destruct s as [|x t].
      * simpl. discriminate.
      * destruct ((x =? 43) || (x =? 45)).
        -- destruct (take_digits t) as [d r'] eqn:E. apply take_digits_length in E.
           destruct d; [discriminate|]. intros H; injection H as _ <-. simpl. lia.
        -- destruct (take_digits (x :: t)) as [d r'] eqn:E.
           apply take_digits_length in E.
           destruct d; [discriminate|]. intros H; injection H as _ <-.
           simpl in *. lia.
    + intros H; injection H as _ <-. lia.
Qed.

Lemma parse_number_length (s lexeme rest : jsstring) :
  parse_number s = Some (lexeme, rest) -> (length rest < length s)%nat.
Proof.
  unfold parse_number.
  assert (Hgen : forall minus s0,
            (length s0 <= length s)%nat ->
            match parse_int_part s0 with
            | Some (i, s1) =>
                match parse_frac s1 with
                | Some (f, s2) =>
                    match parse_exp s2 with
                    | Some (e, s3) => Some (minus ++ i ++ f ++ e, s3)
                    | None => None
                    end
                | None => None
                end
            | None => None
            end = Some (lexeme, rest) -> (length rest < length s)%nat).
  { intros minus s0 Hl.
    destruct (parse_int_part s0) as [[i s1]|] eqn:Hi; [|discriminate].
    destruct (parse_frac s1) as [[f s2]|] eqn:Hf; [|discriminate].
    destruct (parse_exp s2) as [[e s3]|] eqn:He; [|discriminate].
    intros H; injection H as _ <-.
    apply parse_int_part_length in Hi. apply parse_frac_length in Hf.
    apply parse_exp_length in He. lia. }
  destruct s as [|c s'].
  - apply Hgen. lia.
  - destruct (c =? 45); apply Hgen; simpl; lia.
Qed.

Lemma parse_string_body_length (s : jsstring) :
  forall body rest,
    parse_string_body s = Some (body, rest) -> (length rest < length s)%nat.
Proof.
  assert (Hgen : forall n s, (length s <= n)%nat ->
            forall body rest,
              parse_string_body s = Some (body, rest) ->
              (length rest < length s)%nat).
  { induction n as [|n IH]; intros s0 Hn body rest H;
      destruct s0 as [|c s1]; simpl in H; try discriminate;
      simpl in Hn; [lia|].
    destruct (c =? 34).
    - injection H as _ <-. simpl. lia.
    - destruct (c =? 92).
      + destruct s1 as [|e s2]; [discriminate|].
        destruct (e =? 117).
        * destruct s2 as [|h1 [|h2 [|h3 [|h4 s3]]]]; try discriminate.
          destruct (hex4 h1 h2 h3 h4); [|discriminate].
          destruct (parse_string_body s3) as [[b r]|] eqn:E; [|discriminate].
          injection H as _ <-. apply IH in E; simpl in *; lia.
        * destruct (unescape e); [|discriminate].
          destruct (parse_string_body s2) as [[b r]|] eqn:E; [|discriminate].
          injection H as _ <-. apply IH in E; simpl in *; lia.
      + destruct (c <? 32); [discriminate|].
        destruct (parse_string_body s1) as [[b r]|] eqn:E; [|discriminate].
        injection H as _ <-. apply IH in E; simpl in *; lia. }
  apply (Hgen (length s)). lia.
Qed.

Lemma parse_atom_progress (s : jsstring) :
  parse_atom s <> OutOfFuel /\
  forall v rest, parse_atom s = Parsed v rest -> (length rest < length s)%nat.
Proof.
  unfold parse_atom.
  destruct (strip_prefix (str "true") s) as [r|] eqn:Ht.
  { apply strip_prefix_length in Ht. simpl in Ht.
    split; [discriminate|]. intros v rest H; injection H as _ <-. lia. }
  destruct (strip_prefix (str "false") s) as [r|] eqn:Hf.
  { apply strip_prefix_length in Hf. simpl in Hf.
    split; [discriminate|]. intros v rest H; injection H as _ <-. lia. }
  destruct (strip_prefix (str "null") s) as [r|] eqn:Hn.
  { apply strip_prefix_length in Hn. simpl in Hn.
    split; [discriminate|]. intros v rest H; injection H as _ <-. lia. }
  destruct (parse_number s) as [[lexeme r]|] eqn:Hnum.
  { apply parse_number_length in Hnum.
    split; [discriminate|]. intros v rest H; injection H as _ <-. lia. }
  split; [discriminate|]. discriminate.
Qed.

Lemma progresses_syntax_error (s : jsstring) : progresses SyntaxErr s.
Proof. split; discriminate. Qed.

Lemma progresses_parsed (v : json) (rest s : jsstring) :
  (length rest < length s)%nat -> progresses (Parsed v rest) s.
Proof.
  intros H. split; [discriminate|]. intros v' rest' E. injection E as _ <-. exact H.
Qed.

Lemma progresses_shorter (r : presult) (s s' : jsstring) :
  (length s <= length s')%nat -> progresses r s -> progresses r s'.
Proof.
  intros Hl [Hf Hp]. split; [exact Hf|].
  intros v rest E. specialize (Hp _ _ E). lia.
Qed.

Lemma parse_fuel_enough (fuel : nat) :
  (forall s, (2 * length s < fuel)%nat -> progresses (parse_value fuel s) s)
  /\ (forall s acc, (2 * length s + 1 < fuel)%nat ->
        progresses (parse_elements fuel s acc) s)
  /\ (forall s acc, (2 * length s + 1 < fuel)%nat ->
        progresses (parse_members fuel s acc) s).
Proof.
  induction fuel as [|fuel (IHv & IHe & IHm)].
  { repeat split; intros; lia. }
  split; [|split].
  - intros s Hf. simpl.
    destruct (skip_ws s) as [|c s1] eqn:Hs; [apply progresses_syntax_error|].
    apply skip_ws_cons in Hs.
    destruct (c =? 91).
    { destruct (skip_ws s1) as [|c2 s2] eqn:Hs1; [apply progresses_syntax_error|].
      apply skip_ws_cons in Hs1.
      destruct (c2 =? 93); [apply progresses_parsed; lia|].
      apply (progresses_shorter _ (c2 :: s2)); [simpl; lia|].
      apply IHe. simpl. lia. }
    destruct (c =? 123).
    { destruct (skip_ws s1) as [|c2 s2] eqn:Hs1; [apply progresses_syntax_error|].
      apply skip_ws_cons in Hs1.
      destruct (c2 =? 125); [apply progresses_parsed; lia|].
      apply (progresses_shorter _ (c2 :: s2)); [simpl; lia|].
      apply IHm. simpl. lia. }
    destruct (c =? 34).
    { destruct (parse_string_body s1) as [[body rest]|] eqn:Hb;
        [|apply progresses_syntax_error].
      apply parse_string_body_length in Hb. apply progresses_parsed. lia. }
    apply (progresses_shorter _ (c :: s1)); [simpl; lia|].
    apply parse_atom_progress.
  - intros s acc Hf. simpl.
    destruct (IHv s) as [Hnf Hlen]; [lia|].
    destruct (parse_value fuel s) as [v rest| |] eqn:Hv;
      [|apply progresses_syntax_error|congruence].
    specialize (Hlen _ _ eq_refl).
    destruct (skip_ws rest) as [|c rest'] eqn:Hs; [apply progresses_syntax_error|].
    apply skip_ws_cons in Hs.
    destruct (c =? 44).
    { apply (progresses_shorter _ rest'); [lia|]. apply IHe. lia. }
    destruct (c =? 93); [apply progresses_parsed; lia|apply progresses_syntax_error].
  - intros s acc Hf. simpl.
    destruct (skip_ws s) as [|c s1] eqn:Hs; [apply progresses_syntax_error|].
    apply skip_ws_cons in Hs.
    destruct (c =? 34); [|apply progresses_syntax_error].
    destruct (parse_string_body s1) as [[key rest]|] eqn:Hb;
      [|apply progresses_syntax_error].
    apply parse_string_body_length in Hb.
    destruct (skip_ws rest) as [|c2 s2] eqn:Hs2; [apply progresses_syntax_error|].
    apply skip_ws_cons in Hs2.
    destruct (c2 =? 58); [|apply progresses_syntax_error].
    destruct (IHv s2) as [Hnf Hlen]; [lia|].
    destruct (parse_value fuel s2) as [v rest2| |] eqn:Hv;
      [|apply progresses_syntax_error|congruence].
    specialize (Hlen _ _ eq_refl).
    destruct (skip_ws rest2) as [|c3 s3] eqn:Hs3; [apply progresses_syntax_error|].
    apply skip_ws_cons in Hs3.
    destruct (c3 =? 44).
    { apply (progresses_shorter _ s3); [lia|]. apply IHm. lia. }
    destruct (c3 =? 125); [apply progresses_parsed; lia|apply progresses_syntax_error].
Qed.

(** [JSON_parse] decides its input: its fuel is never used up. *)
Lemma JSON_parse_fuel (s : jsstring) : parse_value (parse_fuel s) s <> OutOfFuel.
Proof.
  destruct (parse_fuel_enough (parse_fuel s)) as (Hv & _).
  apply Hv. unfold parse_fuel. lia.
Qed.

(** [JSON_parse] fails only on a syntax error, or on text left after the
    value. *)
Lemma JSON_parse_none (s : jsstring) :
  JSON_parse s = None <->
  parse_value (parse_fuel s) s = SyntaxErr \/
  exists v rest,
    parse_value (parse_fuel s) s = Parsed v rest /\ skip_ws rest <> [].
Proof.
  unfold JSON_parse. assert (Hf := JSON_parse_fuel s).
  destruct (parse_value (parse_fuel s) s) as [v rest| |] eqn:Hp.
  - destruct (skip_ws rest) as [|c r] eqn:Hs.
    + split; [discriminate|]. intros [H|(v' & r & H & Hs')]; [discriminate|].
      injection H as _ <-. congruence.
    + split; [|reflexivity]. intros _. right.
      exists v, rest. split; [reflexivity|]. congruence.
  - split; [auto|reflexivity].
  - congruence.
Qed.

(** ** Further examples *)

(** The patterns are matched on one line only where they use [.]. *)
Example refusal_pattern_violates_policy :
  isContentRefusal (str "This request violates our content policy.") = true
  /\ isContentRefusal (str "It violates the rules." ++ [nl] ++ str "Our policy is strict.")
     = false.
Proof. split; vm_compute; reflexivity. Qed.

(** A refusal word that straddles character 200 is cut and goes unseen. *)
Example refusal_pattern_straddles_limit :
  isContentRefusal (repeat 120 197 ++ str "harmful") = false
  /\ isContentRefusal (repeat 120 193 ++ str "harmful") = true.
Proof. split; vm_compute; reflexivity. Qed.

Example JSON_parse_values :
  JSON_parse (str "[" ++ quoted "a" ++ str ", -1.5e3, true, null, {"
                ++ quoted "k" ++ str ": []}]")
  = Some (JArray [ JString (str "a"); JNumber (str "-1.5e3"); JBool true; JNull;
                   JObject [ (str "k", JArray []) ] ])
  /\ JSON_parse (quoted "caf\u00e9\n") = Some (JString (str "caf" ++ [233; 10]))
  /\ JSON_parse (str "[1,]") = None
  /\ JSON_parse (str "{'a': 1}") = None
  /\ JSON_parse (str "01") = None
  /\ JSON_parse (str "[1] trailing") = None.
Proof. repeat split; vm_compute; reflexivity. Qed.

(** A negative count makes [slice] drop elements from the end, and an
    element that is not a string makes the whole tag list empty. *)
Example generateTags_edge_cases :
  fst (generateTags (str "content") (-1) (answering example_tags_completion))
  = Return [str "react"; str "node.js"]
  /\ fst (generateTags (str "content") 5
            (answering (str "[" ++ quoted "react" ++ str ", 42]")))
     = Return []
  /\ fst (generateTags (str "content") 1
            (answering (str "[" ++ quoted " React " ++ str ", 42]")))
     = Return [str "react"].
Proof. repeat split; vm_compute; reflexivity. Qed.

(** The greedy span runs to the last closing brace: two objects in one
    completion do not parse, and the improve operation echoes its input. *)
Example improveText_two_objects :
  fst (improveText (str "Text")
         (answering (str "{" ++ quoted "improved" ++ str ": 1} or {"
                       ++ quoted "improved" ++ str ": 2}")))
  = Return (improveText_default (str "Text")).
Proof. vm_compute. reflexivity. Qed.

(** The fallback model answers after the primary model failed. *)
Example fallback_model_answers :
  let w := scripted [Rejected (Some (str "rate limit")) None;
                     Resolved (Some (str "Expanded text."))] in
  fst (expandText (str "Text") (str "casual") w) = Return (str "Expanded text.")
  /\ List.map model (calls (snd (expandText (str "Text") (str "casual") w)))
     = [MODELS.BALANCED; FALLBACK_MODEL].
Proof. split; vm_compute; reflexivity. Qed.

(* ================================================================== *)
(** * Part III. Further properties of the service *)
(* ================================================================== *)

(** ** The outcomes of the Completion Invoker *)

(** The seven ways an invocation can go. *)
Ltac invoker_cases sp up m w :=
  let text := fresh "text" in
  let message := fresh "message" in
  let code := fresh "code" in
  let Hg := fresh "Hg" in
  let Hr := fresh "Hr" in
  let Hf := fresh "Hf" in
  let Hm := fresh "Hm" in
  let Hg' := fresh "Hg'" in
  let Hr' := fresh "Hr'" in
  destruct (groq w (calls w) (completion_request sp up m))
    as [text|message code] eqn:Hg;
  [ destruct (isContentRefusal (or_empty text)) eqn:Hr;
    [ rewrite (makeCompletion_primary_refusal sp up m w text Hg Hr)
    | rewrite (makeCompletion_primary_ok sp up m w text Hg Hr) ]
  | destruct (is_api_content_filter message code) eqn:Hf;
    [ rewrite (makeCompletion_primary_filtered sp up m w message code Hg Hf)
    | destruct (streqb m FALLBACK_MODEL) eqn:Hm;
      [ apply streqb_eq in Hm;
        rewrite (makeCompletion_no_retry sp up m w message code Hg Hf Hm)
      | apply streqb_neq in Hm;
        rewrite (makeCompletion_retry sp up m w message code Hg Hf Hm);
        destruct (groq w (calls w ++ [completion_request sp up m])
                    (completion_request sp up FALLBACK_MODEL))
          as [text|message' code'] eqn:Hg';
        [ destruct (isContentRefusal (or_empty text)) eqn:Hr' | ] ] ] ].

Lemma refusal_message_not_filtered_message : refusal_message <> filtered_message.
Proof. intros H. vm_compute in H. discriminate. Qed.

Lemma is_api_content_filter_iff (message code : option jsstring) :
  is_api_content_filter message code = true <->
  (exists m, message = Some m
             /\ (includes m (str "content_filter") = true
                 \/ includes m (str "moderation") = true))
  \/ code = Some (str "content_policy_violation").
Proof.
  unfold is_api_content_filter, opt_includes, opt_equals.
  rewrite !orb_true_iff. split.
  - intros [[H|H]|H].
    + destruct message as [m|]; [|discriminate]. left. eauto.
    + destruct message as [m|]; [|discriminate]. left. eauto.
    + destruct code as [c|]; [|discriminate]. right.
      apply streqb_eq in H. now subst.
  - intros [(m & -> & [H|H]) | ->]; auto.
Qed.

(** X1. When the provider rejects the primary call with a message that
    contains 'content_filter' or 'moderation', or with the code
    'content_policy_violation', [makeCompletion] raises
    ContentModerationError ("Your content was flagged by safety filters.
    ...") after that single call: no fallback is tried, whatever the
    model. *)
Theorem makeCompletion_provider_content_filter
    (systemPrompt userPrompt model : jsstring) (w : World)
    (message code : option jsstring) :
  groq w (calls w) (completion_request systemPrompt userPrompt model)
  = Rejected message code ->
  (exists m, message = Some m
             /\ (includes m (str "content_filter") = true
                 \/ includes m (str "moderation") = true))
  \/ code = Some (str "content_policy_violation") ->
  fst (makeCompletion systemPrompt userPrompt model w)
  = Throw (ContentModerationError
             (str "Your content was flagged by safety filters. Please modify your content and try again."))
  /\ calls (snd (makeCompletion systemPrompt userPrompt model w))
     = calls w ++ [completion_request systemPrompt userPrompt model].
Proof.
  intros Hg Hf. apply is_api_content_filter_iff in Hf.
  rewrite (makeCompletion_primary_filtered _ _ _ _ _ _ Hg Hf). split; reflexivity.
Qed.

Lemma makeCompletion_provider_content_filter_witness :
  let w := scripted [Rejected (Some (str "Request blocked by moderation layer")) None;
                     Resolved (Some (str "never asked"))] in
  fst (makeCompletion (str "system") (str "user") MODELS.BALANCED w)
  = Throw (ContentModerationError filtered_message)
  /\ calls (snd (makeCompletion (str "system") (str "user") MODELS.BALANCED w))
     = [completion_request (str "system") (str "user") MODELS.BALANCED].
Proof.
  intros w.
  apply (makeCompletion_provider_content_filter (str "system") (str "user")
           MODELS.BALANCED w (Some (str "Request blocked by moderation layer")) None).
  - reflexivity.
  - left. exists (str "Request blocked by moderation layer").
    split; [reflexivity|]. right. vm_compute. reflexivity.
Defined.

(** X2. After a primary failure that is not content filtering, with a
    primary model other than the fallback model, the answer of the fallback
    model is treated like a primary answer as far as its text goes: a text
    that is not a refusal is returned, a refusal raises
    ContentModerationError.  A rejection of the fallback call is not looked
    into: even one that names content filtering raises
    'AI service temporarily unavailable'. *)
Theorem makeCompletion_fallback_answer
    (systemPrompt userPrompt model : jsstring) (w : World)
    (message code : option jsstring) :
  let run := makeCompletion systemPrompt userPrompt model w in
  let primary := completion_request systemPrompt userPrompt model in
  let fallback := completion_request systemPrompt userPrompt FALLBACK_MODEL in
  groq w (calls w) primary = Rejected message code ->
  is_api_content_filter message code = false ->
  model <> FALLBACK_MODEL ->
  (forall text,
     groq w (calls w ++ [primary]) fallback = Resolved text ->
     isContentRefusal (or_empty text) = false ->
     fst run = Return (or_empty text))
  /\ (forall text,
        groq w (calls w ++ [primary]) fallback = Resolved text ->
        isContentRefusal (or_empty text) = true ->
        fst run = Throw (ContentModerationError refusal_message))
  /\ (forall message' code',
        groq w (calls w ++ [primary]) fallback = Rejected message' code' ->
        is_api_content_filter message' code' = true ->
        fst run = Throw (Error unavailable_message)).
Proof.
  intros run primary fallback Hg Hf Hm. unfold run.
  rewrite (makeCompletion_retry _ _ _ _ _ _ Hg Hf Hm). fold primary fallback.
  repeat split.
  - intros text Hg' Hr. now rewrite Hg', Hr.
  - intros text Hg' Hr. now rewrite Hg', Hr.
  - intros m' c' Hg' _. now rewrite Hg'.
Qed.

Lemma makeCompletion_fallback_answer_witness :
  let w := scripted [Rejected (Some (str "rate limit")) None;
                     Rejected (Some (str "content_filter triggered")) None] in
  fst (makeCompletion (str "system") (str "user") MODELS.BALANCED w)
  = Throw (Error unavailable_message).
Proof.
  intros w.
  destruct (makeCompletion_fallback_answer (str "system") (str "user")
              MODELS.BALANCED w (Some (str "rate limit")) None)
    as (_ & _ & H).
  - reflexivity.
  - reflexivity.
  - discriminate.
  - apply (H (Some (str "content_filter triggered")) None); reflexivity.
Defined.

(** X3. What [makeCompletion] returns is the text the provider gave in
    answer to the last call, unchanged ('' when the text is missing), and
    that text is not classified as a refusal: it is the answer to the
    primary call, or, after a primary failure, the answer to the fallback
    call. *)
Theorem makeCompletion_returns_provider_text
    (systemPrompt userPrompt model : jsstring) (w : World) (response : jsstring) :
  let primary := completion_request systemPrompt userPrompt model in
  let fallback := completion_request systemPrompt userPrompt FALLBACK_MODEL in
  fst (makeCompletion systemPrompt userPrompt model w) = Return response ->
  isContentRefusal response = false
  /\ ((exists text,
         groq w (calls w) primary = Resolved text /\ response = or_empty text)
      \/ (exists message code text,
            groq w (calls w) primary = Rejected message code
            /\ model <> FALLBACK_MODEL
            /\ groq w (calls w ++ [primary]) fallback = Resolved text
            /\ response = or_empty text)).
Proof.
  intros primary fallback.
  invoker_cases systemPrompt userPrompt model w; simpl; intros H;
    try discriminate; injection H as <-.
  - split; [assumption|]. left. eauto.
  - split; [assumption|]. right. exists message, code, text. auto.
Qed.

Lemma makeCompletion_returns_provider_text_witness :
  isContentRefusal (str "Expanded text.") = false.
Proof.
  apply (makeCompletion_returns_provider_text (str "system") (str "user")
           MODELS.BALANCED
           (scripted [Rejected None None; Resolved (Some (str "Expanded text."))])).
  vm_compute. reflexivity.
Defined.

(** X4. The errors of [makeCompletion], each with the runs that raise it.
    ContentModerationError with the "flagged by safety filters" message:
    the provider rejected the primary call on content grounds.
    ContentModerationError with the "safety guidelines" message: the text
    of the primary answer, or of the fallback answer, is a refusal.  The
    error 'AI service temporarily unavailable': the primary call failed
    otherwise and there was no fallback to try, or the fallback call was
    rejected.  Nothing else is ever raised. *)
Theorem makeCompletion_error_table
    (systemPrompt userPrompt model : jsstring) (w : World) :
  let run := makeCompletion systemPrompt userPrompt model w in
  let primary := completion_request systemPrompt userPrompt model in
  let fallback := completion_request systemPrompt userPrompt FALLBACK_MODEL in
  (fst run = Throw (ContentModerationError filtered_message) <->
   exists message code,
     groq w (calls w) primary = Rejected message code
     /\ is_api_content_filter message code = true)
  /\ (fst run = Throw (ContentModerationError refusal_message) <->
      (exists text,
         groq w (calls w) primary = Resolved text
         /\ isContentRefusal (or_empty text) = true)
      \/ (exists message code text,
            groq w (calls w) primary = Rejected message code
            /\ is_api_content_filter message code = false
            /\ model <> FALLBACK_MODEL
            /\ groq w (calls w ++ [primary]) fallback = Resolved text
            /\ isContentRefusal (or_empty text) = true))
  /\ (fst run = Throw (Error unavailable_message) <->
      exists message code,
        groq w (calls w) primary = Rejected message code
        /\ is_api_content_filter message code = false
        /\ (model = FALLBACK_MODEL
            \/ exists message' code',
                 groq w (calls w ++ [primary]) fallback = Rejected message' code'))
  /\ (forall e, fst run = Throw e ->
        e = ContentModerationError filtered_message
        \/ e = ContentModerationError refusal_message
        \/ e = Error unavailable_message).
Proof.
  intros run primary fallback. subst run primary fallback.
  assert (Hne := refusal_message_not_filtered_message).
  invoker_cases systemPrompt userPrompt model w; simpl.
  - (* refusal on the primary call *)
    repeat split; try (intros H; injection H; congruence); try discriminate.
    + intros (m & c & H & _). congruence.
    + intros _. left. eauto.
    + intros (m & c & H & _). congruence.
    + intros e H. injection H as <-. auto.
  - (* the primary call answered *)
    repeat split; try discriminate.
    + intros (m & c & H & _). congruence.
    + intros [(t & H & Hr')|(m & c & t & H & _)]; congruence.
    + intros (m & c & H & _). congruence.
  - (* content filter on the primary call *)
    repeat split; try (intros H; injection H; congruence); try discriminate.
    + intros _. eauto.
    + intros [(t & H & _)|(m & c & t & H & Hf' & _)]; congruence.
    + intros (m & c & H & Hf' & _). congruence.
    + intros e H. injection H as <-. auto.
  - (* no fallback to try *)
    repeat split; try (intros H; injection H; congruence); try discriminate.
    + intros (m & c & H & Hf'). congruence.
    + intros [(t & H & _)|(m & c & t & H & _ & Hm' & _)]; congruence.
    + intros _. exists message, code. auto.
    + intros e H. injection H as <-. auto.
  - (* refusal on the fallback call *)
    repeat split; try (intros H; injection H; congruence); try discriminate.
    + intros (m & c & H & Hf'). congruence.
    + intros _. right. exists message, code, text. auto.
    + intros (m & c & H & _ & [Hm'|(m' & c' & H')]); congruence.
    + intros e H. injection H as <-. auto.
  - (* the fallback call answered *)
    repeat split; try discriminate.
    + intros (m & c & H & Hf'). congruence.
    + intros [(t & H & _)|(m & c & t & H & _ & _ & H' & Hr'')]; congruence.
    + intros (m & c & H & _ & [Hm'|(m' & c' & H')]); congruence.
  - (* the fallback call was rejected *)
    repeat split; try (intros H; injection H; congruence); try discriminate.
    + intros (m & c & H & Hf'). congruence.
    + intros [(t & H & _)|(m & c & t & H & _ & _ & H' & _)]; congruence.
    + intros _. exists message, code. split; [reflexivity|]. split; [assumption|].
      right. eauto.
    + intros e H. injection H as <-. auto.
Qed.

Lemma makeCompletion_error_table_witness :
  fst (makeCompletion (str "system") (str "user") MODELS.FAST
         (scripted [Rejected (Some (str "connection reset")) None]))
  = Throw (Error unavailable_message).
Proof.
  destruct (makeCompletion_error_table (str "system") (str "user") MODELS.FAST
              (scripted [Rejected (Some (str "connection reset")) None]))
    as (_ & _ & [_ H] & _).
  apply H. exists (Some (str "connection reset")), None.
  split; [reflexivity|]. split; [reflexivity|]. left. reflexivity.
Defined.

(** ** How many provider calls an operation makes *)

Lemma makeCompletion_fast_one_call (systemPrompt userPrompt : jsstring) (w : World) :
  snd (makeCompletion systemPrompt userPrompt MODELS.FAST w)
  = issue w [completion_request systemPrompt userPrompt MODELS.FAST].
Proof.
  invoker_cases systemPrompt userPrompt MODELS.FAST w; try reflexivity;
    exfalso; apply Hm; reflexivity.
Qed.

(** X5. The fast model is the fallback model, so the six operations that
    run on it (tags, summary, titles, tone change, grammar check, category)
    make exactly one provider call each, whatever the provider answers: for
    them there is no retry.  The three operations on the balanced model
    (expansion, improvement, continuation) make one call, or two with the
    second one to the fallback model and with the same prompts. *)
Theorem provider_calls_per_operation
    (content text tone length : jsstring) (maxTags count sentences : Z) (w : World) :
  calls (snd (generateTags content maxTags w))
  = calls w ++ [completion_request (generateTags_systemPrompt maxTags)
                  (generateTags_userPrompt content) MODELS.FAST]
  /\ calls (snd (generateSummary content length w))
     = calls w ++ [completion_request (generateSummary_systemPrompt length)
                     (generateSummary_userPrompt content) MODELS.FAST]
  /\ calls (snd (generateTitles content count w))
     = calls w ++ [completion_request (generateTitles_systemPrompt count)
                     (generateTitles_userPrompt content count) MODELS.FAST]
  /\ calls (snd (changeTone text tone w))
     = calls w ++ [completion_request (changeTone_systemPrompt tone) text MODELS.FAST]
  /\ calls (snd (grammarCheck text w))
     = calls w ++ [completion_request grammarCheck_systemPrompt text MODELS.FAST]
  /\ calls (snd (getCategory content w))
     = calls w ++ [completion_request getCategory_systemPrompt
                     (getCategory_userPrompt content) MODELS.FAST]
  /\ (let primary := completion_request (expandText_systemPrompt tone) text
                       MODELS.BALANCED in
      let fallback := completion_request (expandText_systemPrompt tone) text
                        (str "llama-3.1-8b-instant") in
      calls (snd (expandText text tone w)) = calls w ++ [primary]
      \/ calls (snd (expandText text tone w)) = calls w ++ [primary; fallback])
  /\ (let primary := completion_request improveText_systemPrompt text
                       MODELS.BALANCED in
      let fallback := completion_request improveText_systemPrompt text
                        (str "llama-3.1-8b-instant") in
      calls (snd (improveText text w)) = calls w ++ [primary]
      \/ calls (snd (improveText text w)) = calls w ++ [primary; fallback])
  /\ (let primary := completion_request (continueWriting_systemPrompt sentences)
                       text MODELS.BALANCED in
      let fallback := completion_request (continueWriting_systemPrompt sentences)
                        text (str "llama-3.1-8b-instant") in
      calls (snd (continueWriting text sentences w)) = calls w ++ [primary]
      \/ calls (snd (continueWriting text sentences w))
         = calls w ++ [primary; fallback]).
Proof.
  repeat match goal with |- _ /\ _ => split end.
  - rewrite generateTags_world, makeCompletion_fast_one_call. reflexivity.
  - unfold generateSummary. rewrite makeCompletion_fast_one_call. reflexivity.
  - rewrite generateTitles_world, makeCompletion_fast_one_call. reflexivity.
  - unfold changeTone. rewrite makeCompletion_fast_one_call. reflexivity.
  - rewrite grammarCheck_world, makeCompletion_fast_one_call. reflexivity.
  - rewrite getCategory_world, makeCompletion_fast_one_call. reflexivity.
  - intros primary fallback. unfold expandText.
    destruct (makeCompletion_calls (expandText_systemPrompt tone) text
                MODELS.BALANCED w) as [H|H]; rewrite H; [left|right]; reflexivity.
  - intros primary fallback. rewrite improveText_world.
    destruct (makeCompletion_calls improveText_systemPrompt text
                MODELS.BALANCED w) as [H|H]; rewrite H; [left|right]; reflexivity.
  - intros primary fallback. unfold continueWriting.
    destruct (makeCompletion_calls (continueWriting_systemPrompt sentences) text
                MODELS.BALANCED w) as [H|H]; rewrite H; [left|right]; reflexivity.
Qed.

(** ** Title generation *)

(** X6. Once [makeCompletion] has returned a completion, [generateTitles]
    takes the span from the first '[' through the last ']' and, when it is
    JSON, returns its first [count] elements (for [count >= 0]) in order and
    as they were parsed: unlike tags, titles are neither lower-cased nor
    trimmed, and an element that is not a string is returned all the same.
    With no such span, or a span that is not JSON, the result is the empty
    array. *)
Theorem generateTitles_extraction
    (content : jsstring) (count : Z) (w w' : World) (response : jsstring) :
  makeCompletion (generateTitles_systemPrompt count)
                 (generateTitles_userPrompt content count) MODELS.FAST w
  = (Return response, w') ->
  (forall span elements,
     greedy_span lbracket rbracket response span ->
     JSON_parse span = Some (JArray elements) ->
     (0 <= count)%Z ->
     generateTitles content count w
     = (Return (firstn (Z.to_nat count) elements), w')
     /\ (length (firstn (Z.to_nat count) elements) <= Z.to_nat count)%nat)
  /\ (~ has_span lbracket rbracket response ->
      generateTitles content count w = (Return [], w'))
  /\ (forall span,
        greedy_span lbracket rbracket response span ->
        JSON_parse span = None ->
        generateTitles content count w = (Return [], w')).
Proof.
  intros H. rewrite (generateTitles_completed _ _ _ _ _ H).
  split; [|split].
  - intros span elements Hspan Hparse Hcount. split; [|apply firstn_le_length].
    apply match_json_array in Hspan. rewrite Hspan, Hparse.
    now rewrite slice0_nonneg.
  - intros Hno. apply match_json_array_none in Hno. now rewrite Hno.
  - intros span Hspan Hparse. apply match_json_array in Hspan.
    now rewrite Hspan, Hparse.
Qed.

Lemma generateTitles_extraction_witness :
  fst (generateTitles (str "A post.") 2
         (answering (str "Titles: [" ++ quoted " Learn React " ++ str ", 7, "
                       ++ quoted "Third" ++ str "]")))
  = Return [JString (str " Learn React "); JNumber (str "7")].
Proof.
  pose (completion := str "Titles: [" ++ quoted " Learn React " ++ str ", 7, "
                        ++ quoted "Third" ++ str "]").
  destruct (generateTitles_extraction (str "A post.") 2 (answering completion)
              (issue (answering completion)
                 [completion_request (generateTitles_systemPrompt 2)
                    (generateTitles_userPrompt (str "A post.") 2) MODELS.FAST])
              completion) as (Hparsed & _).
  - vm_compute. reflexivity.
  - destruct (Hparsed (skipn 8 completion)
                [JString (str " Learn React "); JNumber (str "7");
                 JString (str "Third")]) as [Hrun _].
    + exists (str "Titles: "), (removelast (skipn 9 completion)), [].
      split; [vm_compute; reflexivity|].
      split; [vm_compute; intuition discriminate|].
      split; [intros []|vm_compute; reflexivity].
    + vm_compute. reflexivity.
    + lia.
    + fold completion. rewrite Hrun. reflexivity.
Defined.

(** ** What a tag looks like *)

Lemma lower_char_idempotent (c : char) : lower_char (lower_char c) = lower_char c.
Proof.
  unfold lower_char.
  destruct ((65 <=? c) && (c <=? 90)) eqn:H; [|now rewrite H].
  apply andb_true_iff in H as [H1 H2].
  apply N.leb_le in H1. apply N.leb_le in H2.
  replace (c + 32 <=? 90) with false by (symmetry; apply N.leb_gt; lia).
  now rewrite andb_false_r.
Qed.

Lemma toLowerCase_idempotent (s : jsstring) :
  toLowerCase (toLowerCase s) = toLowerCase s.
Proof.
  unfold toLowerCase. rewrite map_map. apply map_ext. apply lower_char_idempotent.
Qed.

Lemma is_trimmed_char_lower (c : char) :
  is_trimmed_char (lower_char c) = is_trimmed_char c.
Proof.
  unfold lower_char.
  destruct ((65 <=? c) && (c <=? 90)) eqn:H; [|reflexivity].
  apply andb_true_iff in H as [H1 H2].
  apply N.leb_le in H1. apply N.leb_le in H2.
  unfold is_trimmed_char, is_white_space, is_line_terminator.
  repeat match goal with
         | |- context [?a =? ?b] =>
             replace (a =? b) with false by (symmetry; apply N.eqb_neq; lia)
         | |- context [?a <=? 8202] =>
             replace (a <=? 8202) with true by (symmetry; apply N.leb_le; lia)
         | |- context [8192 <=? ?a] =>
             replace (8192 <=? a) with false by (symmetry; apply N.leb_gt; lia)
         end.
  reflexivity.
Qed.

Lemma trimStart_toLowerCase (s : jsstring) :
  trimStart (toLowerCase s) = toLowerCase (trimStart s).
Proof.
  induction s as [|c s IH]; simpl; [reflexivity|].
  rewrite is_trimmed_char_lower. destruct (is_trimmed_char c); [exact IH|reflexivity].
Qed.

Lemma trim_toLowerCase (s : jsstring) :
  trim (toLowerCase s) = toLowerCase (trim s).
Proof.
  unfold trim, trimEnd. rewrite trimStart_toLowerCase.
  unfold toLowerCase at 1. rewrite <- map_rev.
  fold (toLowerCase (rev (trimStart s))).
  rewrite trimStart_toLowerCase. unfold toLowerCase. now rewrite map_rev.
Qed.

Lemma trimStart_idempotent (s : jsstring) : trimStart (trimStart s) = trimStart s.
Proof.
  induction s as [|c s IH]; simpl; [reflexivity|].
  destruct (is_trimmed_char c) eqn:H; [exact IH|]. simpl. now rewrite H.
Qed.

Lemma trimStart_snoc (u : jsstring) (x : char) :
  is_trimmed_char x = false -> trimStart (u ++ [x]) = trimStart u ++ [x].
Proof.
  intros Hx. induction u as [|c u IH]; simpl.
  - now rewrite Hx.
  - destruct (is_trimmed_char c); [exact IH|reflexivity].
Qed.

(** Trimming the end leaves a text that starts with a character that is
    kept, so trimming its start again changes nothing. *)
Lemma trimStart_trimEnd (s : jsstring) :
  trimStart s = s -> trimStart (trimEnd s) = trimEnd s.
Proof.
  destruct s as [|x s]; [reflexivity|]. simpl.
  destruct (is_trimmed_char x) eqn:Hx.
  - intros H. exfalso.
    assert (Hl : (length (trimStart s) <= length s)%nat).
    { clear. induction s as [|c s IH]; simpl; [lia|].
      destruct (is_trimmed_char c); simpl; lia. }
    rewrite H in Hl. simpl in Hl. lia.
  - intros _. unfold trimEnd. simpl rev.
    rewrite (trimStart_snoc _ _ Hx), rev_app_distr. simpl. now rewrite Hx.
Qed.

Lemma trim_idempotent (s : jsstring) : trim (trim s) = trim s.
Proof.
  unfold trim.
  rewrite (trimStart_trimEnd _ (trimStart_idempotent s)).
  unfold trimEnd. now rewrite rev_involutive, trimStart_idempotent.
Qed.

Lemma Array_map_normalize_returns (a : list json) (w w' : World) (tags : list jsstring) :
  Array_map normalize_tag a w = (Return tags, w') ->
  exists texts, a = List.map JString texts
                /\ tags = List.map (fun tag => trim (toLowerCase tag)) texts.
Proof.
  destruct (forallb is_JString a) eqn:Hs.
  - assert (exists texts, a = List.map JString texts) as (texts & ->).
    { clear -Hs. induction a as [|v a IH].
      - exists []. reflexivity.
      - simpl in Hs. apply andb_true_iff in Hs as [Hv Ha].
        destruct (IH Ha) as (texts & ->). destruct v; try discriminate.
        exists (s :: texts). reflexivity. }
    rewrite Array_map_normalize_strings. intros H. injection H as <- _. eauto.
  - destruct (Array_map_normalize_fails a w Hs) as (e & ->). discriminate.
Qed.

Lemma generateTags_returns_normalized
    (content : jsstring) (maxTags : Z) (w : World) (tags : list jsstring) :
  fst (generateTags content maxTags w) = Return tags ->
  Forall (fun tag => toLowerCase tag = tag /\ trim tag = tag) tags
  /\ ((0 <= maxTags)%Z -> (length tags <= Z.to_nat maxTags)%nat).
Proof.
  destruct (makeCompletion (generateTags_systemPrompt maxTags)
              (generateTags_userPrompt content) MODELS.FAST w)
    as [[response|e] w'] eqn:H.
  - rewrite (generateTags_completed _ _ _ _ _ H).
    assert (Hnil : Forall (fun tag : jsstring => toLowerCase tag = tag /\ trim tag = tag) []
                   /\ ((0 <= maxTags)%Z -> (@length jsstring [] <= Z.to_nat maxTags)%nat)).
    { split; [constructor|simpl; lia]. }
    destruct (String_match response re_json_array) as [m|];
      [|simpl; intros E; injection E as <-; exact Hnil].
    destruct (JSON_parse m) as [[]|];
      try (simpl; intros E; injection E as <-; exact Hnil).
    destruct (Array_map normalize_tag (slice0 elements maxTags) w')
      as [[tags'|e] w''] eqn:Hmap;
      [|simpl; intros E; injection E as <-; exact Hnil].
    simpl. intros E; injection E as <-.
    destruct (Array_map_normalize_returns _ _ _ _ Hmap) as (texts & Hsl & ->).
    split.
    + apply Forall_forall. intros tag Hin. apply in_map_iff in Hin as (t & <- & _).
      split.
      * now rewrite <- trim_toLowerCase, toLowerCase_idempotent.
      * apply trim_idempotent.
    + intros Hpos. rewrite length_map, <- (length_map JString), <- Hsl.
      rewrite slice0_nonneg by exact Hpos. apply firstn_le_length.
  - unfold generateTags.
    rewrite (try_catch_default_throw _ _ _ _ _ (bind_throw _ _ _ _ _ H)).
    simpl. intros E; injection E as <-. split; [constructor|simpl; lia].
Qed.

(** X7. Every tag [generateTags] returns, in any world and for any
    [maxTags], is in normal form: lower-casing it or trimming it again
    changes nothing, so it holds no upper-case ASCII letter and neither
    starts nor ends with white space.  For [maxTags >= 0] there are at most
    [maxTags] tags. *)
Theorem generateTags_result_normalized
    (content : jsstring) (maxTags : Z) (w : World) (tags : list jsstring) :
  fst (generateTags content maxTags w) = Return tags ->
  Forall (fun tag => toLowerCase tag = tag /\ trim tag = tag) tags
  /\ ((0 <= maxTags)%Z -> (length tags <= Z.to_nat maxTags)%nat).
Proof. apply generateTags_returns_normalized. Qed.

Lemma generateTags_result_normalized_witness :
  Forall (fun tag => toLowerCase tag = tag /\ trim tag = tag)
         [str "react"; str "node.js"]
  /\ (length [str "react"; str "node.js"] <= 2)%nat.
Proof.
  destruct (generateTags_result_normalized (str "A post.") 2
              (answering example_tags_completion) [str "react"; str "node.js"])
    as [Hnorm Hlen].
  - vm_compute. reflexivity.
  - split; [exact Hnorm|]. apply Hlen. lia.
Defined.

Lemma slice0_negative {A : Type} (a : list A) (e : Z) :
  (e < 0)%Z -> slice0 a e = firstn (length a - Z.to_nat (- e)) a.
Proof.
  intros H. unfold slice0. apply Z.ltb_lt in H. now rewrite H.
Qed.

(** X8. A negative [maxTags] is not an empty request: [slice(0, maxTags)]
    then drops the last [-maxTags] elements of the parsed array, and
    [generateTags] returns all the others (when they are strings, of ASCII
    characters), lower-cased and trimmed.  The same holds for a negative
    [count] in [generateTitles], which returns the others as parsed. *)
Theorem negative_count_drops_from_the_end
    (content : jsstring) (n : Z) (w w' : World) (response span : jsstring)
    (elements : list json) :
  (n < 0)%Z ->
  greedy_span lbracket rbracket response span ->
  JSON_parse span = Some (JArray elements) ->
  (makeCompletion (generateTags_systemPrompt n)
                  (generateTags_userPrompt content) MODELS.FAST w
   = (Return response, w') ->
   forall texts,
     firstn (length elements - Z.to_nat (- n)) elements = List.map JString texts ->
     ascii_texts texts = true ->
     generateTags content n w
     = (Return (List.map (fun tag => trim (toLowerCase tag)) texts), w'))
  /\ (makeCompletion (generateTitles_systemPrompt n)
                     (generateTitles_userPrompt content n) MODELS.FAST w
      = (Return response, w') ->
      generateTitles content n w
      = (Return (firstn (length elements - Z.to_nat (- n)) elements), w')).
Proof.
  intros Hneg Hspan Hparse. apply match_json_array in Hspan. split.
  - intros H texts Htexts _. rewrite (generateTags_completed _ _ _ _ _ H).
    rewrite Hspan, Hparse, slice0_negative, Htexts by exact Hneg.
    now rewrite Array_map_normalize_strings.
  - intros H. rewrite (generateTitles_completed _ _ _ _ _ H).
    now rewrite Hspan, Hparse, slice0_negative.
Qed.

Lemma negative_count_drops_from_the_end_witness :
  fst (generateTags (str "A post.") (-1) (answering example_tags_completion))
  = Return [str "react"; str "node.js"].
Proof.
  destruct (negative_count_drops_from_the_end (str "A post.") (-1)
              (answering example_tags_completion)
              (issue (answering example_tags_completion)
                 [completion_request (generateTags_systemPrompt (-1))
                    (generateTags_userPrompt (str "A post.")) MODELS.FAST])
              example_tags_completion (skipn 15 example_tags_completion)
              [JString (str "react"); JString (str "Node.js");
               JString (str "Web-Dev")]) as [Htags _].
  - lia.
  - exists (str "Here are tags: "),
      (removelast (skipn 16 example_tags_completion)), [].
    split; [vm_compute; reflexivity|].
    split; [vm_compute; intuition discriminate|].
    split; [intros []|vm_compute; reflexivity].
  - vm_compute. reflexivity.
  - rewrite (Htags eq_refl [str "react"; str "Node.js"] eq_refl eq_refl).
    reflexivity.
Defined.

(** ** Categorization never leaves the closed set *)

Lemma getCategory_in_categories (content : jsstring) (w : World) :
  exists category,
    fst (getCategory content w) = Return category
    /\ In category categories
    /\ (forall e,
          fst (makeCompletion getCategory_systemPrompt
                 (getCategory_userPrompt content) MODELS.FAST w) = Throw e ->
          category = str "Other").
Proof.
  destruct (makeCompletion getCategory_systemPrompt
              (getCategory_userPrompt content) MODELS.FAST w)
    as [[response|e] w'] eqn:H.
  - rewrite (getCategory_completed _ _ _ _ H). eexists. split; [reflexivity|].
    split; [|discriminate].
    destruct (find_category (trim response)) as [c|] eqn:Hf.
    + now apply find_category_some in Hf.
    + vm_compute. intuition.
  - unfold getCategory.
    rewrite (try_catch_default_throw _ _ _ _ _ (bind_throw _ _ _ _ _ H)).
    eexists. split; [reflexivity|]. split; [vm_compute; intuition|reflexivity].
Qed.

(** X9. Whatever the provider does (answer, refuse, fail), [getCategory]
    returns one of the 20 fixed categories and raises nothing; when
    [makeCompletion] raises, the category is "Other". *)
Theorem getCategory_closed_set (content : jsstring) (w : World) :
  exists category,
    fst (getCategory content w) = Return category
    /\ In category categories
    /\ (forall e,
          fst (makeCompletion getCategory_systemPrompt
                 (getCategory_userPrompt content) MODELS.FAST w) = Throw e ->
          category = str "Other").
Proof. apply getCategory_in_categories. Qed.

(* ================================================================== *)
(** * Part IV. The routes *)
(* ================================================================== *)

Lemma handleAIError_throws (error : exn) (defaultMessage : jsstring) (w : World) :
  handleAIError error defaultMessage w
  = (Throw (TypeError (str "Right-hand side of 'instanceof' is not an object")), w).
Proof. reflexivity. Qed.

(** A handler body that has passed its checks: the operation, then the
    response built from its result, under the [catch] of the handler. *)
Lemma route_run {A : Type} (op : M A) (respond : A -> Response)
    (defaultMessage : jsstring) (w : World) :
  try_catch (bind op (fun x => ret (respond x)))
            (fun error => handleAIError error defaultMessage) w
  = match op w with
    | (Return x, w') => (Return (respond x), w')
    | (Throw _, w') =>
        (Throw (TypeError (str "Right-hand side of 'instanceof' is not an object")), w')
    end.
Proof.
  unfold try_catch, bind. destruct (op w) as [[x|e] w']; reflexivity.
Qed.

Lemma route_rejects (r : Response) (defaultMessage : jsstring) (w : World) :
  try_catch (ret r) (fun error => handleAIError error defaultMessage) w
  = (Return r, w).
Proof. reflexivity. Qed.

Ltac route_rejected :=
  rewrite route_rejects; intros E; injection E as <- <-;
  try reflexivity; try discriminate.

Ltac route_guard g :=
  cbv zeta; destruct g eqn:?; cbv beta iota; [route_rejected|].

Ltac route_ok :=
  rewrite route_run;
  match goal with
  | |- (let (_, _) := ?op in _) = _ -> _ =>
      destruct op as [[?x|?e] ?w1]; intros E;
      [injection E as <- <-; try discriminate|discriminate]
  end.

(** X10. A handler of the AI routes that answers 400 (missing or blank
    input, text too short or too long, unknown summary length or tone) has
    made no provider call; so has the availability check when it answers
    503. *)
Theorem rejected_requests_make_no_call
    (content text length tone : option jsstring) (maxTags count sentences : option Z)
    (w w' : World) (r : Response) :
  (post_tags content maxTags w = (Return r, w') -> status r = 400%Z -> w' = w)
  /\ (post_summary content length w = (Return r, w') -> status r = 400%Z -> w' = w)
  /\ (post_titles content count w = (Return r, w') -> status r = 400%Z -> w' = w)
  /\ (post_expand text tone w = (Return r, w') -> status r = 400%Z -> w' = w)
  /\ (post_improve text w = (Return r, w') -> status r = 400%Z -> w' = w)
  /\ (post_tone text tone w = (Return r, w') -> status r = 400%Z -> w' = w)
  /\ (post_continue text sentences w = (Return r, w') -> status r = 400%Z -> w' = w)
  /\ (post_grammar text w = (Return r, w') -> status r = 400%Z -> w' = w)
  /\ (post_category content w = (Return r, w') -> status r = 400%Z -> w' = w)
  /\ (post_analyze content w = (Return r, w') -> status r = 400%Z -> w' = w)
  /\ (forall key next,
        isAvailable key = false ->
        checkAIAvailable key next w = (Return r, w') ->
        status r = 503%Z /\ w' = w).
Proof.
  repeat match goal with |- _ /\ _ => split end.
  - unfold post_tags. route_guard (missing_or_blank content).
    route_guard (List.length (or_empty content) <? 50)%nat.
    route_ok.
  - unfold post_summary. route_guard (missing_or_blank content).
    route_guard (negb (Array_includes [str "short"; str "medium"; str "long"]
                         (default_to (str "short") length))).
    route_ok.
  - unfold post_titles. route_guard (missing_or_blank content).
    route_ok.
  - unfold post_expand. route_guard (missing_or_blank text).
    route_guard (2000 <? List.length (or_empty text))%nat.
    route_ok.
  - unfold post_improve. route_guard (missing_or_blank text).
    route_guard (5000 <? List.length (or_empty text))%nat.
    route_ok.
  - unfold post_tone. route_guard (missing_or_blank text).
    cbv zeta. destruct tone as [[|c t]|]; cbv beta iota;
      [route_rejected| |route_rejected].
    route_guard (negb (Array_includes validTones (c :: t))).
    route_guard (3000 <? List.length (or_empty text))%nat.
    route_ok.
  - unfold post_continue. route_guard (missing_or_blank text).
    route_guard (List.length (or_empty text) <? 20)%nat.
    route_ok.
  - unfold post_grammar. route_guard (missing_or_blank text).
    route_guard (5000 <? List.length (or_empty text))%nat.
    route_ok.
  - unfold post_category. route_guard (missing_or_blank content).
    route_ok.
  - unfold post_analyze. route_guard (missing_or_blank content).
    route_guard (List.length (or_empty content) <? 100)%nat.
    unfold try_catch, bind.
    destruct (Promise_both _ _ w) as [[[tags [summary [category titles]]]|e] w1];
      intros E; [injection E as <- <-; discriminate|discriminate].
  - intros key next Hkey. unfold checkAIAvailable. rewrite Hkey. simpl.
    intros E. injection E as <- <-. split; reflexivity.
Qed.

Lemma rejected_requests_make_no_call_witness :
  snd (post_expand (Some (repeat 97 2001)) None (answering (str "Expanded.")))
  = answering (str "Expanded.").
Proof.
  destruct (rejected_requests_make_no_call None (Some (repeat 97 2001)) None None
              None None None (answering (str "Expanded."))
              (snd (post_expand (Some (repeat 97 2001)) None
                      (answering (str "Expanded."))))
              (bad_request (str "Text must be under 2000 characters for expansion")))
    as (_ & _ & _ & Hexpand & _).
  apply Hexpand; vm_compute; reflexivity.
Defined.

(** ** What reaches the provider through the routes *)

Lemma route_run_world {A : Type} (op : M A) (respond : A -> Response)
    (defaultMessage : jsstring) (w : World) :
  snd (try_catch (bind op (fun x => ret (respond x)))
                 (fun error => handleAIError error defaultMessage) w)
  = snd (op w).
Proof. rewrite route_run. destruct (op w) as [[x|e] w']; reflexivity. Qed.

Lemma makeCompletion_requests
    (systemPrompt userPrompt model : jsstring) (w : World) (request : Request) :
  In request (calls (snd (makeCompletion systemPrompt userPrompt model w))) ->
  In request (calls w) \/ userPrompt_of request = userPrompt.
Proof.
  destruct (makeCompletion_calls systemPrompt userPrompt model w) as [H|H];
    rewrite H; simpl; intros Hin; apply in_app_or in Hin as [Hin|Hin]; auto;
    simpl in Hin; intuition (subst; auto).
Qed.

Ltac route_blank g :=
  cbv zeta; destruct g eqn:?; cbv beta iota;
  [rewrite route_rejects; simpl; auto|].

(** X11. Through the routes the provider only sees validated text.  Every
    request that [POST /expand], [/improve], [/grammar] or [/tone] issues
    carries the submitted text, unchanged, as its user prompt, and that text
    is at most 2000, 5000, 5000 and 3000 characters long; every request
    that [POST /continue] issues carries a text of at least 20 characters,
    and [POST /tags] only asks for tags of a content of at least 50
    characters.  In each case the text is not blank. *)
Theorem route_prompt_bounds
    (content text tone : option jsstring) (maxTags sentences : option Z)
    (w : World) (request : Request) :
  (In request (calls (snd (post_expand text tone w))) ->
   In request (calls w)
   \/ (userPrompt_of request = or_empty text
       /\ (length (or_empty text) <= 2000)%nat
       /\ missing_or_blank text = false))
  /\ (In request (calls (snd (post_improve text w))) ->
      In request (calls w)
      \/ (userPrompt_of request = or_empty text
          /\ (length (or_empty text) <= 5000)%nat
          /\ missing_or_blank text = false))
  /\ (In request (calls (snd (post_grammar text w))) ->
      In request (calls w)
      \/ (userPrompt_of request = or_empty text
          /\ (length (or_empty text) <= 5000)%nat
          /\ missing_or_blank text = false))
  /\ (In request (calls (snd (post_tone text tone w))) ->
      In request (calls w)
      \/ (userPrompt_of request = or_empty text
          /\ (length (or_empty text) <= 3000)%nat
          /\ missing_or_blank text = false
          /\ In (or_empty tone) validTones))
  /\ (In request (calls (snd (post_continue text sentences w))) ->
      In request (calls w)
      \/ (userPrompt_of request = or_empty text
          /\ (20 <= length (or_empty text))%nat
          /\ missing_or_blank text = false))
  /\ (In request (calls (snd (post_tags content maxTags w))) ->
      In request (calls w)
      \/ (userPrompt_of request = generateTags_userPrompt (or_empty content)
          /\ (50 <= length (or_empty content))%nat
          /\ missing_or_blank content = false)).
Proof.
  repeat match goal with |- _ /\ _ => split end.
  - unfold post_expand. route_blank (missing_or_blank text).
    route_blank (2000 <? List.length (or_empty text))%nat.
    rewrite route_run_world. unfold expandText. intros Hin.
    apply makeCompletion_requests in Hin as [Hin|Hin]; [now left|right].
    apply Nat.ltb_ge in Heqb0. auto.
  - unfold post_improve. route_blank (missing_or_blank text).
    route_blank (5000 <? List.length (or_empty text))%nat.
    rewrite route_run_world, improveText_world. intros Hin.
    apply makeCompletion_requests in Hin as [Hin|Hin]; [now left|right].
    apply Nat.ltb_ge in Heqb0. auto.
  - unfold post_grammar. route_blank (missing_or_blank text).
    route_blank (5000 <? List.length (or_empty text))%nat.
    rewrite route_run_world, grammarCheck_world. intros Hin.
    apply makeCompletion_requests in Hin as [Hin|Hin]; [now left|right].
    apply Nat.ltb_ge in Heqb0. auto.
  - unfold post_tone. route_blank (missing_or_blank text).
    cbv zeta. destruct tone as [[|c t]|]; cbv beta iota;
      [rewrite route_rejects; simpl; auto| |rewrite route_rejects; simpl; auto].
    route_blank (negb (Array_includes validTones (c :: t))).
    route_blank (3000 <? List.length (or_empty text))%nat.
    rewrite route_run_world. unfold changeTone. intros Hin.
    apply makeCompletion_requests in Hin as [Hin|Hin]; [now left|right].
    apply Nat.ltb_ge in Heqb1. apply negb_false_iff in Heqb0.
    unfold Array_includes in Heqb0. apply existsb_exists in Heqb0 as (x & Hx & E).
    apply streqb_eq in E. simpl or_empty at 3. rewrite E. auto.
  - unfold post_continue. route_blank (missing_or_blank text).
    route_blank (List.length (or_empty text) <? 20)%nat.
    rewrite route_run_world. unfold continueWriting. intros Hin.
    apply makeCompletion_requests in Hin as [Hin|Hin]; [now left|right].
    apply Nat.ltb_ge in Heqb0. auto.
  - unfold post_tags. route_blank (missing_or_blank content).
    route_blank (List.length (or_empty content) <? 50)%nat.
    rewrite route_run_world, generateTags_world. intros Hin.
    apply makeCompletion_requests in Hin as [Hin|Hin]; [now left|right].
    apply Nat.ltb_ge in Heqb0. auto.
Qed.

Lemma route_prompt_bounds_witness :
  userPrompt_of (completion_request (expandText_systemPrompt (str "professional"))
                   (str "Expand this short text.") FALLBACK_MODEL)
  = str "Expand this short text."
  /\ (length (str "Expand this short text.") <= 2000)%nat.
Proof.
  destruct (route_prompt_bounds None (Some (str "Expand this short text.")) None
              None None (scripted [Rejected None None])
              (completion_request (expandText_systemPrompt (str "professional"))
                 (str "Expand this short text.") FALLBACK_MODEL))
    as (Hexpand & _).
  destruct Hexpand as [[]|(E & Hlen & _)].
  - vm_compute. right. left. reflexivity.
  - split; [exact E|exact Hlen].
Defined.

(** ** Routes that always answer *)

Lemma generateTags_total (content : jsstring) (maxTags : Z) (w : World) :
  exists tags, generateTags content maxTags w
               = (Return tags, snd (generateTags content maxTags w)).
Proof.
  destruct (try_catch_default_total
              (bind (makeCompletion (generateTags_systemPrompt maxTags)
                       (generateTags_userPrompt content) MODELS.FAST)
                    (fun response =>
                       match String_match response re_json_array with
                       | Some jsonMatch =>
                           bind (JSON_parse_M jsonMatch) (fun tags =>
                           bind (Array_slice0 tags maxTags) (fun sliced =>
                           Array_map normalize_tag sliced))
                       | None => ret []
                       end)) [] w) as (tags & H).
  exists tags. fold (generateTags content maxTags) in H.
  destruct (generateTags content maxTags w) as [r w']. simpl in *. now subst.
Qed.

Lemma generateTitles_total (content : jsstring) (count : Z) (w : World) :
  exists titles,
    generateTitles content count w
    = (Return titles, snd (generateTitles content count w))
    /\ ((0 <= count)%Z -> (length titles <= Z.to_nat count)%nat).
Proof.
  destruct (makeCompletion (generateTitles_systemPrompt count)
              (generateTitles_userPrompt content count) MODELS.FAST w)
    as [[response|e] w'] eqn:H.
  - rewrite (generateTitles_completed _ _ _ _ _ H).
    destruct (String_match response re_json_array) as [m|];
      [|exists []; split; [reflexivity|simpl; lia]].
    destruct (JSON_parse m) as [[]|];
      try (exists []; split; [reflexivity|simpl; lia]).
    eexists. split; [reflexivity|]. intros Hc.
    rewrite slice0_nonneg by exact Hc. apply firstn_le_length.
  - unfold generateTitles.
    rewrite (try_catch_default_throw _ _ _ _ _ (bind_throw _ _ _ _ _ H)).
    exists []. split; [reflexivity|simpl; lia].
Qed.

Lemma getCategory_total (content : jsstring) (w : World) :
  exists category,
    getCategory content w = (Return category, snd (getCategory content w))
    /\ In category categories.
Proof.
  destruct (getCategory_in_categories content w) as (category & H & Hin & _).
  exists category. split; [|exact Hin].
  destruct (getCategory content w) as [r w']. simpl in *. now subst.
Qed.

Lemma improveText_total (text : jsstring) (w : World) :
  exists result, improveText text w = (Return result, snd (improveText text w)).
Proof.
  destruct (try_catch_default_total
              (bind (makeCompletion improveText_systemPrompt text MODELS.BALANCED)
                    (fun response =>
                       match String_match response re_json_object with
                       | Some jsonMatch => JSON_parse_M jsonMatch
                       | None => ret (improveText_default text)
                       end)) (improveText_default text) w) as (v & H).
  exists v. fold (improveText text) in H.
  destruct (improveText text w) as [r w']. simpl in *. now subst.
Qed.

Lemma grammarCheck_total (text : jsstring) (w : World) :
  exists result, grammarCheck text w = (Return result, snd (grammarCheck text w)).
Proof.
  destruct (try_catch_default_total
              (bind (makeCompletion grammarCheck_systemPrompt text MODELS.FAST)
                    (fun response =>
                       match String_match response re_json_object with
                       | Some jsonMatch => JSON_parse_M jsonMatch
                       | None => ret (grammarCheck_default text)
                       end)) (grammarCheck_default text) w) as (v & H).
  exists v. fold (grammarCheck text) in H.
  destruct (grammarCheck text w) as [r w']. simpl in *. now subst.
Qed.

(** X12. For an input that passes their checks, [POST /tags], [/titles],
    [/category], [/improve] and [/grammar] answer 200 in every world: a
    refusal by the model or an outage of the provider never shows as 422 or
    503 on these routes, it shows as an empty list, the echo of the input
    or "Other".  The tags answer carries at most 10 tags when [maxTags] is
    missing or not negative, with [count] their number; the titles answer
    likewise; the category is one of the 20 fixed ones. *)
Theorem advisory_routes_always_answer
    (content : jsstring) (maxTags count : option Z) (w : World) :
  missing_or_blank (Some content) = false ->
  ((50 <= length content)%nat ->
   exists tags,
     fst (post_tags (Some content) maxTags w)
     = Return (res_json
                 (JObject [ (str "success", JBool true);
                            (str "tags", JArray (List.map JString tags));
                            (str "count", jnumber (length tags)) ]))
     /\ ((0 <= default_to 5 maxTags)%Z -> (length tags <= 10)%nat))
  /\ (exists titles,
        fst (post_titles (Some content) count w)
        = Return (res_json
                    (JObject [ (str "success", JBool true);
                               (str "titles", JArray titles);
                               (str "count", jnumber (length titles)) ]))
        /\ ((0 <= default_to 5 count)%Z -> (length titles <= 10)%nat))
  /\ (exists category,
        fst (post_category (Some content) w)
        = Return (res_json
                    (JObject [ (str "success", JBool true);
                               (str "category", JString category) ]))
        /\ In category categories)
  /\ ((length content <= 5000)%nat ->
      (exists r, fst (post_improve (Some content) w) = Return r /\ status r = 200%Z)
      /\ (exists r, fst (post_grammar (Some content) w) = Return r
                    /\ status r = 200%Z)).
Proof.
  intros Hblank. repeat match goal with |- _ /\ _ => split end.
  - intros Hlen. unfold post_tags. cbv zeta. rewrite Hblank. cbv beta iota.
    apply Nat.ltb_ge in Hlen. simpl or_empty. rewrite Hlen. rewrite route_run.
    destruct (generateTags_total content (Z.min (default_to 5%Z maxTags) 10) w)
      as (tags & Hrun).
    assert (Hn := generateTags_returns_normalized content
                    (Z.min (default_to 5%Z maxTags) 10) w tags).
    rewrite Hrun in *. exists tags. split; [reflexivity|].
    intros Hpos. destruct (Hn eq_refl) as [_ Hb].
    assert (Hle : (length tags <= Z.to_nat (Z.min (default_to 5%Z maxTags) 10))%nat)
      by (apply Hb; lia).
    lia.
  - unfold post_titles. cbv zeta. rewrite Hblank. cbv beta iota.
    simpl or_empty. rewrite route_run.
    destruct (generateTitles_total content (Z.min (default_to 5%Z count) 10) w)
      as (titles & Hrun & Hb).
    rewrite Hrun. exists titles. split; [reflexivity|].
    intros Hpos.
    assert (Hle : (length titles <= Z.to_nat (Z.min (default_to 5%Z count) 10))%nat)
      by (apply Hb; lia).
    lia.
  - unfold post_category. rewrite Hblank. cbv beta iota zeta.
    simpl or_empty. rewrite route_run.
    destruct (getCategory_total content w) as (category & Hrun & Hin).
    rewrite Hrun. exists category. split; [reflexivity|exact Hin].
  - intros Hlen. apply Nat.ltb_ge in Hlen. split.
    + unfold post_improve. rewrite Hblank. cbv beta iota zeta.
      simpl or_empty. rewrite Hlen, route_run.
      destruct (improveText_total content w) as (result & Hrun).
      rewrite Hrun. eexists. split; reflexivity.
    + unfold post_grammar. rewrite Hblank. cbv beta iota zeta.
      simpl or_empty. rewrite Hlen, route_run.
      destruct (grammarCheck_total content w) as (result & Hrun).
      rewrite Hrun. eexists. split; reflexivity.
Qed.

Lemma advisory_routes_always_answer_witness :
  exists tags,
    fst (post_tags (Some sample_content) None
           (answering (str "I cannot help with that request.")))
    = Return (res_json
                (JObject [ (str "success", JBool true);
                           (str "tags", JArray (List.map JString tags));
                           (str "count", jnumber (length tags)) ]))
    /\ (length tags <= 10)%nat.
Proof.
  destruct (advisory_routes_always_answer sample_content None None
              (answering (str "I cannot help with that request.")))
    as (Htags & _).
  - vm_compute. reflexivity.
  - destruct Htags as (tags & Hrun & Hlen).
    + vm_compute. lia.
    + exists tags. split; [exact Hrun|]. apply Hlen. vm_compute. discriminate.
Defined.

(** ** The error handler of the AI routes *)

(** X13. The object that aiService.js exports has no member
    ContentModerationError: the assignment to [module.exports] at the end
    of the file replaces the object on which the name had been set.  In
    routes/ai.js the name is therefore undefined, and [handleAIError],
    whose first test is [error instanceof ContentModerationError], throws a
    TypeError for every error instead of sending 422, 503 or 500.  So when
    the provider fails or refuses during [POST /summary], [/expand],
    [/tone] or [/continue], the handler is rejected and sends no
    response. *)
Theorem ai_error_handler_sends_nothing :
  routes_ContentModerationError = false
  /\ (forall error defaultMessage w,
        handleAIError error defaultMessage w
        = (Throw (TypeError (str "Right-hand side of 'instanceof' is not an object")), w))
  /\ (forall content length w w' e,
        missing_or_blank (Some content) = false ->
        Array_includes [str "short"; str "medium"; str "long"]
          (default_to (str "short") length) = true ->
        generateSummary content (default_to (str "short") length) w = (Throw e, w') ->
        post_summary (Some content) length w
        = (Throw (TypeError (str "Right-hand side of 'instanceof' is not an object")), w'))
  /\ (forall text tone w w' e,
        missing_or_blank (Some text) = false ->
        (length text <= 2000)%nat ->
        expandText text (default_to (str "professional") tone) w = (Throw e, w') ->
        post_expand (Some text) tone w
        = (Throw (TypeError (str "Right-hand side of 'instanceof' is not an object")), w'))
  /\ (forall text tone w w' e,
        missing_or_blank (Some text) = false ->
        In tone validTones ->
        (length text <= 3000)%nat ->
        changeTone text tone w = (Throw e, w') ->
        post_tone (Some text) (Some tone) w
        = (Throw (TypeError (str "Right-hand side of 'instanceof' is not an object")), w'))
  /\ (forall text sentences w w' e,
        missing_or_blank (Some text) = false ->
        (20 <= length text)%nat ->
        continueWriting text (Z.min (default_to 3%Z sentences) 10) w = (Throw e, w') ->
        post_continue (Some text) sentences w
        = (Throw (TypeError (str "Right-hand side of 'instanceof' is not an object")), w')).
Proof.
  split; [reflexivity|]. split; [reflexivity|].
  repeat match goal with |- _ /\ _ => split end.
  - intros content len w w' e Hblank Hlen Hrun.
    unfold post_summary. cbv zeta. rewrite Hblank. cbv beta iota.
    simpl or_empty. rewrite Hlen. cbv beta iota. simpl negb. cbv beta iota.
    rewrite route_run, Hrun. reflexivity.
  - intros text tone w w' e Hblank Hlen Hrun.
    unfold post_expand. cbv zeta. rewrite Hblank. cbv beta iota.
    simpl or_empty. apply Nat.ltb_ge in Hlen. rewrite Hlen.
    rewrite route_run, Hrun. reflexivity.
  - intros text tone w w' e Hblank Htone Hlen Hrun.
    unfold post_tone. rewrite Hblank. cbv beta iota zeta.
    assert (Hne : exists c t, tone = c :: t).
    { destruct tone as [|c t]; [|eauto]. vm_compute in Htone. intuition discriminate. }
    destruct Hne as (c & t & ->).
    assert (Hinc : Array_includes validTones (c :: t) = true).
    { unfold Array_includes. apply existsb_exists. exists (c :: t).
      split; [exact Htone|]. now apply streqb_eq. }
    rewrite Hinc. simpl negb. cbv beta iota. simpl or_empty.
    apply Nat.ltb_ge in Hlen. rewrite Hlen.
    rewrite route_run, Hrun. reflexivity.
  - intros text sentences w w' e Hblank Hlen Hrun.
    unfold post_continue. cbv zeta. rewrite Hblank. cbv beta iota.
    simpl or_empty. apply Nat.ltb_ge in Hlen. rewrite Hlen.
    rewrite route_run, Hrun. reflexivity.
Qed.

Lemma ai_error_handler_sends_nothing_witness :
  fst (post_summary (Some sample_content) None
         (answering (str "I cannot help with that request.")))
  = Throw (TypeError (str "Right-hand side of 'instanceof' is not an object")).
Proof.
  destruct ai_error_handler_sends_nothing as (_ & _ & Hsummary & _).
  rewrite (Hsummary sample_content None
             (answering (str "I cannot help with that request."))
             (issue (answering (str "I cannot help with that request."))
                [completion_request (generateSummary_systemPrompt (str "short"))
                   (generateSummary_userPrompt sample_content) MODELS.FAST])
             (ContentModerationError refusal_message)).
  - reflexivity.
  - vm_compute. reflexivity.
  - vm_compute. reflexivity.
  - vm_compute. reflexivity.
Defined.

(** ** The plain-text routes relay the provider's text *)

(** X14. [POST /summary] and [POST /expand] hand the provider's text to the
    client unchanged.  When the provider answers the (primary) call with a
    text that is not a refusal, the response is 200 with that very text as
    [summary] (with the length that was asked for) or as [expanded] (with
    the lengths of the submitted and of the returned text), after exactly
    one provider call. *)
Theorem plain_text_routes_relay
    (content : jsstring) (length tone : option jsstring) (w : World) (text : jsstring) :
  missing_or_blank (Some content) = false ->
  isContentRefusal text = false ->
  (Array_includes [str "short"; str "medium"; str "long"]
     (default_to (str "short") length) = true ->
   groq w (calls w)
     (completion_request (generateSummary_systemPrompt (default_to (str "short") length))
        (generateSummary_userPrompt content) MODELS.FAST) = Resolved (Some text) ->
   post_summary (Some content) length w
   = (Return (res_json
                (JObject [ (str "success", JBool true);
                           (str "summary", JString text);
                           (str "length", JString (default_to (str "short") length)) ])),
      issue w [completion_request
                 (generateSummary_systemPrompt (default_to (str "short") length))
                 (generateSummary_userPrompt content) MODELS.FAST]))
  /\ ((List.length content <= 2000)%nat ->
      groq w (calls w)
        (completion_request (expandText_systemPrompt (default_to (str "professional") tone))
           content MODELS.BALANCED) = Resolved (Some text) ->
      post_expand (Some content) tone w
      = (Return (res_json
                   (JObject [ (str "success", JBool true);
                              (str "expanded", JString text);
                              (str "originalLength", jnumber (List.length content));
                              (str "expandedLength", jnumber (List.length text)) ])),
         issue w [completion_request
                    (expandText_systemPrompt (default_to (str "professional") tone))
                    content MODELS.BALANCED])).
Proof.
  intros Hblank Hr. split.
  - intros Hlen Hg. unfold post_summary. cbv zeta. rewrite Hblank. cbv beta iota.
    simpl or_empty. rewrite Hlen. simpl negb. cbv beta iota.
    rewrite route_run. unfold generateSummary.
    rewrite (makeCompletion_primary_ok _ _ _ _ _ Hg Hr). reflexivity.
  - intros Hlen Hg. unfold post_expand. cbv zeta. rewrite Hblank. cbv beta iota.
    simpl or_empty. apply Nat.ltb_ge in Hlen. rewrite Hlen.
    rewrite route_run. unfold expandText.
    rewrite (makeCompletion_primary_ok _ _ _ _ _ Hg Hr). reflexivity.
Qed.

Lemma plain_text_routes_relay_witness :
  fst (post_summary (Some sample_content) (Some (str "medium"))
         (answering (str "A post on React and Node.js.")))
  = Return (res_json
              (JObject [ (str "success", JBool true);
                         (str "summary", JString (str "A post on React and Node.js."));
                         (str "length", JString (str "medium")) ])).
Proof.
  destruct (plain_text_routes_relay sample_content (Some (str "medium")) None
              (answering (str "A post on React and Node.js."))
              (str "A post on React and Node.js.")) as [Hsummary _].
  - vm_compute. reflexivity.
  - vm_compute. reflexivity.
  - rewrite Hsummary; reflexivity.
Defined.

(** ** The composite operations *)

Lemma generateTags_run (content : jsstring) (maxTags : Z) (w : World) :
  exists tags,
    generateTags content maxTags w
    = (Return tags,
       issue w [completion_request (generateTags_systemPrompt maxTags)
                  (generateTags_userPrompt content) MODELS.FAST])
    /\ ((0 <= maxTags)%Z -> (length tags <= Z.to_nat maxTags)%nat).
Proof.
  destruct (generateTags_total content maxTags w) as (tags & H).
  exists tags. split.
  - rewrite H. f_equal. rewrite generateTags_world.
    apply makeCompletion_fast_one_call.
  - apply (generateTags_returns_normalized content maxTags w tags).
    now rewrite H.
Qed.

Lemma getCategory_run (content : jsstring) (w : World) :
  exists category,
    getCategory content w
    = (Return category,
       issue w [completion_request getCategory_systemPrompt
                  (getCategory_userPrompt content) MODELS.FAST])
    /\ In category categories.
Proof.
  destruct (getCategory_total content w) as (category & H & Hin).
  exists category. split; [|exact Hin].
  rewrite H. f_equal. rewrite getCategory_world.
  apply makeCompletion_fast_one_call.
Qed.

Lemma generateTitles_run (content : jsstring) (count : Z) (w : World) :
  exists titles,
    generateTitles content count w
    = (Return titles,
       issue w [completion_request (generateTitles_systemPrompt count)
                  (generateTitles_userPrompt content count) MODELS.FAST])
    /\ ((0 <= count)%Z -> (length titles <= Z.to_nat count)%nat).
Proof.
  destruct (generateTitles_total content count w) as (titles & H & Hb).
  exists titles. split; [|exact Hb].
  rewrite H. f_equal. rewrite generateTitles_world.
  apply makeCompletion_fast_one_call.
Qed.

Lemma generateSummary_run (content length : jsstring) (w : World) :
  snd (generateSummary content length w)
  = issue w [completion_request (generateSummary_systemPrompt length)
               (generateSummary_userPrompt content) MODELS.FAST].
Proof. apply makeCompletion_fast_one_call. Qed.

Lemma issue_issue (w : World) (a b : list Request) :
  issue (issue w a) b = issue w (a ++ b).
Proof. unfold issue. simpl. now rewrite app_assoc. Qed.

(** X15. [POST /analyze], for a content of at least 100 characters that is
    not blank, issues exactly four provider calls, in the order tags,
    summary, category, titles.  Whether it answers depends on the summary
    alone: when summarization raises, the handler is rejected and sends
    nothing, and the tags, category and titles that were computed are lost;
    when summarization returns, the answer is 200 with the four results, at
    most 5 tags, at most 3 titles and a category of the fixed set. *)
Theorem analyze_all_or_nothing (content : jsstring) (w : World) :
  let tagsRequest := completion_request (generateTags_systemPrompt 5)
                       (generateTags_userPrompt content) MODELS.FAST in
  let summaryRequest := completion_request (generateSummary_systemPrompt (str "short"))
                          (generateSummary_userPrompt content) MODELS.FAST in
  let categoryRequest := completion_request getCategory_systemPrompt
                           (getCategory_userPrompt content) MODELS.FAST in
  let titlesRequest := completion_request (generateTitles_systemPrompt 3)
                         (generateTitles_userPrompt content 3) MODELS.FAST in
  missing_or_blank (Some content) = false ->
  (100 <= length content)%nat ->
  calls (snd (post_analyze (Some content) w))
  = calls w ++ [tagsRequest; summaryRequest; categoryRequest; titlesRequest]
  /\ (forall e,
        fst (generateSummary content (str "short") (issue w [tagsRequest])) = Throw e ->
        fst (post_analyze (Some content) w)
        = Throw (TypeError (str "Right-hand side of 'instanceof' is not an object")))
  /\ (forall summary,
        fst (generateSummary content (str "short") (issue w [tagsRequest]))
        = Return summary ->
        exists tags category titles,
          fst (post_analyze (Some content) w)
          = Return (res_json
                      (JObject
                         [ (str "success", JBool true);
                           (str "analysis",
                            JObject
                              [ (str "tags", JArray (List.map JString tags));
                                (str "summary", JString summary);
                                (str "category", JString category);
                                (str "titles", JArray titles) ]) ]))
          /\ (length tags <= 5)%nat /\ (length titles <= 3)%nat
          /\ In category categories).
Proof.
  intros tagsRequest summaryRequest categoryRequest titlesRequest Hblank Hlen.
  apply Nat.ltb_ge in Hlen.
  unfold post_analyze. rewrite Hblank. cbv beta iota zeta. simpl or_empty.
  rewrite Hlen. unfold try_catch, bind, Promise_both.
  destruct (generateTags_run content 5 w) as (tags & Htags & Htl).
  rewrite Htags. fold tagsRequest.
  assert (Hsw := generateSummary_run content (str "short") (issue w [tagsRequest])).
  destruct (generateSummary content (str "short") (issue w [tagsRequest]))
    as [rs w2]. simpl in Hsw. subst w2.
  destruct (getCategory_run content
              (issue (issue w [tagsRequest])
                 [completion_request (generateSummary_systemPrompt (str "short"))
                    (generateSummary_userPrompt content) MODELS.FAST]))
    as (category & Hcat & Hin).
  rewrite Hcat.
  destruct (generateTitles_run content 3
              (issue (issue (issue w [tagsRequest])
                        [completion_request (generateSummary_systemPrompt (str "short"))
                           (generateSummary_userPrompt content) MODELS.FAST])
                 [completion_request getCategory_systemPrompt
                    (getCategory_userPrompt content) MODELS.FAST]))
    as (titles & Htit & Htl3).
  rewrite Htit. rewrite !issue_issue.
  destruct rs as [summary|e]; simpl.
  - split; [reflexivity|]. split; [discriminate|].
    intros summary' E. injection E as <-.
    exists tags, category, titles. split; [reflexivity|].
    split; [apply Htl; lia|]. split; [apply Htl3; lia|exact Hin].
  - split; [reflexivity|]. split; [reflexivity|discriminate].
Qed.

Lemma analyze_all_or_nothing_witness :
  fst (post_analyze (Some analysis_content)
         (answering (str "I cannot help with that request.")))
  = Throw (TypeError (str "Right-hand side of 'instanceof' is not an object")).
Proof.
  destruct (analyze_all_or_nothing analysis_content
              (answering (str "I cannot help with that request.")))
    as (_ & Hfail & _).
  - vm_compute. reflexivity.
  - vm_compute. lia.
  - apply (Hfail (ContentModerationError refusal_message)).
    vm_compute. reflexivity.
Defined.

(** X16. The AI fields of a new blog post are all or nothing.  With
    [autoTag] false, the service not loaded, no API key, or a content
    shorter than 100 characters, no provider call is made and the post gets
    the caller's tags (or none), no summary, the category "Other" and
    [aiGenerated = false].  Otherwise tags given by the caller are kept and
    not asked for again (two provider calls instead of three); if
    summarization raises, the post still gets exactly those defaults, and
    the tags and category the model had produced are dropped; if it
    returns, the post gets the summary, a category of the fixed set, at
    most 5 generated tags and [aiGenerated = true].  The computation never
    raises. *)
Theorem blog_ai_fields_all_or_nothing
    (aiService_loaded : bool) (GROQ_API_KEY : option jsstring) (content : jsstring)
    (tags : option (list jsstring)) (autoTag : option bool) (w : World) :
  let run := blog_ai_fields aiService_loaded GROQ_API_KEY content tags autoTag w in
  let defaults := {| generatedTags := default_to [] tags;
                     generatedSummary := None;
                     generatedCategory := str "Other";
                     aiGenerated := false |} in
  let enabled := default_to true autoTag && aiService_loaded
                 && isAvailable GROQ_API_KEY && (100 <=? length content)%nat in
  let given := match tags with Some (_ :: _) => true | _ => false end in
  let tagsRequest := completion_request (generateTags_systemPrompt 5)
                       (generateTags_userPrompt content) MODELS.FAST in
  let summaryRequest := completion_request (generateSummary_systemPrompt (str "short"))
                          (generateSummary_userPrompt content) MODELS.FAST in
  let categoryRequest := completion_request getCategory_systemPrompt
                           (getCategory_userPrompt content) MODELS.FAST in
  let w1 := if given then w else issue w [tagsRequest] in
  (enabled = false -> run = (Return defaults, w))
  /\ (enabled = true ->
      snd run = issue w1 [summaryRequest; categoryRequest]
      /\ (forall e,
            fst (generateSummary content (str "short") w1) = Throw e ->
            fst run = Return defaults)
      /\ (forall summary,
            fst (generateSummary content (str "short") w1) = Return summary ->
            exists aiTags category,
              fst run = Return {| generatedTags := aiTags;
                                  generatedSummary := Some summary;
                                  generatedCategory := category;
                                  aiGenerated := true |}
              /\ In category categories
              /\ (given = true -> tags = Some aiTags)
              /\ (given = false -> (length aiTags <= 5)%nat))).
Proof.
  intros run defaults enabled given tagsRequest summaryRequest categoryRequest w1.
  subst run. unfold blog_ai_fields. cbv zeta. fold defaults. fold enabled.
  split; [intros ->; reflexivity|]. intros ->.
  unfold try_catch, bind, Promise_both.
  assert (Hfirst :
    exists aiTags,
      match tags with
      | Some (t :: ts) => ret (t :: ts)
      | _ => generateTags content 5
      end w = (Return aiTags, w1)
      /\ (given = true -> tags = Some aiTags)
      /\ (given = false -> (length aiTags <= 5)%nat)).
  { subst w1 given. destruct tags as [[|t ts]|].
    - destruct (generateTags_run content 5 w) as (aiTags & H & Hl).
      exists aiTags. split; [exact H|]. split; [discriminate|]. intros _. apply Hl. lia.
    - exists (t :: ts). split; [reflexivity|]. split; [reflexivity|discriminate].
    - destruct (generateTags_run content 5 w) as (aiTags & H & Hl).
      exists aiTags. split; [exact H|]. split; [discriminate|]. intros _. apply Hl. lia. }
  destruct Hfirst as (aiTags & Hfirst & Hgiven & Hlen).
  rewrite Hfirst.
  assert (Hsw := generateSummary_run content (str "short") w1).
  destruct (generateSummary content (str "short") w1) as [rs w2].
  simpl in Hsw. subst w2.
  destruct (getCategory_run content
              (issue w1 [completion_request (generateSummary_systemPrompt (str "short"))
                           (generateSummary_userPrompt content) MODELS.FAST]))
    as (category & Hcat & Hin).
  rewrite Hcat, issue_issue.
  destruct rs as [summary|e]; cbn [fst snd].
  - split; [reflexivity|]. split; [discriminate|].
    intros summary' E. injection E as <-.
    exists aiTags, category. auto.
  - split; [reflexivity|]. split; [reflexivity|discriminate].
Qed.

Lemma blog_ai_fields_all_or_nothing_witness :
  fst (blog_ai_fields true (Some (str "gsk_key")) analysis_content None None
         (scripted [Resolved (Some example_tags_completion);
                    Rejected (Some (str "rate limit")) None;
                    Resolved (Some (str "Technology"))]))
  = Return {| generatedTags := [];
              generatedSummary := None;
              generatedCategory := str "Other";
              aiGenerated := false |}.
Proof.
  destruct (blog_ai_fields_all_or_nothing true (Some (str "gsk_key"))
              analysis_content None None
              (scripted [Resolved (Some example_tags_completion);
                         Rejected (Some (str "rate limit")) None;
                         Resolved (Some (str "Technology"))]))
    as (_ & Henabled).
  destruct Henabled as (_ & Hfail & _).
  - vm_compute. reflexivity.
  - apply (Hfail (Error unavailable_message)). vm_compute. reflexivity.
Defined.

(** ** What the improve and grammar answers are made of *)

Lemma improveText_returns_object (text : jsstring) (w : World) (result : json) :
  fst (improveText text w) = Return result -> exists ms, result = JObject ms.
Proof.
  destruct (makeCompletion improveText_systemPrompt text MODELS.BALANCED w)
    as [[response|e] w'] eqn:H.
  - rewrite (improveText_completed _ _ _ _ H).
    destruct (String_match response re_json_object) as [m|] eqn:Hm.
    + apply match_json_object in Hm.
      destruct (greedy_span_head _ _ _ _ Hm) as (x & ->).
      destruct (JSON_parse (lbrace :: x)) as [v|] eqn:Hp; simpl; intros E;
        injection E as <-; [|unfold improveText_default; eauto].
      eapply JSON_parse_braced; eauto.
    + simpl. intros E. injection E as <-. unfold improveText_default. eauto.
  - unfold improveText.
    rewrite (try_catch_default_throw _ _ _ _ _ (bind_throw _ _ _ _ _ H)).
    simpl. intros E. injection E as <-. unfold improveText_default. eauto.
Qed.

Lemma grammarCheck_returns_object (text : jsstring) (w : World) (result : json) :
  fst (grammarCheck text w) = Return result -> exists ms, result = JObject ms.
Proof.
  destruct (makeCompletion grammarCheck_systemPrompt text MODELS.FAST w)
    as [[response|e] w'] eqn:H.
  - rewrite (grammarCheck_completed _ _ _ _ H).
    destruct (String_match response re_json_object) as [m|] eqn:Hm.
    + apply match_json_object in Hm.
      destruct (greedy_span_head _ _ _ _ Hm) as (x & ->).
      destruct (JSON_parse (lbrace :: x)) as [v|] eqn:Hp; simpl; intros E;
        injection E as <-; [|unfold grammarCheck_default; eauto].
      eapply JSON_parse_braced; eauto.
    + simpl. intros E. injection E as <-. unfold grammarCheck_default. eauto.
  - unfold grammarCheck.
    rewrite (try_catch_default_throw _ _ _ _ _ (bind_throw _ _ _ _ _ H)).
    simpl. intros E. injection E as <-. unfold grammarCheck_default. eauto.
Qed.

Lemma assoc_last_app_one (key k : jsstring) (v : json) (ms : list (jsstring * json)) :
  assoc_last key (ms ++ [(k, v)])
  = if streqb k key then Some v else assoc_last key ms.
Proof.
  induction ms as [|[k' v'] ms IH]; simpl.
  - reflexivity.
  - rewrite IH. destruct (streqb k key); [reflexivity|].
    destruct (assoc_last key ms); reflexivity.
Qed.

(** X17. The answers of [POST /improve] and [POST /grammar] are the
    object the service returned, spread after [success: true]: every member
    of that object reaches the client as it is, so a completion that has a
    member "success" overrides the flag of the route, and the answer says
    [success: true] only when the object has no such member.  In the
    grammar answer [errorCount] comes last and is always the one the route
    computed. *)
Theorem object_routes_spread_the_result (text : jsstring) (w : World) :
  missing_or_blank (Some text) = false ->
  (length text <= 5000)%nat ->
  (exists result r,
     fst (improveText text w) = Return result
     /\ fst (post_improve (Some text) w) = Return r
     /\ status r = 200%Z
     /\ forall key,
          get_field (body r) key
          = match get_field result key with
            | Some v => Some v
            | None => if streqb (str "success") key then Some (JBool true) else None
            end)
  /\ (exists result r,
        fst (grammarCheck text w) = Return result
        /\ fst (post_grammar (Some text) w) = Return r
        /\ status r = 200%Z
        /\ get_field (body r) (str "errorCount") = Some (errorCount result)
        /\ forall key,
             key <> str "errorCount" ->
             get_field (body r) key
             = match get_field result key with
               | Some v => Some v
               | None => if streqb (str "success") key then Some (JBool true) else None
               end).
Proof.
  intros Hblank Hlen. apply Nat.ltb_ge in Hlen. split.
  - unfold post_improve. rewrite Hblank. cbv beta iota zeta. simpl or_empty.
    rewrite Hlen, route_run.
    destruct (improveText_total text w) as (result & Hrun).
    destruct (improveText_returns_object text w result) as (ms & ->);
      [now rewrite Hrun|].
    rewrite Hrun. eexists. eexists. split; [reflexivity|].
    split; [reflexivity|]. split; [reflexivity|].
    intros key. simpl. destruct (assoc_last key ms); reflexivity.
  - unfold post_grammar. rewrite Hblank. cbv beta iota zeta. simpl or_empty.
    rewrite Hlen, route_run.
    destruct (grammarCheck_total text w) as (result & Hrun).
    destruct (grammarCheck_returns_object text w result) as (ms & ->);
      [now rewrite Hrun|].
    rewrite Hrun. eexists. eexists. split; [reflexivity|].
    split; [reflexivity|]. split; [reflexivity|].
    cbn [fst body res_json spread get_field].
    split.
    + cbn [assoc_last]. rewrite assoc_last_app_one.
      replace (streqb (str "errorCount") (str "errorCount")) with true
        by (symmetry; now apply streqb_eq).
      reflexivity.
    + intros key Hkey. cbn [assoc_last]. rewrite assoc_last_app_one.
      replace (streqb (str "errorCount") key) with false
        by (symmetry; apply streqb_neq; congruence).
      destruct (assoc_last key ms); reflexivity.
Qed.

Lemma object_routes_spread_the_result_witness :
  exists r,
    fst (post_improve (Some sample_content)
           (answering (str "{" ++ quoted "success" ++ str ": false, "
                         ++ quoted "improved" ++ str ": " ++ quoted "Better." ++ str "}")))
    = Return r
    /\ status r = 200%Z
    /\ get_field (body r) (str "success") = Some (JBool false).
Proof.
  destruct (object_routes_spread_the_result sample_content
              (answering (str "{" ++ quoted "success" ++ str ": false, "
                            ++ quoted "improved" ++ str ": " ++ quoted "Better."
                            ++ str "}")))
    as [(result & r & Hresult & Hrun & Hstatus & Hmembers) _].
  - vm_compute. reflexivity.
  - vm_compute. lia.
  - exists r. split; [exact Hrun|]. split; [exact Hstatus|].
    rewrite Hmembers. vm_compute in Hresult. injection Hresult as <-.
    vm_compute. reflexivity.
Defined.
